(** * poker-expert: the post-flop solver core

    A shallow embedding of the C++ solver core (hand evaluator, disk-mapped
    arena, game-tree builder, CFR engine) and the properties its
    specification states about it.

    Conventions.
    - [uint8_t], [uint32_t], [int] values are integers in [Z]; unsigned
      conversions are written out with [mod].
    - [float] is IEEE-754 binary32, modelled by [spec_float] with
      [prec = 24] and [emax = 128].  The solver side is written over an
      interface [FloatOps] whose instance [binary32] is the arithmetic of the
      code; a second instance over exact rationals is used where a statement
      is about exact arithmetic.
    - [std::map] / [std::unordered_map] are [gmap]s, [std::vector] and
      C arrays are lists.
    - Code that can throw returns a [Result]; code that mutates the builder
      or the engine threads the state explicitly. *)

From Stdlib Require Import ZArith List Lia Bool Permutation QArith Qcanon.
From Stdlib Require Import Floats.SpecFloat.
From stdpp Require Import base option list sorting gmap strings pretty.

Local Open Scope Z_scope.

(* ====================================================================== *)
(** * Part I: definitions *)
(* ====================================================================== *)

(** ** types.h: cards and hand ranks *)

(** [CardInt] is [uint8_t]: [card = rank * 4 + suit]. *)
Definition CARD_NONE : Z := 255.

Definition u8 (z : Z) : Z := z mod 256.
Definition u32 (z : Z) : Z := z mod 2 ^ 32.

Definition make_card (rank suit : Z) : Z := u8 (rank * 4 + suit).
Definition card_rank (card : Z) : Z := Z.quot card 4.
Definition card_suit (card : Z) : Z := Z.rem card 4.

Definition RANK_HIGH_CARD : Z := 1.
Definition RANK_ONE_PAIR : Z := 2.
Definition RANK_TWO_PAIR : Z := 3.
Definition RANK_THREE_OF_A_KIND : Z := 4.
Definition RANK_STRAIGHT : Z := 5.
Definition RANK_FLUSH : Z := 6.
Definition RANK_FULL_HOUSE : Z := 7.
Definition RANK_FOUR_OF_A_KIND : Z := 8.
Definition RANK_STRAIGHT_FLUSH : Z := 9.

(** One 4-bit tiebreaker field: [static_cast<uint32_t>(tb & 0xF) << sh]. *)
Definition tb_field (tb sh : Z) : Z := u32 (Z.shiftl (u32 (Z.land tb 15)) sh).

Definition make_hand_rank (rank_type tb1 tb2 tb3 tb4 tb5 : Z) : Z :=
  Z.lor (u32 (Z.shiftl (u32 rank_type) 28))
    (Z.lor (tb_field tb1 20)
      (Z.lor (tb_field tb2 16)
        (Z.lor (tb_field tb3 12)
          (Z.lor (tb_field tb4 8) (tb_field tb5 4))))).

Definition get_rank_type (rank : Z) : Z := Z.shiftr rank 28.

(** The first tiebreaker field of a hand rank (bits 20..23). *)
Definition first_tiebreak (rank : Z) : Z := Z.land (Z.shiftr rank 20) 15.

(** [CardMask] is [uint64_t].  [1ULL << card] is defined for [card < 64]
    only: beyond that the definitions below give the empty mask, and the
    statements about masks take cards below 64. *)
Definition u64 (z : Z) : Z := z mod 2 ^ 64.
Definition card_to_mask (card : Z) : Z := u64 (Z.shiftl 1 card).
Definition mask_has_card (mask card : Z) : bool :=
  negb (Z.land mask (u64 (Z.shiftl 1 card)) =? 0).
Definition add_card_to_mask (mask card : Z) : Z :=
  Z.lor mask (u64 (Z.shiftl 1 card)).

(** ** hand_evaluator.cpp *)

(** [std::sort(..., std::greater<int>())]. *)
Fixpoint insert_desc (x : Z) (l : list Z) : list Z :=
  match l with
  | [] => [x]
  | y :: t => if y <? x then x :: l else y :: insert_desc x t
  end.

Definition sort_desc (l : list Z) : list Z := fold_right insert_desc [] l.

(** [std::unique]: drops an element equal to its predecessor. *)
Fixpoint unique (l : list Z) : list Z :=
  match l with
  | [] => []
  | x :: t =>
      match t with
      | [] => [x]
      | y :: _ => if x =? y then unique t else x :: unique t
      end
  end.

(** Array read [a[i]]; reads past the end do not occur on the paths the
    source takes and yield [0] here. *)
Definition at_ (a : list Z) (i : nat) : Z := nth i a 0.

(** [rank_counts[r]++] on the 13-slot histogram.  The source writes outside
    the array for [r > 12] (a card above 51); the model leaves the histogram
    unchanged there. *)
Definition bump (rank_counts : list Z) (r : Z) : list Z :=
  if (0 <=? r) && (r <? 13) then alter Z.succ (Z.to_nat r) rank_counts
  else rank_counts.

(** The ranks [12, 11, ..., 0] of the loops [for (int r = 12; r >= 0; r--)]. *)
Definition ranks_down : list Z := [12; 11; 10; 9; 8; 7; 6; 5; 4; 3; 2; 1; 0].

(** The scan [if (rank_counts[r] == n) a = r; else if (rank_counts[r] == m) b = r;]
    from rank 12 down to 0, both variables starting at -1. *)
Definition scan_last (rank_counts : list Z) (n m : Z) : Z * Z :=
  fold_left
    (fun '(a, b) r =>
       if at_ rank_counts (Z.to_nat r) =? n then (r, b)
       else if at_ rank_counts (Z.to_nat r) =? m then (a, r)
       else (a, b))
    ranks_down (-1, -1).

(** The scan [if (rank_counts[r] == n) a = r; else if (rank_counts[r] == 1)
    kickers.push_back(r);]. *)
Definition scan_kickers (rank_counts : list Z) (n : Z) : Z * list Z :=
  fold_left
    (fun '(a, kickers) r =>
       if at_ rank_counts (Z.to_nat r) =? n then (r, kickers)
       else if at_ rank_counts (Z.to_nat r) =? 1 then (a, kickers ++ [r])
       else (a, kickers))
    ranks_down (-1, []).

(** The scan of the two-pair case:
    [if (rank_counts[r] == 2) pairs.push_back(r); else if (rank_counts[r] == 1) kicker = r;]. *)
Definition scan_pairs (rank_counts : list Z) : list Z * Z :=
  fold_left
    (fun '(pairs, kicker) r =>
       if at_ rank_counts (Z.to_nat r) =? 2 then (pairs ++ [r], kicker)
       else if at_ rank_counts (Z.to_nat r) =? 1 then (pairs, r)
       else (pairs, kicker))
    ranks_down ([], -1).

(** [kickers.size() > i ? kickers[i] : 0]. *)
Definition kicker_or_0 (kickers : list Z) (i : nat) : Z :=
  if (i <? length kickers)%nat then at_ kickers i else 0.

(** Lines 36-147 of [evaluate_five_internal]: the classification once the
    ranks are sorted (descending) and the flush test is made. *)
Definition classify (ranks : list Z) (is_flush : bool) : Z :=
  let unique_ranks := unique ranks in
  let num_unique := Z.of_nat (length unique_ranks) in
  let '(is_straight, straight_high) :=
    if num_unique =? 5 then
      if at_ ranks 0 - at_ ranks 4 =? 4 then (true, at_ ranks 0)
      else if (at_ ranks 0 =? 12) && (at_ ranks 1 =? 3) && (at_ ranks 2 =? 2)
              && (at_ ranks 3 =? 1) && (at_ ranks 4 =? 0)
           then (true, 3)
           else (false, 0)
    else (false, 0) in
  let rank_counts := fold_left bump ranks (repeat 0 13) in
  let counts := sort_desc (filter (fun c => 0 < c) rank_counts) in
  if is_flush && is_straight then
    make_hand_rank RANK_STRAIGHT_FLUSH straight_high 0 0 0 0
  else if at_ counts 0 =? 4 then
    let '(quad_rank, kicker) := scan_last rank_counts 4 1 in
    make_hand_rank RANK_FOUR_OF_A_KIND quad_rank kicker 0 0 0
  else if (at_ counts 0 =? 3) && (at_ counts 1 =? 2) then
    let '(trip_rank, pair_rank) := scan_last rank_counts 3 2 in
    make_hand_rank RANK_FULL_HOUSE trip_rank pair_rank 0 0 0
  else if is_flush then
    make_hand_rank RANK_FLUSH (at_ ranks 0) (at_ ranks 1) (at_ ranks 2)
      (at_ ranks 3) (at_ ranks 4)
  else if is_straight then
    make_hand_rank RANK_STRAIGHT straight_high 0 0 0 0
  else if at_ counts 0 =? 3 then
    let '(trip_rank, kickers) := scan_kickers rank_counts 3 in
    make_hand_rank RANK_THREE_OF_A_KIND trip_rank
      (kicker_or_0 kickers 0) (kicker_or_0 kickers 1) 0 0
  else if (at_ counts 0 =? 2) && (at_ counts 1 =? 2) then
    let '(pairs, kicker) := scan_pairs rank_counts in
    make_hand_rank RANK_TWO_PAIR (at_ pairs 0) (at_ pairs 1) kicker 0 0
  else if at_ counts 0 =? 2 then
    let '(pair_rank, kickers) := scan_kickers rank_counts 2 in
    make_hand_rank RANK_ONE_PAIR pair_rank
      (kicker_or_0 kickers 0) (kicker_or_0 kickers 1) (kicker_or_0 kickers 2) 0
  else
    make_hand_rank RANK_HIGH_CARD (at_ ranks 0) (at_ ranks 1) (at_ ranks 2)
      (at_ ranks 3) (at_ ranks 4).

(** The flush test [suits[0] == suits[1] && ... && suits[3] == suits[4]]. *)
Definition all_same_suit (suits : list Z) : bool :=
  (at_ suits 0 =? at_ suits 1) && (at_ suits 1 =? at_ suits 2)
  && (at_ suits 2 =? at_ suits 3) && (at_ suits 3 =? at_ suits 4).

Definition evaluate_five_internal (c0 c1 c2 c3 c4 : Z) : Z :=
  let ranks := map card_rank [c0; c1; c2; c3; c4] in
  let suits := map card_suit [c0; c1; c2; c3; c4] in
  let ranks := sort_desc ranks in
  let is_flush := all_same_suit suits in
  classify ranks is_flush.

Definition evaluate_five (cards : list Z) : Z :=
  evaluate_five_internal (at_ cards 0) (at_ cards 1) (at_ cards 2)
    (at_ cards 3) (at_ cards 4).

(** The inner loop of the subset enumerations: copy [cards[k]] for every
    [k < n] that [keep] accepts. *)
Definition copy_kept (n : nat) (keep : nat -> bool) (cards : list Z) : list Z :=
  map (at_ cards) (filter (fun k => keep k = true) (seq 0 n)).

(** [if (rank > best) best = rank;] *)
Definition keep_best (best rank : Z) : Z := if best <? rank then rank else best.

Definition evaluate_seven (cards : list Z) : Z :=
  fold_left
    (fun best i =>
       fold_left
         (fun best j =>
            let five :=
              copy_kept 7 (fun k => negb (k =? i)%nat && negb (k =? j)%nat) cards in
            keep_best best (evaluate_five five))
         (seq (S i) (7 - S i)) best)
    (seq 0 7) 0.

(** [HandEvaluator::evaluate]; [hole] has 2 entries, [board] has 5.
    [all_cards] holds the entries the source has assigned: the two hole
    cards and the first [min(board_size, 5)] board cards. *)
Definition evaluate (hole board : list Z) (board_size : Z) : Z :=
  let all_cards :=
    [at_ hole 0; at_ hole 1]
      ++ map (at_ board) (seq 0 (Z.to_nat (Z.min board_size 5))) in
  let total := 2 + board_size in
  if total <? 5 then 0
  else if total =? 5 then evaluate_five all_cards
  else if total =? 6 then
    fold_left
      (fun best skip =>
         let five := copy_kept 6 (fun i => negb (i =? skip)%nat) all_cards in
         keep_best best (evaluate_five five))
      (seq 0 6) 0
  else evaluate_seven all_cards.

(** ** float: IEEE-754 binary32 *)

Module F32.
Definition prec : Z := 24.
Definition emax : Z := 128.

Definition add : spec_float -> spec_float -> spec_float := SFadd prec emax.
Definition sub : spec_float -> spec_float -> spec_float := SFsub prec emax.
Definition mul : spec_float -> spec_float -> spec_float := SFmul prec emax.
Definition div : spec_float -> spec_float -> spec_float := SFdiv prec emax.
Definition ltb : spec_float -> spec_float -> bool := SFltb.
Definition leb : spec_float -> spec_float -> bool := SFleb.

  (** [(float)i] for an integer [i]. *)
Definition of_Z (z : Z) : spec_float := binary_normalize prec emax z 0 false.

  (** A decimal literal [n/d] such as [0.01f]: the binary32 value nearest to
      the quotient ([n] and [d] are exactly representable, and the division
      is correctly rounded). *)
Definition lit (n d : Z) : spec_float := div (of_Z n) (of_Z d).

  (** [(int)x]: truncation toward zero (the conversion is undefined in the
      source for NaN, infinities and values outside [int]; the model
      yields [0] for the first two). *)
Definition to_Z (x : spec_float) : Z :=
    match x with
    | S754_finite s m e =>
        cond_Zopp s (if 0 <=? e then Zpos m * 2 ^ e else Zpos m / 2 ^ (- e))
    | _ => 0
    end.

  (** [std::floor]. *)
Definition floor (x : spec_float) : spec_float :=
    match x with
    | S754_finite s m e =>
        if 0 <=? e then x
        else binary_normalize prec emax (Z.shiftr (cond_Zopp s (Zpos m)) (- e)) 0 s
    | _ => x
    end.

  (** [std::min(a, b)] is [(b < a) ? b : a]; [std::max(a, b)] is
      [(a < b) ? b : a]. *)
Definition min (a b : spec_float) : spec_float := if ltb b a then b else a.
Definition max (a b : spec_float) : spec_float := if ltb a b then b else a.

  (** [ss << std::fixed << std::setprecision(2) << x]: the decimal expansion
      of the exact binary value rounded to two places, ties to even. *)
Definition round_half_even_div (n d : Z) : Z :=
    let q := n / d in
    let r := n mod d in
    match 2 * r ?= d with
    | Lt => q
    | Gt => q + 1
    | Eq => if Z.even q then q else q + 1
    end.

Definition two_digits (z : Z) : string :=
    if z <? 10 then String.append "0" (pretty z) else pretty z.

Definition sign_str (s : bool) : string := if s then "-"%string else ""%string.

Definition fixed2 (x : spec_float) : string :=
    match x with
    | S754_nan => "nan"%string
    | S754_infinity s => String.append (sign_str s) "inf"
    | S754_zero s => String.append (sign_str s) "0.00"
    | S754_finite s m e =>
        let h := if 0 <=? e then Zpos m * 2 ^ e * 100
                 else round_half_even_div (Zpos m * 100) (2 ^ (- e)) in
        String.append (sign_str s)
          (String.append (pretty (h / 100))
             (String.append "." (two_digits (h mod 100))))
    end.
End F32.

(** The arithmetic the solver uses on [float] values. *)
Class FloatOps (F : Type) := {
  fadd : F -> F -> F;
  fsub : F -> F -> F;
  fmul : F -> F -> F;
  fdiv : F -> F -> F;
  flt : F -> F -> bool;          (* a < b;  a > b is [flt b a] *)
  fint : Z -> F;                 (* (float)i *)
  flit : Z -> Z -> F;            (* the literal n/d *)
  ftrunc : F -> Z                (* (int)x *)
}.

(** [std::max(a, b)] and [std::min(a, b)]. *)
Definition fmax {F} `{FloatOps F} (a b : F) : F := if flt a b then b else a.
Definition fmin {F} `{FloatOps F} (a b : F) : F := if flt b a then b else a.

(** The arithmetic of the code. *)
#[export] Instance binary32 : FloatOps spec_float := {|
  fadd := F32.add; fsub := F32.sub; fmul := F32.mul; fdiv := F32.div;
  flt := F32.ltb; fint := F32.of_Z; flit := F32.lit; ftrunc := F32.to_Z
|}.

(** Exact rational arithmetic, for statements about the arithmetic the
    [float] operations approximate. *)
Definition Qc_ltb (a b : Qc) : bool :=
  match (a ?= b)%Qc with Lt => true | _ => false end.

#[export] Instance exactQ : FloatOps Qc := {|
  fadd := Qcplus; fsub := Qcminus; fmul := Qcmult; fdiv := Qcdiv;
  flt := Qc_ltb;
  fint := fun z => Q2Qc (inject_Z z);
  flit := fun n d => Qcdiv (Q2Qc (inject_Z n)) (Q2Qc (inject_Z d));
  ftrunc := fun x => Z.quot (Qnum (this x)) (Zpos (Qden (this x)))
|}.

(** ** Outcomes and effects *)

(** A call either returns, throws [std::runtime_error(what)], does
    something the language leaves undefined (a null [pool_], a [std::vector]
    read outside its size), or (in the model only) runs out of the fuel that
    bounds recursion depth. *)
Inductive Result (A : Type) : Type :=
  | Ok (a : A)
  | Throw (what : string)
  | Undefined
  | OutOfFuel.
Arguments Ok {A} a.
Arguments Throw {A} what.
Arguments Undefined {A}.
Arguments OutOfFuel {A}.

(** Lines written to [stderr]. *)
Inductive Diag : Type :=
  | FatalOutOfBounds (index limit : Z)        (* "FATAL: MmapBuffer access out of bounds!" *)
  | FatalConstOutOfBounds (index limit : Z)   (* "FATAL: MmapBuffer const access out of bounds!" *)
  | ErrorInvalidNodeId (id : Z).              (* "ERROR: get_node_data invalid id=%d" *)

(** A computation over a mutable object of type [S]: it returns a value,
    the object after the call and the diagnostics it printed. *)
Definition Prog (S A : Type) : Type := S -> Result (A * S * list Diag).

#[export] Instance Prog_ret {S} : MRet (Prog S) :=
  fun A a s => Ok (a, s, []).

#[export] Instance Prog_bind {S} : MBind (Prog S) :=
  fun A B k c s =>
    match c s with
    | Ok (a, s1, d1) =>
        match k a s1 with
        | Ok (b, s2, d2) => Ok (b, s2, d1 ++ d2)
        | Throw w => Throw w
        | Undefined => Undefined
        | OutOfFuel => OutOfFuel
        end
    | Throw w => Throw w
    | Undefined => Undefined
    | OutOfFuel => OutOfFuel
    end.

Definition get {S} : Prog S S := fun s => Ok (s, s, []).
Definition put {S} (s : S) : Prog S unit := fun _ => Ok (tt, s, []).
Definition throw {S A} (what : string) : Prog S A := fun _ => Throw what.
Definition undefined {S A} : Prog S A := fun _ => Undefined.
Definition out_of_fuel {S A} : Prog S A := fun _ => OutOfFuel.
Definition print {S} (d : Diag) : Prog S unit := fun s => Ok (tt, s, [d]).

(** [for (x : l) body], the loop carrying local variables of type [L]. *)
Fixpoint for_each {S A L} (l : list A) (body : A -> L -> Prog S L) (acc : L)
  : Prog S L :=
  match l with
  | [] => mret acc
  | x :: t => acc' ← body x acc; for_each t body acc'
  end.

(** Run a computation on a component of the state. *)
Definition zoom {S T A} (proj : S -> T) (upd : T -> S -> S) (c : Prog T A)
  : Prog S A :=
  fun s =>
    match c (proj s) with
    | Ok (a, t, d) => Ok (a, upd t s, d)
    | Throw w => Throw w
    | Undefined => Undefined
    | OutOfFuel => OutOfFuel
    end.

(** [v[i]] on a [std::vector]: undefined outside the vector. *)
Definition vec_at {S A} (v : list A) (i : Z) : Prog S A :=
  if i <? 0 then undefined
  else match v !! Z.to_nat i with
       | Some x => mret x
       | None => undefined
       end.

(** ** mmap_buffer.h *)

(** The content of a freshly truncated, mapped file is zero bytes. *)
Class Zeroed (T : Type) := zeroed : T.

#[export] Instance Z_zeroed : Zeroed Z := 0.

(** [size_t] and the conversion of an [int] index to it. *)
Definition size_t (z : Z) : Z := z mod 2 ^ 64.

Module MmapBuffer.
  (** [data_] is the mapped region: [slots] holds its written prefix, every
      slot beyond it reads as zero bytes. *)
Record t (T : Type) : Type := Build {
    filename_ : string;
    slots : list T;
    count_ : Z;
    max_elements_ : Z
  }.
Arguments Build {T}.
Arguments filename_ {T}.
Arguments slots {T}.
Arguments count_ {T}.
Arguments max_elements_ {T}.

(** What the operating system answers to the constructor: every call
    succeeds, or [open], [ftruncate] or [mmap] fails. *)
Inductive Mapping : Type := Mapped | OpenFails | TruncateFails | MmapFails.

Section Ops.
Context {T : Type} `{Zeroed T}.

(** The object the constructor leaves when it returns. *)
Definition create (filename : string) (max_elements : Z) : t T :=
      Build filename [] 0 max_elements.

(** [MmapBuffer(filename, max_elements)]: the constructor throws at the
    first call that fails; [mmap] of no bytes always fails, so a buffer of
    no elements is never constructed. *)
Definition construct (os : Mapping) (filename : string) (max_elements : Z)
      : Result (t T) :=
      match os with
      | OpenFails => Throw (String.append "Failed to open mmap file: " filename)
      | TruncateFails => Throw "Failed to ftruncate mmap file"
      | MmapFails => Throw "Failed to mmap file"
      | Mapped =>
          if max_elements =? 0 then Throw "Failed to mmap file"
          else Ok (create filename max_elements)
      end.

Definition with_count (b : t T) (n : Z) : t T :=
      Build (filename_ b) (slots b) n (max_elements_ b).

    (** [data_[i]] read and [data_[i] = v]. *)
Definition data_at (b : t T) (i : Z) : T :=
      nth (Z.to_nat i) (slots b) zeroed.

Definition data_set (b : t T) (i : Z) (v : T) : t T :=
      let n := Z.to_nat i in
      let padded := slots b ++ replicate (S n - length (slots b)) zeroed in
      Build (filename_ b) (<[n := v]> padded) (count_ b) (max_elements_ b).

    (** [T& operator[](size_t index)]: the slot the returned reference
        designates. *)
Definition index (i : Z) : Prog (t T) Z :=
      b ← get;
      if max_elements_ b <=? i then
        _ ← print (FatalOutOfBounds i (max_elements_ b));
        mret 0
      else
        _ ← (if count_ b <=? i then put (with_count b (i + 1)) else mret tt);
        mret i.

    (** [const T& operator[](size_t index) const]. *)
Definition index_const (i : Z) : Prog (t T) Z :=
      b ← get;
      if max_elements_ b <=? i then
        _ ← print (FatalConstOutOfBounds i (max_elements_ b));
        mret 0
      else mret i.

    (** [buf[i]] used as a value, and [buf[i] = v]. *)
Definition read (i : Z) : Prog (t T) T :=
      k ← index i; b ← get; mret (data_at b k).

Definition write (i : Z) (v : T) : Prog (t T) unit :=
      k ← index i; b ← get; put (data_set b k v).

Definition overflow_what (b : t T) : string :=
      String.append "MmapBuffer overflow in file: "
        (String.append (filename_ b)
           (String.append " (Limit: "
              (String.append (pretty (max_elements_ b)) ")"))).

Definition push_back (val : T) : Prog (t T) unit :=
      b ← get;
      if max_elements_ b <=? count_ b then throw (overflow_what b)
      else put (with_count (data_set b (count_ b) val) (count_ b + 1)).

Definition size (b : t T) : Z := count_ b.

Definition clear : Prog (t T) unit :=
      b ← get; put (with_count b 0).
End Ops.
End MmapBuffer.

(** ** cfr_types.h *)

Module CfrTypes.
Inductive ActionType : Type := FOLD | CHECK | CALL | BET | RAISE | ALLIN.

Record Action (F : Type) : Type := mkAction {
  a_type : ActionType;
  a_size : F
}.
Arguments mkAction {F}.
Arguments a_type {F}.
Arguments a_size {F}.

Inductive NodeType : Type := PLAYER | CHANCE | TERMINAL.

(** [enum class Street : uint8_t]; the builder computes [(Street)((int)street + 1)],
    so a street is kept as its integer. *)
Definition FLOP : Z := 0.
Definition TURN : Z := 1.
Definition RIVER : Z := 2.

Record CppNode (F : Type) : Type := mkNode {
  node_id : Z;
  bucket_id : Z;
  type : NodeType;
  player : Z;
  street : Z;
  pot : F;
  stacks : F * F;
  to_call : F;
  action_start : Z;
  action_count : Z;
  child_start : Z;
  chance_card_start : Z;
  chance_count : Z;
  chance_child_start : Z;
  board : list Z;
  board_len : Z
}.
Arguments mkNode {F}.
Arguments node_id {F}.
Arguments bucket_id {F}.
Arguments type {F}.
Arguments player {F}.
Arguments street {F}.
Arguments pot {F}.
Arguments stacks {F}.
Arguments to_call {F}.
Arguments action_start {F}.
Arguments action_count {F}.
Arguments child_start {F}.
Arguments chance_card_start {F}.
Arguments chance_count {F}.
Arguments chance_child_start {F}.
Arguments board {F}.
Arguments board_len {F}.

Definition is_terminal {F} (n : CppNode F) : bool :=
  match type n with TERMINAL => true | _ => false end.
Definition is_chance {F} (n : CppNode F) : bool :=
  match type n with CHANCE => true | _ => false end.
Definition is_player {F} (n : CppNode F) : bool :=
  match type n with PLAYER => true | _ => false end.

(** [stacks[p]] for [p] in [{0, 1}]. *)
Definition stack_of {F} (n : CppNode F) (p : Z) : F :=
  if p =? 0 then fst (stacks n) else snd (stacks n).

Record Combo (F : Type) : Type := mkCombo {
  cards : list Z;        (* HoleCards: 2 entries *)
  weight : F;
  hand_str : string
}.
Arguments mkCombo {F}.
Arguments cards {F}.
Arguments weight {F}.
Arguments hand_str {F}.

Record NodeRegrets (F : Type) : Type := mkRegrets {
  regrets : gmap Z (list F);
  cumulative_strategy : gmap Z (list F)
}.
Arguments mkRegrets {F}.
Arguments regrets {F}.
Arguments cumulative_strategy {F}.

Record CFRConfig (F : Type) : Type := mkCFRConfig {
  alpha : F;
  beta : F;
  gamma : F;
  base_sample_size : Z;
  use_parallel : bool;
  num_threads : Z
}.
Arguments mkCFRConfig {F}.
Arguments alpha {F}.
Arguments beta {F}.
Arguments gamma {F}.
Arguments base_sample_size {F}.
Arguments use_parallel {F}.
Arguments num_threads {F}.

(** [CFRConfig{}]: the default member initialisers. *)
Definition default_config {F} `{FloatOps F} : CFRConfig F :=
  mkCFRConfig (flit 15 10) (fint 0) (fint 2) 64 true 0.

#[export] Instance Action_zeroed {F} `{FloatOps F} : Zeroed (Action F) :=
  mkAction FOLD (fint 0).

#[export] Instance CppNode_zeroed {F} `{FloatOps F} : Zeroed (CppNode F) :=
  mkNode 0 0 PLAYER 0 0 (fint 0) (fint 0, fint 0) (fint 0) 0 0 0 0 0 0
    [0; 0; 0; 0; 0] 0.

End CfrTypes.
Export CfrTypes.

(** ** game_tree_builder.h *)

Module Pool.
Record TreeDataPool (F : Type) : Type := mkPool {
  nodes : MmapBuffer.t (CppNode F);
  actions : MmapBuffer.t (Action F);
  child_ids : MmapBuffer.t Z;
  chance_cards : MmapBuffer.t Z
}.
Arguments mkPool {F}.
Arguments nodes {F}.
Arguments actions {F}.
Arguments child_ids {F}.
Arguments chance_cards {F}.

(** The pool [TreeDataPool()] leaves when it returns. *)
Definition TreeDataPool_new {F} : TreeDataPool F :=
  mkPool (MmapBuffer.create "tmp/nodes.bin" 50000000)
         (MmapBuffer.create "tmp/actions.bin" 100000000)
         (MmapBuffer.create "tmp/child_ids.bin" 100000000)
         (MmapBuffer.create "tmp/chance_cards.bin" 10000000).

(** [TreeDataPool()]: the four buffers are constructed in this order, each
    over its own file; [files] is what the operating system answers for each
    file, and the first constructor that throws ends the construction. *)
Definition TreeDataPool_construct {F} (files : string -> MmapBuffer.Mapping)
  : Result (TreeDataPool F) :=
  match MmapBuffer.construct (files "tmp/nodes.bin") "tmp/nodes.bin" 50000000 with
  | Ok n =>
    match MmapBuffer.construct (files "tmp/actions.bin") "tmp/actions.bin" 100000000 with
    | Ok a =>
      match MmapBuffer.construct (files "tmp/child_ids.bin") "tmp/child_ids.bin" 100000000 with
      | Ok c =>
        match MmapBuffer.construct (files "tmp/chance_cards.bin") "tmp/chance_cards.bin" 10000000 with
        | Ok cc => Ok (mkPool n a c cc)
        | Throw w => Throw w
        | Undefined => Undefined
        | OutOfFuel => OutOfFuel
        end
      | Throw w => Throw w
      | Undefined => Undefined
      | OutOfFuel => OutOfFuel
      end
    | Throw w => Throw w
    | Undefined => Undefined
    | OutOfFuel => OutOfFuel
    end
  | Throw w => Throw w
  | Undefined => Undefined
  | OutOfFuel => OutOfFuel
  end.

(** [pool_ = std::make_unique<TreeDataPool>()] inside a member function:
    the state is untouched when the constructor throws. *)
Definition make_pool {F S} (files : string -> MmapBuffer.Mapping)
  : Prog S (TreeDataPool F) :=
  fun s =>
    match TreeDataPool_construct files with
    | Ok p => Ok (p, s, [])
    | Throw w => Throw w
    | Undefined => Undefined
    | OutOfFuel => OutOfFuel
    end.

Definition on_nodes {F A} (c : Prog (MmapBuffer.t (CppNode F)) A)
  : Prog (TreeDataPool F) A :=
  zoom nodes (fun b p => mkPool b (actions p) (child_ids p) (chance_cards p)) c.
Definition on_actions {F A} (c : Prog (MmapBuffer.t (Action F)) A)
  : Prog (TreeDataPool F) A :=
  zoom actions (fun b p => mkPool (nodes p) b (child_ids p) (chance_cards p)) c.
Definition on_child_ids {F A} (c : Prog (MmapBuffer.t Z) A)
  : Prog (TreeDataPool F) A :=
  zoom child_ids (fun b p => mkPool (nodes p) (actions p) b (chance_cards p)) c.
Definition on_chance_cards {F A} (c : Prog (MmapBuffer.t Z) A)
  : Prog (TreeDataPool F) A :=
  zoom chance_cards (fun b p => mkPool (nodes p) (actions p) (child_ids p) b) c.

Definition TreeDataPool_clear {F} : Prog (TreeDataPool F) unit :=
  _ ← on_nodes MmapBuffer.clear;
  _ ← on_actions MmapBuffer.clear;
  _ ← on_child_ids MmapBuffer.clear;
  on_chance_cards MmapBuffer.clear.

Record BettingConfig : Type := mkBetting {
  initial_pot : spec_float;
  oop_stack : spec_float;
  ip_stack : spec_float;
  flop_bet_sizes : list spec_float;
  turn_bet_sizes : list spec_float;
  river_bet_sizes : list spec_float;
  flop_raise_sizes : list spec_float;
  turn_raise_sizes : list spec_float;
  river_raise_sizes : list spec_float;
  max_raises : Z
}.
End Pool.
Export Pool.

(** Integer conversions of the casts in the builder. *)
Definition i8 (z : Z) : Z := (z + 128) mod 256 - 128.
Definition u16 (z : Z) : Z := z mod 2 ^ 16.
Definition i32 (z : Z) : Z := (z + 2 ^ 31) mod 2 ^ 32 - 2 ^ 31.

(** ** game_tree_builder.cpp *)

Module GameTreeBuilder.
Record t : Type := Build {
    config_ : BettingConfig;
    pool_ : TreeDataPool spec_float;
    transposition_table_ : gmap string Z
  }.

Definition on_pool {A} (c : Prog (TreeDataPool spec_float) A) : Prog t A :=
    zoom pool_ (fun p b => Build (config_ b) p (transposition_table_ b)) c.

Definition table_insert (key : string) (id : Z) : Prog t unit :=
    b ← get;
    put (Build (config_ b) (pool_ b) (<[key := id]> (transposition_table_ b))).

Definition f0 : spec_float := F32.of_Z 0.

Definition get_state_key (oop_s ip_s pot : spec_float) (player street : Z)
      (board : list Z) (current_bet actor_invested : spec_float)
      (raise_count : Z) (is_all_in : bool) : string :=
    let to_call := F32.sub current_bet actor_invested in
    F32.fixed2 oop_s +:+ "|" +:+ F32.fixed2 ip_s +:+ "|" +:+ F32.fixed2 pot
      +:+ "|" +:+ pretty player +:+ "|" +:+ pretty street
      +:+ "|" +:+ F32.fixed2 to_call +:+ "|" +:+ pretty raise_count
      +:+ "|" +:+ pretty (Z.b2z is_all_in)
      +:+ fold_left (fun acc c => acc +:+ "," +:+ pretty c) board "".

  (** [for (i < board_len) node.board[i] = board[i]]: the other entries of
      the 5-slot array keep what the local held. *)
Definition store_board (old board : list Z) : list Z :=
    take 5 (board ++ drop (length board) old).

Section Indeterminate.
    (** A local [CppNode node;] is default-initialised: the fields the code
        does not assign keep an indeterminate content, [stale]. *)
Variable stale : CppNode spec_float.

Definition write_node_to_pool (key : string) (player street : Z)
        (pot oop_stack ip_stack to_call : spec_float)
        (actions : list (Action spec_float)) (child_ids : list Z)
        (board : list Z) : Prog t Z :=
      b ← get;
      let current_id := i32 (MmapBuffer.size (nodes (pool_ b))) in
      let action_start := u32 (MmapBuffer.size (Pool.actions (pool_ b))) in
      _ ← on_pool (on_actions
             (for_each actions (fun a _ => MmapBuffer.push_back a) tt));
      let child_start := u32 (MmapBuffer.size (Pool.child_ids (pool_ b))) in
      _ ← on_pool (on_child_ids
             (for_each child_ids (fun id _ => MmapBuffer.push_back id) tt));
      let node :=
        mkNode current_id (-1)
          (match actions with [] => TERMINAL | _ => PLAYER end)
          (i8 player) (u8 street) pot (oop_stack, ip_stack)
          (F32.max f0 to_call)
          action_start (u8 (Z.of_nat (length actions))) child_start
          0 0 0
          (store_board (CfrTypes.board stale) board) (u8 (Z.of_nat (length board))) in
      _ ← on_pool (on_nodes (MmapBuffer.push_back node));
      _ ← table_insert key current_id;
      mret current_id.

    (** The first suit of rank [r] that the mask does not hold. *)
Definition representative (mask r : Z) : option Z :=
      head (filter (fun c => mask_has_card mask c = false)
                   (map (make_card r) [0; 1; 2; 3])).

Section Recursion.
      (** The recursive entry point at the next lower recursion depth. *)
Variable build_recursive :
        spec_float -> spec_float -> spec_float -> Z -> Z -> list Z -> Z ->
        spec_float -> spec_float -> bool -> Prog t Z.

Definition add_chance_node_recursive (oop_s ip_s pot : spec_float)
          (next_street : Z) (board : list Z) : Prog t Z :=
        let mask := fold_left add_card_to_mask board 0 in
        '(chance_cards, chance_child_ids) ←
          for_each (map Z.of_nat (seq 0 13))
            (fun r '(cs, ids) =>
               match representative mask r with
               | Some representative_card =>
                   let next_b := board ++ [representative_card] in
                   child_id ← build_recursive oop_s ip_s pot 0 next_street next_b
                                 0 f0 f0
                                 (F32.ltb oop_s (F32.lit 1 100)
                                  || F32.ltb ip_s (F32.lit 1 100));
                   mret (cs ++ [representative_card], ids ++ [child_id])
               | None => mret (cs, ids)
               end)
            ([], []);
        b ← get;
        let chance_id := i32 (MmapBuffer.size (nodes (pool_ b))) in
        let chance_card_start := u32 (MmapBuffer.size (Pool.chance_cards (pool_ b))) in
        _ ← on_pool (on_chance_cards
               (for_each chance_cards (fun c _ => MmapBuffer.push_back c) tt));
        let chance_child_start := u32 (MmapBuffer.size (Pool.child_ids (pool_ b))) in
        _ ← on_pool (on_child_ids
               (for_each chance_child_ids (fun id _ => MmapBuffer.push_back id) tt));
        let c_node :=
          mkNode chance_id (bucket_id stale) CHANCE (player stale) (u8 next_street)
            pot (oop_s, ip_s) (to_call stale)
            0 0 0
            chance_card_start (u16 (Z.of_nat (length chance_cards))) chance_child_start
            (store_board (CfrTypes.board stale) board) (u8 (Z.of_nat (length board))) in
        _ ← on_pool (on_nodes (MmapBuffer.push_back c_node));
        mret chance_id.

      (** Step 1 of the enumeration: fold. *)
Definition enumerate_fold (oop_stack ip_stack : spec_float) (player street : Z)
    (board : list Z) (to_call : spec_float)
  : Prog t (list (Action spec_float) * list Z) :=
  if F32.ltb (F32.lit 1 10) to_call then
    b1 ← get;
    f_id ← write_node_to_pool
              ("TERM_FOLD_" +:+ pretty (MmapBuffer.size (nodes (pool_ b1))))
              player street f0 oop_stack ip_stack f0 [] [] board;
    mret ([mkAction FOLD f0], [f_id])
  else mret ([], []).

(** Step 2 of the enumeration: check or call. *)
Definition enumerate_check_call (oop_stack ip_stack pot : spec_float)
    (player street : Z) (board : list Z) (to_call actor_stack : spec_float)
    (local_actions : list (Action spec_float)) (local_child_ids : list Z)
  : Prog t (list (Action spec_float) * list Z) :=
  if F32.ltb to_call (F32.lit 1 10) then
    let local_actions := local_actions ++ [mkAction CHECK f0] in
    if player =? 1 then
      if street =? RIVER then
        b1 ← get;
        t_id ← write_node_to_pool
                  ("TERM_SD_" +:+ pretty (MmapBuffer.size (nodes (pool_ b1))))
                  player street pot oop_stack ip_stack f0 [] [] board;
        mret (local_actions, local_child_ids ++ [t_id])
      else
        chance_id ← add_chance_node_recursive oop_stack ip_stack pot
                       (street + 1) board;
        mret (local_actions, local_child_ids ++ [chance_id])
    else
      c_id ← build_recursive oop_stack ip_stack pot 1 street board
                0 f0 f0 false;
      mret (local_actions, local_child_ids ++ [c_id])
  else
    let call_amt := F32.min actor_stack to_call in
    let local_actions := local_actions ++ [mkAction CALL call_amt] in
    let next_oop := if player =? 0 then F32.sub oop_stack call_amt
                    else oop_stack in
    let next_ip := if player =? 1 then F32.sub ip_stack call_amt
                   else ip_stack in
    let next_pot := F32.add pot call_amt in
    let next_is_all_in :=
      F32.leb next_oop (F32.lit 1 100) || F32.leb next_ip (F32.lit 1 100) in
    if (street =? RIVER) || next_is_all_in then
      if street =? RIVER then
        b1 ← get;
        t_id ← write_node_to_pool
                  ("TERM_SD_" +:+ pretty (MmapBuffer.size (nodes (pool_ b1))))
                  player street next_pot next_oop next_ip f0 [] [] board;
        mret (local_actions, local_child_ids ++ [t_id])
      else
        chance_id ← add_chance_node_recursive next_oop next_ip next_pot
                       (street + 1) board;
        mret (local_actions, local_child_ids ++ [chance_id])
    else
      chance_id ← add_chance_node_recursive next_oop next_ip next_pot
                     (street + 1) board;
      mret (local_actions, local_child_ids ++ [chance_id]).

(** The sizes the configuration offers on a street. *)
Definition sizes_for (cfg : BettingConfig) (is_bet : bool) (street : Z)
  : list spec_float :=
  if is_bet then
    (if street =? FLOP then flop_bet_sizes cfg
     else if street =? TURN then turn_bet_sizes cfg
     else river_bet_sizes cfg)
  else
    (if street =? FLOP then flop_raise_sizes cfg
     else if street =? TURN then turn_raise_sizes cfg
     else river_raise_sizes cfg).

(** The body of the loop [for (float s : sizes)]. *)
Definition enumerate_size (oop_stack ip_stack pot : spec_float)
    (player street : Z) (board : list Z) (raise_count : Z)
    (current_bet to_call actor_stack : spec_float) (is_bet : bool)
    (s : spec_float) (local : list (Action spec_float) * list Z)
  : Prog t (list (Action spec_float) * list Z) :=
  let '(local_actions, local_child_ids) := local in
  let bet_val :=
    if is_bet then F32.floor (F32.mul pot s)
    else F32.floor (F32.mul (F32.add pot to_call) s) in
  let bet_val :=
    if F32.ltb bet_val (F32.of_Z 1) then F32.of_Z 1 else bet_val in
  let invest := F32.min actor_stack (F32.add to_call bet_val) in
  if F32.leb invest (F32.add to_call (F32.lit 1 100)) then
    mret (local_actions, local_child_ids)
  else
    let n_oop := if player =? 0 then F32.sub oop_stack invest else oop_stack in
    let n_ip := if player =? 1 then F32.sub ip_stack invest else ip_stack in
    c_id ← build_recursive n_oop n_ip (F32.add pot invest)
              (1 - player) street board (raise_count + 1)
              invest current_bet
              (F32.leb (F32.sub actor_stack (F32.lit 1 100)) invest);
    mret (local_actions ++ [mkAction (if is_bet then BET else RAISE) invest],
          local_child_ids ++ [c_id]).

(** The all-in inside step 3. *)
Definition enumerate_allin (oop_stack ip_stack pot : spec_float)
    (player street : Z) (board : list Z) (raise_count : Z)
    (current_bet to_call actor_stack : spec_float)
    (local_actions : list (Action spec_float)) (local_child_ids : list Z)
  : Prog t (list (Action spec_float) * list Z) :=
  if F32.ltb (F32.add to_call (F32.of_Z 1)) actor_stack then
    let n_oop := if player =? 0 then f0 else oop_stack in
    let n_ip := if player =? 1 then f0 else ip_stack in
    c_id ← build_recursive n_oop n_ip (F32.add pot actor_stack)
              (1 - player) street board (raise_count + 1)
              actor_stack current_bet true;
    mret (local_actions ++ [mkAction ALLIN actor_stack],
          local_child_ids ++ [c_id])
  else mret (local_actions, local_child_ids).

(** Step 3 of the enumeration: bet or raise, then all-in. *)
Definition enumerate_bet_raise (cfg : BettingConfig)
    (oop_stack ip_stack pot : spec_float)
    (player street : Z) (board : list Z) (raise_count : Z)
    (current_bet to_call actor_stack : spec_float)
    (local_actions : list (Action spec_float)) (local_child_ids : list Z)
  : Prog t (list (Action spec_float) * list Z) :=
  if (raise_count <? max_raises cfg)
     && F32.ltb (F32.add to_call (F32.lit 1 100)) actor_stack then
    let is_bet := F32.ltb to_call (F32.lit 1 100) in
    let sizes := sizes_for cfg is_bet street in
    '(local_actions, local_child_ids) ←
      for_each sizes
        (enumerate_size oop_stack ip_stack pot player street board raise_count
           current_bet to_call actor_stack is_bet)
        (local_actions, local_child_ids);
    enumerate_allin oop_stack ip_stack pot player street board raise_count
      current_bet to_call actor_stack local_actions local_child_ids
  else mret (local_actions, local_child_ids).

(** The enumeration at a decision state, and the write of its node. *)
Definition decide_actions (key : string) (oop_stack ip_stack pot : spec_float)
    (player street : Z) (board : list Z) (raise_count : Z)
    (current_bet to_call : spec_float) : Prog t Z :=
  b ← get;
  let actor_stack := if player =? 0 then oop_stack else ip_stack in
  '(local_actions, local_child_ids) ←
    enumerate_fold oop_stack ip_stack player street board to_call;
  '(local_actions, local_child_ids) ←
    enumerate_check_call oop_stack ip_stack pot player street board to_call
      actor_stack local_actions local_child_ids;
  '(local_actions, local_child_ids) ←
    enumerate_bet_raise (config_ b) oop_stack ip_stack pot player street board
      raise_count current_bet to_call actor_stack local_actions local_child_ids;
  write_node_to_pool key player street pot oop_stack ip_stack to_call
    local_actions local_child_ids board.

(** The body of [build_recursive]. *)
Definition build_recursive_body (oop_stack ip_stack pot : spec_float)
    (player street : Z) (board : list Z) (raise_count : Z)
    (current_bet actor_invested : spec_float) (is_all_in : bool)
  : Prog t Z :=
  if RIVER <? street then mret (-1)
  else
    let key := get_state_key oop_stack ip_stack pot player street board
                 current_bet actor_invested raise_count is_all_in in
    b ← get;
    match transposition_table_ b !! key with
    | Some id => mret id
    | None =>
      let to_call := F32.sub current_bet actor_invested in
      if is_all_in && F32.ltb to_call (F32.lit 1 100) then
        if street =? RIVER then
          write_node_to_pool key player street pot oop_stack ip_stack
            to_call [] [] board
        else
          chance_id ← add_chance_node_recursive oop_stack ip_stack pot
                         (street + 1) board;
          write_node_to_pool key player street pot oop_stack ip_stack
            to_call [mkAction CALL f0] [chance_id] board
      else
        decide_actions key oop_stack ip_stack pot player street board
          raise_count current_bet to_call
    end.
End Recursion.

    (** [build_recursive], its recursion depth bounded by [fuel]. *)
Fixpoint build_recursive (fuel : nat) : 
        spec_float -> spec_float -> spec_float -> Z -> Z -> list Z -> Z ->
        spec_float -> spec_float -> bool -> Prog t Z :=
      match fuel with
      | O => fun _ _ _ _ _ _ _ _ _ _ => out_of_fuel
      | S fuel => build_recursive_body (build_recursive fuel)
      end.

Definition set_node_id (n : CppNode spec_float) (id : Z) : CppNode spec_float :=
      mkNode id (bucket_id n) (type n) (player n) (street n) (pot n) (stacks n)
        (to_call n) (action_start n) (action_count n) (child_start n)
        (chance_card_start n) (chance_count n) (chance_child_start n)
        (board n) (board_len n).

    (** [build_tree]: the builder starts from a fresh pool and an empty
        table, and hands the pool back. *)
Definition build_tree (files : string -> MmapBuffer.Mapping) (fuel : nat)
      (board : list Z) : Prog t (TreeDataPool spec_float) :=
      fresh ← make_pool files;
      b ← get;
      _ ← put (Build (config_ b) fresh ∅);
      _ ← on_pool TreeDataPool_clear;
      let dummy := set_node_id stale 0 in
      _ ← on_pool (on_nodes (MmapBuffer.push_back dummy));
      let initial_street :=
        if Z.of_nat (length board) =? 3 then FLOP
        else if Z.of_nat (length board) =? 4 then TURN
        else RIVER in
      let cfg := config_ b in
      real_root_id ← build_recursive fuel (oop_stack cfg) (ip_stack cfg)
                        (initial_pot cfg) 0 initial_street board 0 f0 f0 false;
      _ ← (if negb (real_root_id =? 0) then
             root_data ← on_pool (on_nodes (MmapBuffer.read (size_t real_root_id)));
             on_pool (on_nodes (MmapBuffer.write 0 (set_node_id root_data 0)))
           else mret tt);
      b ← get;
      mret (pool_ b).
End Indeterminate.

(** [GameTreeBuilder(config)] leaves [pool_] null; [build_tree], the one
    public entry, replaces the pool and the table before it reads them. *)
Definition create (config : BettingConfig) : t :=
    Build config TreeDataPool_new ∅.
End GameTreeBuilder.

(** ** cfr_engine.cpp *)

(** [Action::to_string]. *)
Definition Action_to_string {F} `{FloatOps F} (a : Action F) : string :=
  match a_type a with
  | FOLD => "fold"
  | CHECK => "check"
  | CALL => "call (" +:+ pretty (ftrunc (a_size a)) +:+ ")"
  | BET => "bet " +:+ pretty (ftrunc (a_size a))
  | RAISE => "raise " +:+ pretty (ftrunc (a_size a))
  | ALLIN => "allin (" +:+ pretty (ftrunc (a_size a)) +:+ ")"
  end.

(** The values [py::cast] produces for [get_node_data]. *)
#[warnings="-register-all"] Inductive PyObject (F : Type) : Type :=
  | PyInt (z : Z)
  | PyFloat (x : F)
  | PyStr (s : string)
  | PyList (l : list (PyObject F))
  | PyTuple (l : list (PyObject F)).
Arguments PyInt {F}.
Arguments PyFloat {F}.
Arguments PyStr {F}.
Arguments PyList {F}.
Arguments PyTuple {F}.

Module CppCFREngine.
Record t (F : Type) : Type := Build {
  config_ : CFRConfig F;
  pool_ : option (TreeDataPool F);          (* std::unique_ptr, null at first *)
  root_id_ : Z;
  oop_combos_ : list (Combo F);
  ip_combos_ : list (Combo F);
  initial_board_ : list Z;
  initial_board_mask_ : Z;
  node_regrets_ : list (NodeRegrets F);
  iteration_regrets_ : list F;
  max_iterations_ : Z;
  should_stop_ : bool;
  oop_river_ranks_ : list Z;
  ip_river_ranks_ : list Z;
  river_ranks_precomputed_ : bool
}.
Arguments Build {F}.
Arguments config_ {F}.
Arguments pool_ {F}.
Arguments root_id_ {F}.
Arguments oop_combos_ {F}.
Arguments ip_combos_ {F}.
Arguments initial_board_ {F}.
Arguments initial_board_mask_ {F}.
Arguments node_regrets_ {F}.
Arguments iteration_regrets_ {F}.
Arguments max_iterations_ {F}.
Arguments should_stop_ {F}.
Arguments oop_river_ranks_ {F}.
Arguments ip_river_ranks_ {F}.
Arguments river_ranks_precomputed_ {F}.

Section Engine.
Context {F : Type} `{FloatOps F}.

(** [std::pow] on [float]. *)
Variable fpow : F -> F -> F.

(** [EquityCalculator::calculate_equity(hero, villain, board, board_size, n)]
    before the river: a Monte-Carlo estimate drawn from a thread-local
    random generator. *)
Variable calculate_equity : list Z -> list Z -> list Z -> Z -> Z -> F.

Definition create (config : CFRConfig F) : t F :=
  Build config None 0 [] [] [] 0 [] [] 100 false [] [] false.

Definition set_pool (p : option (TreeDataPool F)) (e : t F) : t F :=
  Build (config_ e) p (root_id_ e) (oop_combos_ e) (ip_combos_ e)
    (initial_board_ e) (initial_board_mask_ e) (node_regrets_ e)
    (iteration_regrets_ e) (max_iterations_ e) (should_stop_ e)
    (oop_river_ranks_ e) (ip_river_ranks_ e) (river_ranks_precomputed_ e).

Definition set_regrets (r : list (NodeRegrets F)) (e : t F) : t F :=
  Build (config_ e) (pool_ e) (root_id_ e) (oop_combos_ e) (ip_combos_ e)
    (initial_board_ e) (initial_board_mask_ e) r
    (iteration_regrets_ e) (max_iterations_ e) (should_stop_ e)
    (oop_river_ranks_ e) (ip_river_ranks_ e) (river_ranks_precomputed_ e).

(** Run a pool operation through [pool_->]; a null [pool_] is undefined. *)
Definition on_pool {A} (c : Prog (TreeDataPool F) A) : Prog (t F) A :=
  fun e =>
    match pool_ e with
    | None => Undefined
    | Some p =>
        match c p with
        | Ok (a, p', d) => Ok (a, set_pool (Some p') e, d)
        | Throw w => Throw w
        | Undefined => Undefined
        | OutOfFuel => OutOfFuel
        end
    end.

Definition set_tree (files : string -> MmapBuffer.Mapping)
    (nodes : list (CppNode F)) (root_id : Z) : Prog (t F) unit :=
  fresh ← make_pool files;
  e ← get;
  _ ← put (set_pool (Some fresh) e);
  _ ← on_pool TreeDataPool_clear;
  _ ← on_pool (on_nodes (for_each nodes (fun n _ => MmapBuffer.push_back n) tt));
  e ← get;
  num_nodes ← on_pool (p ← get; mret (MmapBuffer.size (Pool.nodes p)));
  put (Build (config_ e) (pool_ e) root_id (oop_combos_ e) (ip_combos_ e)
         (initial_board_ e) (initial_board_mask_ e)
         (replicate (Z.to_nat num_nodes) (mkRegrets ∅ ∅))
         (iteration_regrets_ e) (max_iterations_ e) (should_stop_ e)
         (oop_river_ranks_ e) (ip_river_ranks_ e) (river_ranks_precomputed_ e)).

Definition set_oop_range (combos : list (Combo F)) : Prog (t F) unit :=
  e ← get;
  put (Build (config_ e) (pool_ e) (root_id_ e) combos (ip_combos_ e)
         (initial_board_ e) (initial_board_mask_ e) (node_regrets_ e)
         (iteration_regrets_ e) (max_iterations_ e) (should_stop_ e)
         (oop_river_ranks_ e) (ip_river_ranks_ e) (river_ranks_precomputed_ e)).

Definition set_ip_range (combos : list (Combo F)) : Prog (t F) unit :=
  e ← get;
  put (Build (config_ e) (pool_ e) (root_id_ e) (oop_combos_ e) combos
         (initial_board_ e) (initial_board_mask_ e) (node_regrets_ e)
         (iteration_regrets_ e) (max_iterations_ e) (should_stop_ e)
         (oop_river_ranks_ e) (ip_river_ranks_ e) (river_ranks_precomputed_ e)).

Definition set_board (board : list Z) : Prog (t F) unit :=
  e ← get;
  put (Build (config_ e) (pool_ e) (root_id_ e) (oop_combos_ e) (ip_combos_ e)
         board (fold_left add_card_to_mask board 0) (node_regrets_ e)
         (iteration_regrets_ e) (max_iterations_ e) (should_stop_ e)
         (oop_river_ranks_ e) (ip_river_ranks_ e) false).


Definition cards_conflict_board (hole board : list Z) (board_len : Z) : bool :=
  existsb (fun i => (at_ board i =? at_ hole 0) || (at_ board i =? at_ hole 1))
    (seq 0 (Z.to_nat board_len)).

Definition cards_conflict_card (card : Z) (hole : list Z) : bool :=
  (card =? at_ hole 0) || (card =? at_ hole 1).

(** The node [pool_->nodes->operator[](i)] read as a value; [i] is an [int]
    converted to [size_t]. *)
Definition node_at (i : Z) : Prog (t F) (CppNode F) :=
  on_pool (on_nodes (MmapBuffer.read (size_t i))).

Definition terminal_ev (node : CppNode F) (player my_idx opp_idx : Z)
  : Prog (t F) F :=
  e ← get;
  root ← node_at (root_id_ e);
  let initial_stack := stack_of root player in
  if flt (pot node) (flit 1 100) then
    mret (fsub (stack_of node player) initial_stack)
  else
    my_c ← (if player =? 0 then vec_at (oop_combos_ e) my_idx
            else vec_at (ip_combos_ e) my_idx);
    opp_c ← (if player =? 0 then vec_at (ip_combos_ e) opp_idx
             else vec_at (oop_combos_ e) opp_idx);
    let b_arr := map (at_ (board node))
                   (seq 0 (Z.to_nat (Z.min (board_len node) 5))) in
    let equity :=
      if board_len node =? 5 then
        let r1 := evaluate (cards my_c) b_arr 5 in
        let r2 := evaluate (cards opp_c) b_arr 5 in
        if r2 <? r1 then fint 1 else if r1 <? r2 then fint 0 else flit 1 2
      else
        calculate_equity (cards my_c) (cards opp_c) b_arr (board_len node) 50 in
    mret (fsub (fmul equity (pot node))
               (fsub initial_stack (stack_of node player))).

(** The loop of [get_current_strategy] over the actions: positive parts and
    their running sum. *)
Definition positive_parts (r : list F) (action_count : Z)
  : Prog (t F) (list F * F) :=
  for_each (map Z.of_nat (seq 0 (Z.to_nat action_count)))
    (fun a '(strategy, sum) =>
       ra ← vec_at r a;
       let sa := fmax (fint 0) ra in
       mret (strategy ++ [sa], fadd sum sa))
    ([], fint 0).

Definition get_current_strategy (node_id player combo_idx iteration : Z)
  : Prog (t F) (list F) :=
  node ← node_at node_id;
  e ← get;
  let k := action_count node in
  let zeros := replicate (Z.to_nat k) (fint 0) in
  '(strategy, sum) ←
    (if node_id <? i32 (Z.of_nat (length (node_regrets_ e))) then
       nr ← vec_at (node_regrets_ e) node_id;
       match regrets nr !! combo_idx with
       | Some r => positive_parts r k
       | None => mret (zeros, fint 0)
       end
     else mret (zeros, fint 0));
  if flt (fint 0) sum then mret (map (fun s => fdiv s sum) strategy)
  else mret (replicate (Z.to_nat k) (fdiv (fint 1) (fint k))).

(** The two discount factors of [apply_discount]. *)
Definition discount_pos (cfg : CFRConfig F) (iteration : Z) : F :=
  fdiv (fpow (fint iteration) (alpha cfg))
       (fadd (fpow (fint iteration) (alpha cfg)) (fint 1)).

Definition discount_cum (cfg : CFRConfig F) (iteration : Z) : F :=
  fdiv (fpow (fint iteration) (gamma cfg))
       (fadd (fpow (fint iteration) (gamma cfg)) (fint 1)).

(** [if (val < 0) val *= 0.5f; else val *= d;] *)
Definition discount_regret (d val : F) : F :=
  if flt val (fint 0) then fmul val (flit 1 2) else fmul val d.

Definition discount_entry (d dc : F) (nr : NodeRegrets F) : NodeRegrets F :=
  mkRegrets ((fun r : list F => discount_regret d <$> r) <$> regrets nr)
            ((fun c : list F => (fun val => fmul val dc) <$> c)
               <$> cumulative_strategy nr).

Definition apply_discount (iteration : Z) : Prog (t F) unit :=
  e ← get;
  let d := discount_pos (config_ e) iteration in
  let dc := discount_cum (config_ e) iteration in
  put (set_regrets (discount_entry d dc <$> node_regrets_ e) e).

Definition get_node_count (e : t F) : Z :=
  match pool_ e with
  | Some p => i32 (MmapBuffer.size (nodes p))
  | None => 0
  end.

Definition get_average_regret (e : t F) : F :=
  default (fint 0) (last (iteration_regrets_ e)).

Definition stop : Prog (t F) unit :=
  e ← get;
  put (Build (config_ e) (pool_ e) (root_id_ e) (oop_combos_ e) (ip_combos_ e)
         (initial_board_ e) (initial_board_mask_ e) (node_regrets_ e)
         (iteration_regrets_ e) (max_iterations_ e) true
         (oop_river_ranks_ e) (ip_river_ranks_ e) (river_ranks_precomputed_ e)).

Definition precompute_river_ranks : Prog (t F) unit :=
  e ← get;
  if negb (Z.of_nat (length (initial_board_ e)) =? 5) || river_ranks_precomputed_ e
  then mret tt
  else
    let b_arr := map (at_ (initial_board_ e)) (seq 0 5) in
    let precalc := map (fun c : Combo F => evaluate (cards c) b_arr 5) in
    put (Build (config_ e) (pool_ e) (root_id_ e) (oop_combos_ e) (ip_combos_ e)
           (initial_board_ e) (initial_board_mask_ e) (node_regrets_ e)
           (iteration_regrets_ e) (max_iterations_ e) (should_stop_ e)
           (precalc (oop_combos_ e)) (precalc (ip_combos_ e)) true).

(** The pair [{card_rank(c), card_suit(c)}] as Python sees it. *)
Definition py_card (c : Z) : PyObject F :=
  PyTuple [PyInt (card_rank c); PyInt (card_suit c)].

Definition current_pool : Prog (t F) (TreeDataPool F) :=
  on_pool get.

Definition get_node_data (node_id : Z) : Prog (t F) (gmap string (PyObject F)) :=
  e ← get;
  let data : gmap string (PyObject F) := ∅ in
  if match pool_ e with
     | None => true
     | Some p => (node_id <? 0) || (MmapBuffer.size (nodes p) <=? size_t node_id)
     end
  then
    _ ← print (ErrorInvalidNodeId node_id);
    mret data
  else
    node ← node_at node_id;
    let data := <["id" := PyInt (CfrTypes.node_id node)]> data in
    let data := <["player" := PyInt (player node)]> data in
    let data := <["street" := PyInt (street node)]> data in
    let data := <["pot" := PyFloat (pot node)]> data in
    let data := <["stacks" := PyList [PyFloat (fst (stacks node));
                                      PyFloat (snd (stacks node))]]> data in
    let data := <["to_call" := PyFloat (to_call node)]> data in
    let type_str :=
      if is_terminal node then "terminal"
      else if is_chance node then "chance" else "player" in
    let data := <["type" := PyStr type_str]> data in
    '(action_strs, child_ids) ←
      for_each (map Z.of_nat (seq 0 (Z.to_nat (action_count node))))
        (fun i '(action_strs, child_ids) =>
           let action_idx := u32 (action_start node + i) in
           let child_idx := u32 (child_start node + i) in
           p ← current_pool;
           action_strs ←
             (if action_idx <? MmapBuffer.size (actions p) then
                a ← on_pool (on_actions (MmapBuffer.read action_idx));
                mret (action_strs ++ [PyStr (Action_to_string a)])
              else mret action_strs);
           child_ids ←
             (if child_idx <? MmapBuffer.size (Pool.child_ids p) then
                c ← on_pool (on_child_ids (MmapBuffer.read child_idx));
                mret (child_ids ++ [PyInt c])
              else mret child_ids);
           mret (action_strs, child_ids))
        ([], []);
    let data := <["actions" := PyList action_strs]> data in
    let data := <["child_ids" := PyList child_ids]> data in
    let board :=
      map (fun i => py_card (at_ (board node) i))
          (seq 0 (Z.to_nat (board_len node))) in
    let data := <["board" := PyList board]> data in
    if is_chance node then
      '(chance_cards, chance_child_ids) ←
        for_each (map Z.of_nat (seq 0 (Z.to_nat (chance_count node))))
          (fun i '(chance_cards, chance_child_ids) =>
             let c_idx := u32 (chance_card_start node + i) in
             let cc_idx := u32 (chance_child_start node + i) in
             p ← current_pool;
             chance_cards ←
               (if c_idx <? MmapBuffer.size (Pool.chance_cards p) then
                  c ← on_pool (on_chance_cards (MmapBuffer.read c_idx));
                  mret (chance_cards ++ [py_card c])
                else mret chance_cards);
             chance_child_ids ←
               (if cc_idx <? MmapBuffer.size (Pool.child_ids p) then
                  c ← on_pool (on_child_ids (MmapBuffer.read cc_idx));
                  mret (chance_child_ids ++ [PyInt c])
                else mret chance_child_ids);
             mret (chance_cards, chance_child_ids))
          ([], []);
      let data := <["chance_cards" := PyList chance_cards]> data in
      let data := <["chance_child_ids" := PyList chance_child_ids]> data in
      mret data
    else mret data.

Section Solve.
(** [run_iteration(t)] draws its samples from thread-local random generators
    and traverses in parallel; its effect on the engine is a parameter. *)
Variable run_iteration : Z -> Prog (t F) unit.

(** The optional progress callback; it may call [stop]. *)
Variable progress_callback : option (Z -> Z -> Prog (t F) unit).

(** The first two statements of the body of the loop of [solve]:
    [run_iteration(t); if (t % 2 == 0) apply_discount(t);] *)
Definition run_and_discount (t_ : Z) : Prog (t F) unit :=
  _ ← run_iteration t_;
  if Z.rem t_ 2 =? 0 then apply_discount t_ else mret tt.

(** One pass through the body of the loop of [solve] (the progress line
    printed every 50 iterations is left out). *)
Definition solve_iteration (t_ iterations : Z) : Prog (t F) unit :=
  _ ← run_and_discount t_;
  match progress_callback with
  | Some callback =>
      if (Z.rem t_ 10 =? 0) || (t_ =? iterations) then callback t_ iterations
      else mret tt
  | None => mret tt
  end.

(** [for (int t = ...; t <= iterations && !should_stop_; t++)], at most
    [n] more passes. *)
Fixpoint solve_loop (n : nat) (t_ iterations : Z) : Prog (t F) unit :=
  match n with
  | O => mret tt
  | S n =>
      e ← get;
      if (t_ <=? iterations) && negb (should_stop_ e) then
        _ ← solve_iteration t_ iterations;
        solve_loop n (t_ + 1) iterations
      else mret tt
  end.

(** [solve]: the lines written to stderr are left out, and so is
    [iteration_regrets_.reserve(iterations)], which only reserves memory
    when [iterations] is not negative (a negative count converts to a huge
    [size_t] and throws [std::length_error]); the statements about [solve]
    take [0 <= iterations]. *)
Definition solve (iterations : Z) : Prog (t F) unit :=
  e ← get;
  _ ← put (Build (config_ e) (pool_ e) (root_id_ e) (oop_combos_ e) (ip_combos_ e)
             (initial_board_ e) (initial_board_mask_ e) (node_regrets_ e)
             [] iterations false
             (oop_river_ranks_ e) (ip_river_ranks_ e) (river_ranks_precomputed_ e));
  _ ← precompute_river_ranks;
  solve_loop (Z.to_nat iterations) 1 iterations.
End Solve.
End Engine.

(** [CppCFREngine::build_tree] (the arithmetic is that of the code); the
    lines it logs about the root are left out. *)
Definition build_tree (files : string -> MmapBuffer.Mapping)
    (stale : CppNode spec_float) (fuel : nat)
    (config : BettingConfig) (board : list Z) : Prog (t spec_float) unit :=
  fun e =>
    match GameTreeBuilder.build_tree stale files fuel board (GameTreeBuilder.create config) with
    | Ok (p, _, d) =>
        Ok (tt,
            Build (config_ e) (Some p) 0 (oop_combos_ e) (ip_combos_ e)
              (initial_board_ e) (initial_board_mask_ e)
              (replicate (Z.to_nat (MmapBuffer.size (nodes p))) (mkRegrets ∅ ∅))
              (iteration_regrets_ e) (max_iterations_ e) (should_stop_ e)
              (oop_river_ranks_ e) (ip_river_ranks_ e) (river_ranks_precomputed_ e),
            d)
    | Throw w => Throw w
    | Undefined => Undefined
    | OutOfFuel => OutOfFuel
    end.
End CppCFREngine.

(** ** Vocabulary of the specification *)

(** The [k]-element subsets of the cards of [l], each listed in the order of
    [l]: the C(7,5) = 21 five-card subsets of seven cards. *)
Fixpoint combinations {A} (k : nat) (l : list A) : list (list A) :=
  match k, l with
  | O, _ => [[]]
  | S _, [] => []
  | S k', x :: t => map (cons x) (combinations k' t) ++ combinations k t
  end.

(** The value of a run that returned. *)
Definition returned {S A} (r : Result (A * S * list Diag)) : option A :=
  match r with Ok (a, _, _) => Some a | _ => None end.

(** The object after a run that returned. *)
Definition state_after {S A} (r : Result (A * S * list Diag)) : option S :=
  match r with Ok (_, s, _) => Some s | _ => None end.

(** What a run that returned has printed. *)
Definition printed {S A} (r : Result (A * S * list Diag)) : list Diag :=
  match r with Ok (_, _, d) => d | _ => [] end.

(** The order in which [sort_desc] leaves the ranks. *)
Definition ge_rel : relation Z := fun a b => b <= a.

(** The pairs [(i, j)] with [i < j < 7] in the order the loops of
    [evaluate_seven] visit them, and the five cards each pair leaves. *)
Definition skipped_pairs : list (nat * nat) :=
  flat_map (fun i => map (pair i) (seq (S i) (7 - S i))) (seq 0 7).

Definition five_without (cards : list Z) (ij : nat * nat) : list Z :=
  copy_kept 7 (fun k => negb (k =? fst ij)%nat && negb (k =? snd ij)%nat) cards.

(** The number of nodes in the pool of an engine (none before a tree is
    built or set). *)
Definition nodes_in_pool {F} (e : CppCFREngine.t F) : Z :=
  match CppCFREngine.pool_ e with
  | Some p => MmapBuffer.size (nodes p)
  | None => 0
  end.

(** The node an engine holds under an id: the id is an [int] below the
    logical end (and the capacity) of the node arena. *)
Definition stored_node {F} `{FloatOps F} (e : CppCFREngine.t F) (i : Z)
  : option (CppNode F) :=
  match CppCFREngine.pool_ e with
  | Some p =>
      if (0 <=? i) && (i <? MmapBuffer.count_ (nodes p))
         && (i <? MmapBuffer.max_elements_ (nodes p)) && (i <? 2 ^ 31)
      then Some (MmapBuffer.data_at (nodes p) i)
      else None
  | None => None
  end.

(** The cumulative regrets an engine holds for a (node, combo) pair, in a
    regret store whose size fits an [int]. *)
Definition stored_regrets {F} (e : CppCFREngine.t F) (node_id combo_idx : Z)
  : option (list F) :=
  if (0 <=? node_id)
     && (Z.of_nat (length (CppCFREngine.node_regrets_ e)) <? 2 ^ 31)
  then nr ← CppCFREngine.node_regrets_ e !! Z.to_nat node_id;
       regrets nr !! combo_idx
  else None.

(** A buffer whose logical end is the end of what has been written, within
    a capacity that fits an [int]. *)
Definition buffer_wf {T} (buf : MmapBuffer.t T) : Prop :=
  MmapBuffer.count_ buf = Z.of_nat (length (MmapBuffer.slots buf))
  /\ MmapBuffer.count_ buf <= MmapBuffer.max_elements_ buf
  /\ MmapBuffer.max_elements_ buf < 2 ^ 31.

Definition pool_wf {F} (p : TreeDataPool F) : Prop :=
  buffer_wf (nodes p) /\ buffer_wf (actions p)
  /\ buffer_wf (child_ids p) /\ buffer_wf (chance_cards p).

(** The node a pool holds under an id, and the slices of the action and
    child-id arenas that belong to a node. *)
Definition pool_node {F} (p : TreeDataPool F) (id : Z) : option (CppNode F) :=
  if 0 <=? id then MmapBuffer.slots (nodes p) !! Z.to_nat id else None.

Definition node_actions {F} (p : TreeDataPool F) (n : CppNode F)
  : list (Action F) :=
  take (Z.to_nat (action_count n))
       (drop (Z.to_nat (action_start n)) (MmapBuffer.slots (actions p))).


(** A computation keeps a property of the object it runs on. *)
Definition preserves {S A} (P : S -> Prop) (c : Prog S A) : Prop :=
  forall s a s' d, P s -> c s = Ok (a, s', d) -> P s'.

(** The builder holds a well-formed pool. *)
Definition builder_wf (b : GameTreeBuilder.t) : Prop :=
  pool_wf (GameTreeBuilder.pool_ b).

(** The object a run leaves behind (the object itself if the run failed). *)
Definition after {S A} (c : Prog S A) (s : S) : S :=
  match c s with Ok (_, s', _) => s' | _ => s end.

(** ** Sample inputs *)

Module Sample.
(** The directory tmp exists and every file of the pool can be created and
    mapped. *)
Definition files : string -> MmapBuffer.Mapping := fun _ => MmapBuffer.Mapped.

(** The directory tmp is missing: no file of the pool can be opened. *)
Definition no_tmp : string -> MmapBuffer.Mapping := fun _ => MmapBuffer.OpenFails.

(** The river board 2c 2d 2h 7s 9c and the turn board 2c 2d 2h 7s. *)
Definition river : list Z :=
  [make_card 0 0; make_card 0 1; make_card 0 2; make_card 5 3; make_card 7 0].
Definition turn : list Z :=
  [make_card 0 0; make_card 0 1; make_card 0 2; make_card 5 3].

(** Pot 100, stacks 100 and 100, no bet sizes, no raise allowed. *)
Definition checks_only : BettingConfig :=
  mkBetting (F32.of_Z 100) (F32.of_Z 100) (F32.of_Z 100) [] [] [] [] [] [] 0.


(** What an uninitialised local node may hold: here -1 in every number. *)
Definition stale : CppNode spec_float :=
  mkNode (-1) (-1) PLAYER (-1) 0 (F32.of_Z (-1)) (F32.of_Z (-1), F32.of_Z (-1))
    (F32.of_Z (-1)) 0 0 0 0 0 0 [255; 255; 255; 255; 255] 0.

Definition AA : Combo spec_float :=
  mkCombo [make_card 12 0; make_card 12 1] (F32.of_Z 1) "AA".
Definition KK : Combo spec_float :=
  mkCombo [make_card 11 0; make_card 11 1] (F32.of_Z 1) "KK".

(** A one-node game with three actions and cumulative regrets (3, -1, 2)
    for combo 0. *)
Definition three_actions {F} `{FloatOps F} : CppCFREngine.t F :=
  CppCFREngine.set_regrets
    [mkRegrets {[ 0 := [fint 3; fint (-1); fint 2] ]}
               {[ 0 := [fint 1; fint 1; fint 1] ]}]
    (after (CppCFREngine.set_tree files
              [mkNode 0 (-1) PLAYER 0 RIVER (fint 10) (fint 10, fint 10) (fint 0)
                 0 3 0 0 0 0 river 5] 0)
       (CppCFREngine.create default_config)).

(** A river root (pot 100, stacks 100 and 100) and the showdown after a
    bet of 50 and a call (pot 200, stacks 50 and 50), AA against KK. *)
Definition showdown {F} `{FloatOps F} : CppCFREngine.t F :=
  after (_ ← CppCFREngine.set_tree files
               [mkNode 0 (-1) PLAYER 0 RIVER (fint 100) (fint 100, fint 100) (fint 0)
                  0 0 0 0 0 0 river 5;
                mkNode 1 (-1) TERMINAL 1 RIVER (fint 200) (fint 50, fint 50) (fint 0)
                  0 0 0 0 0 0 river 5] 0;
         _ ← CppCFREngine.set_oop_range
               [mkCombo [make_card 12 0; make_card 12 1] (fint 1) "AA"];
         _ ← CppCFREngine.set_ip_range
               [mkCombo [make_card 11 0; make_card 11 1] (fint 1) "KK"];
         CppCFREngine.set_board river)
    (CppCFREngine.create default_config).

(** A stand-in for the Monte-Carlo estimate, which no river showdown asks
    for. *)
Definition no_estimate {F} `{FloatOps F} (hero villain board : list Z)
    (board_size num_simulations : Z) : F := flit 1 2.

(** Stand-ins for what the model leaves open: [std::pow] on the two
    exponents of the default configuration ([x * x] and [x * sqrt x]), and
    an iteration that samples nothing. *)
Definition pow (x y : spec_float) : spec_float :=
  if SFeqb y (F32.of_Z 2) then F32.mul x x
  else F32.mul x (SFsqrt F32.prec F32.emax x).

Definition idle_iteration {F} (t_ : Z) : Prog (CppCFREngine.t F) unit :=
  mret tt.

(** The builder as [build_tree] has it when it enters the recursion: slot 0
    of the node arena is taken by the placeholder. *)
Definition start (config : BettingConfig) : GameTreeBuilder.t :=
  after (GameTreeBuilder.on_pool
           (on_nodes (MmapBuffer.push_back (GameTreeBuilder.set_node_id stale 0))))
    (GameTreeBuilder.create config).

(** An engine with the checks-only river tree, AA against KK. *)
Definition engine : CppCFREngine.t spec_float :=
  after (_ ← CppCFREngine.build_tree files stale 8 checks_only river;
         _ ← CppCFREngine.set_oop_range [AA];
         _ ← CppCFREngine.set_ip_range [KK];
         CppCFREngine.set_board river)
    (CppCFREngine.create default_config).
End Sample.

(** The thirteen ranks, and the check of [classify] on four of one rank and
    one of another, for every pair of ranks and either flush flag. *)
Definition all_ranks : list Z := [0; 1; 2; 3; 4; 5; 6; 7; 8; 9; 10; 11; 12].

Definition quads_checked : bool :=
  forallb (fun q =>
    forallb (fun k =>
      (q =? k)
      || forallb (fun fl =>
           classify (sort_desc [q; q; q; q; k]) fl
           =? make_hand_rank RANK_FOUR_OF_A_KIND q k 0 0 0) [true; false])
      all_ranks) all_ranks.

(** The check of [classify] on three of one rank and two of another, for
    every pair of ranks and either flush flag. *)
Definition full_houses_checked : bool :=
  forallb (fun t =>
    forallb (fun p =>
      (t =? p)
      || forallb (fun fl =>
           classify (sort_desc [t; t; t; p; p]) fl
           =? make_hand_rank RANK_FULL_HOUSE t p 0 0 0) [true; false])
      all_ranks) all_ranks.

(** The slices of the chance-card and child-id arenas that belong to a
    chance node, as [chance_node_cfr] reads them. *)
Definition node_chance_cards {F} (p : TreeDataPool F) (n : CppNode F) : list Z :=
  take (Z.to_nat (chance_count n))
       (drop (Z.to_nat (chance_card_start n)) (MmapBuffer.slots (chance_cards p))).

Definition node_chance_children {F} (p : TreeDataPool F) (n : CppNode F) : list Z :=
  take (Z.to_nat (chance_count n))
       (drop (Z.to_nat (chance_child_start n)) (MmapBuffer.slots (child_ids p))).

(** The cards the builder deals on a board: for each rank from 0 to 12 the
    representative card, if the rank has one left. *)
Definition dealt_cards (board : list Z) : list Z :=
  omap (GameTreeBuilder.representative (fold_left add_card_to_mask board 0))
       (map Z.of_nat (seq 0 13)).

(** ** hand_evaluator.cpp: the equity calculator *)

(** [double]: IEEE-754 binary64. *)
Module F64.
Definition prec : Z := 53.
Definition emax : Z := 1024.
Definition add : spec_float -> spec_float -> spec_float := SFadd prec emax.
Definition mul : spec_float -> spec_float -> spec_float := SFmul prec emax.
Definition div : spec_float -> spec_float -> spec_float := SFdiv prec emax.
Definition ltb : spec_float -> spec_float -> bool := SFltb.
Definition of_Z (z : Z) : spec_float := binary_normalize prec emax z 0 false.
Definition lit (n d : Z) : spec_float := div (of_Z n) (of_Z d).
End F64.

(** [__builtin_popcountll] on a 64-bit mask. *)
Definition popcountll (mask : Z) : Z :=
  Z.of_nat (length (filter (fun i => Z.testbit mask i = true)
                           (map Z.of_nat (seq 0 64)))).

Module EquityCalculator.
Definition make_deck (dead_cards : Z) : list Z :=
  filter (fun c => mask_has_card dead_cards c = false) (map Z.of_nat (seq 0 52)).

(** The cards [calculate_equity] marks dead, in the order it adds them. *)
Definition dead_cards (hero villain board : list Z) (board_size : Z) : list Z :=
  [at_ hero 0; at_ hero 1; at_ villain 0; at_ villain 1]
    ++ map (at_ board) (seq 0 (Z.to_nat board_size)).

(** [return 1.0], [0.0] or [0.5] after a comparison of two ranks. *)
Definition compare_ranks (hero_rank villain_rank : Z) : spec_float :=
  if villain_rank <? hero_rank then F64.of_Z 1
  else if hero_rank <? villain_rank then F64.of_Z 0
  else F64.lit 1 2.

(** [std::swap(deck[i], deck[j])]. *)
Definition swap (deck : list Z) (i j : nat) : list Z :=
  <[j := at_ deck i]> (<[i := at_ deck j]> deck).

Section MonteCarlo.
(** [dist(rng)]: the index the thread-local generator yields at step [i] of
    simulation [sim], an integer from [i] to [deck_size - 1]. *)
Variable draw : Z -> nat -> nat.

(** One pass through the simulation loop: the partial Fisher-Yates shuffle
    of the deck (which keeps its order from one simulation to the next),
    the completed board and the comparison. *)
Definition simulate (hero villain board : list Z) (board_size : Z)
    (cards_needed : nat) (st : list Z * Z * Z) (sim : Z) : list Z * Z * Z :=
  let '(deck, wins, ties) := st in
  let deck := fold_left (fun deck i => swap deck i (draw sim i))
                (seq 0 cards_needed) deck in
  let full_board :=
    fold_left (fun fb i => <[(Z.to_nat board_size + i)%nat := at_ deck i]> fb)
      (seq 0 cards_needed) board in
  let hero_rank := evaluate hero full_board 5 in
  let villain_rank := evaluate villain full_board 5 in
  if villain_rank <? hero_rank then (deck, wins + 1, ties)
  else if hero_rank =? villain_rank then (deck, wins, ties + 1)
  else (deck, wins, ties).

(** [calculate_equity]; [hero] and [villain] have 2 entries, [board] has 5,
    and every card is below 64 (the shift in [add_card_to_mask] is undefined
    otherwise).  A [board_size] above 5 makes the source read past the
    board, and a negative one makes a simulation write before it. *)
Definition calculate_equity (hero villain board : list Z)
    (board_size num_simulations : Z) : Result spec_float :=
  if 5 <? board_size then Undefined
  else
    let dead := fold_left add_card_to_mask
                  (dead_cards hero villain board board_size) 0 in
    let dead_count := popcountll dead in
    if negb (dead_count =? 4 + board_size) then Ok (F64.lit 1 2)
    else
      let cards_needed := 5 - board_size in
      if cards_needed <=? 0 then
        Ok (compare_ranks (evaluate hero board board_size)
                          (evaluate villain board board_size))
      else if (board_size <? 0) && (0 <? num_simulations) then Undefined
      else
        let deck := make_deck dead in
        let '(_, wins, ties) :=
          fold_left
            (simulate hero villain board board_size (Z.to_nat cards_needed))
            (map Z.of_nat (seq 0 (Z.to_nat num_simulations)))
            (deck, 0, 0) in
        Ok (F64.div (F64.add (F64.of_Z wins) (F64.mul (F64.of_Z ties) (F64.lit 1 2)))
                    (F64.of_Z num_simulations)).
End MonteCarlo.

Section Batch.
(** The draws of the call made for hero hand [h] and villain hand [v]. *)
Variable draw : nat -> nat -> Z -> nat -> nat.

(** The body of the loop over the villain hands. *)
Definition add_villain (hero : list Z) (h : nat) (villain_hands : list (list Z))
    (villain_weights : list spec_float) (board : list Z)
    (board_size num_simulations : Z)
    (acc : Result (spec_float * spec_float)) (v : nat)
  : Result (spec_float * spec_float) :=
  match acc with
  | Ok (total_equity, total_weight) =>
      match villain_hands !! v, villain_weights !! v with
      | Some villain, Some weight =>
          if (at_ hero 0 =? at_ villain 0) || (at_ hero 0 =? at_ villain 1)
             || (at_ hero 1 =? at_ villain 0) || (at_ hero 1 =? at_ villain 1)
          then Ok (total_equity, total_weight)
          else if i32 (Z.of_nat (length villain_hands)) =? 0 then Undefined
          else
            match calculate_equity (draw h v) hero villain board board_size
                    (Z.quot num_simulations (i32 (Z.of_nat (length villain_hands))))
            with
            | Ok eq => Ok (F64.add total_equity (F64.mul eq weight),
                           F64.add total_weight weight)
            | Throw w => Throw w
            | Undefined => Undefined
            | OutOfFuel => OutOfFuel
            end
      | _, _ => Undefined
      end
  | other => other
  end.

(** The body of the loop over the hero hands: [results[h]]. *)
Definition equity_against_range (hero : list Z) (h : nat)
    (villain_hands : list (list Z)) (villain_weights : list spec_float)
    (board : list Z) (board_size num_simulations : Z) : Result spec_float :=
  match fold_left
          (add_villain hero h villain_hands villain_weights board board_size
             num_simulations)
          (seq 0 (length villain_hands)) (Ok (F64.of_Z 0, F64.of_Z 0))
  with
  | Ok (total_equity, total_weight) =>
      Ok (if F64.ltb (F64.of_Z 0) total_weight
          then F64.div total_equity total_weight
          else F64.lit 1 2)
  | Throw w => Throw w
  | Undefined => Undefined
  | OutOfFuel => OutOfFuel
  end.

(** [calculate_equity_batch]: one result per hero hand (the iterations of
    the parallel loop do not share anything they write). *)
Fixpoint collect {A} (l : list (Result A)) : Result (list A) :=
  match l with
  | [] => Ok []
  | Ok a :: t =>
      match collect t with
      | Ok r => Ok (a :: r)
      | Throw w => Throw w
      | Undefined => Undefined
      | OutOfFuel => OutOfFuel
      end
  | Throw w :: _ => Throw w
  | Undefined :: _ => Undefined
  | OutOfFuel :: _ => OutOfFuel
  end.

Definition calculate_equity_batch (hero_hands villain_hands : list (list Z))
    (villain_weights : list spec_float) (board : list Z)
    (board_size num_simulations : Z) : Result (list spec_float) :=
  collect (imap (fun h hero =>
                   equity_against_range hero h villain_hands villain_weights
                     board board_size num_simulations) hero_hands).
End Batch.
End EquityCalculator.


(** The engine as [solve] has it when it enters its loop, before the river
    ranks are precomputed: the regret history emptied, the iteration count
    recorded and the stop flag cleared. *)
Definition solve_start {F} (iterations : Z) (e : CppCFREngine.t F)
  : CppCFREngine.t F :=
  CppCFREngine.Build (CppCFREngine.config_ e) (CppCFREngine.pool_ e)
    (CppCFREngine.root_id_ e) (CppCFREngine.oop_combos_ e)
    (CppCFREngine.ip_combos_ e) (CppCFREngine.initial_board_ e)
    (CppCFREngine.initial_board_mask_ e) (CppCFREngine.node_regrets_ e)
    [] iterations false
    (CppCFREngine.oop_river_ranks_ e) (CppCFREngine.ip_river_ranks_ e)
    (CppCFREngine.river_ranks_precomputed_ e).

(** A binary32 value whose sign bit is clear, or a NaN. *)
Definition sign_clear (x : spec_float) : Prop :=
  match x with
  | S754_zero s | S754_infinity s | S754_finite s _ _ => s = false
  | S754_nan => True
  end.

(* ====================================================================== *)
(** * Part II: properties *)
(* ====================================================================== *)

(** ** Hand ranks *)

Lemma land_15_range tb : 0 <= Z.land tb 15 < 16.
Proof.
  change 15 with (Z.ones 4). rewrite Z.land_ones by lia.
  apply Z.mod_pos_bound. lia.
Qed.

Lemma tb_field_eq tb sh :
  0 <= sh <= 20 -> tb_field tb sh = Z.land tb 15 * 2 ^ sh.
Proof.
  intros Hsh. unfold tb_field, u32.
  pose proof (land_15_range tb) as Hr.
  rewrite (Z.mod_small (Z.land tb 15)) by lia.
  rewrite Z.shiftl_mul_pow2 by lia.
  apply Z.mod_small.
  assert (0 < 2 ^ sh) by (apply Z.pow_pos_nonneg; lia).
  assert (2 ^ sh <= 2 ^ 20) by (apply Z.pow_le_mono_r; lia).
  change (2 ^ 32) with (16 * (2 ^ 20 * 2 ^ 8)). nia.
Qed.

Lemma tb_field_high_bits tb sh :
  0 <= sh <= 20 -> Z.shiftr (tb_field tb sh) 28 = 0.
Proof.
  intros Hsh. rewrite tb_field_eq by lia.
  pose proof (land_15_range tb) as Hr.
  assert (0 < 2 ^ sh) by (apply Z.pow_pos_nonneg; lia).
  assert (2 ^ sh <= 2 ^ 20) by (apply Z.pow_le_mono_r; lia).
  rewrite Z.shiftr_div_pow2 by lia.
  apply Z.div_small. change (2 ^ 28) with (16 * (2 ^ 20 * 2 ^ 4)). nia.
Qed.

Lemma get_rank_type_make_hand_rank t tb1 tb2 tb3 tb4 tb5 :
  0 <= t < 16 ->
  get_rank_type (make_hand_rank t tb1 tb2 tb3 tb4 tb5) = t.
Proof.
  intros Ht. unfold get_rank_type, make_hand_rank.
  rewrite !Z.shiftr_lor, !tb_field_high_bits by lia.
  rewrite !Z.lor_0_r. unfold u32.
  rewrite (Z.mod_small t) by lia.
  rewrite Z.shiftl_mul_pow2 by lia.
  rewrite Z.mod_small by lia.
  rewrite Z.shiftr_div_pow2 by lia.
  apply Z.div_mul. lia.
Qed.

Lemma make_hand_rank_nonneg t tb1 tb2 tb3 tb4 tb5 :
  0 <= make_hand_rank t tb1 tb2 tb3 tb4 tb5.
Proof.
  unfold make_hand_rank, tb_field, u32.
  repeat (apply Z.lor_nonneg; split); apply Z.mod_pos_bound; lia.
Qed.

Lemma rank_type_lower_bound r t :
  0 <= r -> get_rank_type r = t -> t * 2 ^ 28 <= r.
Proof.
  unfold get_rank_type. intros Hr <-.
  rewrite Z.shiftr_div_pow2 by lia.
  pose proof (Z.div_mod r (2 ^ 28)) as Hd.
  pose proof (Z.mod_pos_bound r (2 ^ 28)) as Hm. lia.
Qed.

(** Every rank [classify] returns carries a category between 1 and 9. *)
Lemma classify_rank_type ranks is_flush :
  1 <= get_rank_type (classify ranks is_flush) <= 9.
Proof.
  unfold classify.
  repeat match goal with
         | |- context [let '(_, _) := ?p in _] => destruct p
         | |- context [if ?b then _ else _] => destruct b
         end;
    rewrite get_rank_type_make_hand_rank; cbv; intuition congruence.
Qed.

Lemma classify_nonneg ranks is_flush : 0 <= classify ranks is_flush.
Proof.
  unfold classify.
  repeat match goal with
         | |- context [let '(_, _) := ?p in _] => destruct p
         | |- context [if ?b then _ else _] => destruct b
         end; apply make_hand_rank_nonneg.
Qed.

Lemma evaluate_five_positive cards : 2 ^ 28 <= evaluate_five cards.
Proof.
  unfold evaluate_five, evaluate_five_internal.
  match goal with |- _ <= classify ?r ?f =>
    pose proof (classify_rank_type r f) as Ht;
    pose proof (classify_nonneg r f) as Hn;
    pose proof (rank_type_lower_bound _ _ Hn eq_refl) as Hl
  end.
  lia.
Qed.

(** ** Sorting the ranks *)

Lemma insert_desc_perm x l : insert_desc x l ≡ₚ x :: l.
Proof.
  induction l as [|y t IH]; simpl; [done|].
  destruct (y <? x); [done|].
  rewrite IH. apply perm_swap.
Qed.

Lemma sort_desc_perm l : sort_desc l ≡ₚ l.
Proof.
  induction l as [|x t IH]; simpl; [done|].
  unfold sort_desc in *. rewrite insert_desc_perm. by rewrite IH.
Qed.

Lemma insert_desc_sorted x l :
  StronglySorted ge_rel l -> StronglySorted ge_rel (insert_desc x l).
Proof.
  induction 1 as [|y t Ht IH Hy]; simpl.
  - repeat constructor.
  - destruct (Z.ltb_spec y x).
    + constructor; [by constructor|].
      constructor; [unfold ge_rel; lia|].
      eapply Forall_impl; [exact Hy|]. unfold ge_rel. intros; lia.
    + constructor; [done|].
      rewrite insert_desc_perm. constructor; [unfold ge_rel; lia|done].
Qed.

Lemma sort_desc_sorted l : StronglySorted ge_rel (sort_desc l).
Proof.
  induction l as [|x t IH]; simpl; [constructor|].
  by apply insert_desc_sorted.
Qed.

#[local] Instance ge_rel_antisymm : AntiSymm (=) ge_rel.
Proof. intros a b; unfold ge_rel; lia. Qed.

Lemma sort_desc_permutation_invariant l1 l2 :
  l1 ≡ₚ l2 -> sort_desc l1 = sort_desc l2.
Proof.
  intros Hp. apply (StronglySorted_unique ge_rel); auto using sort_desc_sorted.
  by rewrite !sort_desc_perm.
Qed.

(** The flush test only asks whether all five suits agree. *)
Lemma all_same_suit_spec a b c d e :
  all_same_suit [a; b; c; d; e] = true <-> Forall (fun x => x = a) [a; b; c; d; e].
Proof.
  unfold all_same_suit, at_; simpl.
  rewrite !andb_true_iff, !Z.eqb_eq, !Forall_cons, Forall_nil. lia.
Qed.

Lemma Forall_eq_head_perm (l1 l2 : list Z) a b :
  l1 ≡ₚ l2 -> a ∈ l1 -> b ∈ l2 ->
  Forall (fun x => x = a) l1 -> Forall (fun x => x = b) l2.
Proof.
  intros Hp Ha Hb Hall. rewrite Forall_forall in *.
  intros x Hx. rewrite <- Hp in Hx, Hb.
  rewrite (Hall x Hx), (Hall b Hb). done.
Qed.

Lemma all_same_suit_permutation_invariant l1 l2 :
  length l1 = 5%nat -> l1 ≡ₚ l2 -> all_same_suit l1 = all_same_suit l2.
Proof.
  intros Hlen Hp.
  assert (length l2 = 5%nat) as Hlen2 by (by rewrite <- Hp).
  destruct l1 as [|a1 [|b1 [|c1 [|d1 [|e1 [|]]]]]]; try discriminate.
  destruct l2 as [|a2 [|b2 [|c2 [|d2 [|e2 [|]]]]]]; try discriminate.
  apply eq_true_iff_eq. rewrite !all_same_suit_spec.
  split; apply Forall_eq_head_perm; try done; by left.
Qed.

(** [evaluate_five] does not depend on the order of the five cards. *)
Lemma evaluate_five_permutation_invariant l1 l2 :
  length l1 = 5%nat -> l1 ≡ₚ l2 -> evaluate_five l1 = evaluate_five l2.
Proof.
  intros Hlen Hp.
  assert (length l2 = 5%nat) as Hlen2 by (by rewrite <- Hp).
  destruct l1 as [|a1 [|b1 [|c1 [|d1 [|e1 [|]]]]]]; try discriminate.
  destruct l2 as [|a2 [|b2 [|c2 [|d2 [|e2 [|]]]]]]; try discriminate.
  unfold evaluate_five, evaluate_five_internal, at_; cbn [nth].
  rewrite (sort_desc_permutation_invariant
             (map card_rank [a1; b1; c1; d1; e1])
             (map card_rank [a2; b2; c2; d2; e2]))
    by (by apply Permutation_map).
  rewrite (all_same_suit_permutation_invariant
             (map card_suit [a1; b1; c1; d1; e1])
             (map card_suit [a2; b2; c2; d2; e2]))
    by (done || by apply Permutation_map).
  reflexivity.
Qed.

(** ** Best five of seven *)

Lemma fold_left_nested {A B C} (g : A -> B -> C -> A) (J : B -> list C) I a :
  fold_left (fun a i => fold_left (fun a j => g a i j) (J i) a) I a
  = fold_left (fun a ij => g a (fst ij) (snd ij))
      (flat_map (fun i => map (pair i) (J i)) I) a.
Proof.
  revert a. induction I as [|i I IH]; intros a; simpl; [done|].
  rewrite fold_left_app, IH. f_equal.
  generalize (J i) a. intros l. induction l as [|j l IHl]; intros b; simpl; auto.
Qed.

Lemma fold_keep_best_ge {A} (f : A -> Z) l b :
  b <= fold_left (fun best x => keep_best best (f x)) l b.
Proof.
  revert b. induction l as [|x l IH]; intros b; simpl; [lia|].
  etransitivity; [|apply IH]. unfold keep_best. destruct (Z.ltb_spec b (f x)); lia.
Qed.

Lemma fold_keep_best_upper {A} (f : A -> Z) l b x :
  In x l -> f x <= fold_left (fun best x => keep_best best (f x)) l b.
Proof.
  revert b. induction l as [|y l IH]; intros b; simpl; [tauto|].
  intros [->|Hin]; [|by apply IH].
  etransitivity; [|apply fold_keep_best_ge].
  unfold keep_best. destruct (Z.ltb_spec b (f x)); lia.
Qed.

Lemma fold_keep_best_attained {A} (f : A -> Z) l b :
  fold_left (fun best x => keep_best best (f x)) l b = b
  \/ exists x, In x l /\ fold_left (fun best x => keep_best best (f x)) l b = f x.
Proof.
  revert b. induction l as [|y l IH]; intros b; simpl; [by left|].
  destruct (IH (keep_best b (f y))) as [Heq|(x & Hin & Heq)].
  - rewrite Heq. unfold keep_best. destruct (b <? f y); [right|left]; eauto.
  - right. eauto.
Qed.

Lemma evaluate_seven_fold cards :
  evaluate_seven cards
  = fold_left (fun best five => keep_best best (evaluate_five five))
      (map (five_without cards) skipped_pairs) 0.
Proof.
  unfold evaluate_seven, skipped_pairs.
  rewrite (fold_left_nested
             (fun best i j =>
                keep_best best
                  (evaluate_five
                     (copy_kept 7 (fun k => negb (k =? i)%nat && negb (k =? j)%nat) cards)))
             (fun i => seq (S i) (7 - S i)) (seq 0 7) 0).
  generalize (flat_map (fun i => map (pair i) (seq (S i) (7 - S i))) (seq 0 7)) 0.
  intros l. induction l as [|ij l IH]; intros b; simpl; [done|]. apply IH.
Qed.

Lemma combinations_sublist {A} k (l s : list A) :
  In s (combinations k l) <-> s `sublist_of` l /\ length s = k.
Proof.
  revert k s. induction l as [|x t IH]; intros k s.
  - destruct k; simpl.
    + split.
      * intros [<-|[]]. split; [constructor|done].
      * intros [Hs _]. left. symmetry. by apply sublist_nil_r.
    + split; [tauto|]. intros [Hs Hl]. apply sublist_nil_r in Hs. by subst.
  - destruct k; simpl.
    + split.
      * intros [<-|[]]. split; [apply sublist_nil_l|done].
      * intros [_ Hl]. left. symmetry. by apply nil_length_inv.
    + rewrite in_app_iff, in_map_iff. split.
      * intros [(s' & <- & Hin)|Hin].
        -- apply IH in Hin as [Hs Hl]. split; [by constructor|simpl; lia].
        -- apply IH in Hin as [Hs Hl]. split; [by constructor|done].
      * intros [Hs Hl]. inversion Hs as [|y s' t' Hs'|y s' t' Hs']; subst.
        -- left. exists s'. split; [done|]. apply IH. split; [done|].
           simpl in Hl. lia.
        -- right. apply IH. done.
Qed.

(** The loops of [evaluate_seven] visit exactly the five-card subsets. *)
Lemma five_without_combinations c0 c1 c2 c3 c4 c5 c6 five :
  In five (map (five_without [c0; c1; c2; c3; c4; c5; c6]) skipped_pairs)
  <-> In five (combinations 5 [c0; c1; c2; c3; c4; c5; c6]).
Proof.
  assert (map (five_without [c0; c1; c2; c3; c4; c5; c6]) skipped_pairs
          = rev (combinations 5 [c0; c1; c2; c3; c4; c5; c6])) as ->
    by reflexivity.
  symmetry. apply in_rev.
Qed.

(** C1.  For seven distinct cards, [evaluate_seven] is the maximum of
    [evaluate_five] over the five-card subsets of the seven: no five of the
    seven cards, taken in any order, rank above it; one of the C(7,5) = 21
    subsets attains it. *)
Theorem evaluate_seven_is_max_of_subsets (cards : list Z) :
  length cards = 7%nat ->
  Forall (fun c => 0 <= c < 52) cards ->
  NoDup cards ->
  (forall five, length five = 5%nat -> five ⊆+ cards ->
                evaluate_five five <= evaluate_seven cards)
  /\ (exists five, In five (combinations 5 cards)
                   /\ evaluate_five five = evaluate_seven cards)
  /\ length (combinations 5 cards) = 21%nat.
Proof.
  intros Hlen _ _.
  destruct cards as [|c0 [|c1 [|c2 [|c3 [|c4 [|c5 [|c6 [|]]]]]]]]; try discriminate.
  rewrite evaluate_seven_fold. split; [|split].
  - intros five Hfive Hsub.
    apply submseteq_sublist_r in Hsub as (l2 & Hperm & Hsub).
    rewrite (evaluate_five_permutation_invariant five l2) by done.
    apply fold_keep_best_upper with (f := evaluate_five).
    apply five_without_combinations, combinations_sublist.
    split; [done|]. by rewrite <- Hperm.
  - destruct (fold_keep_best_attained evaluate_five
                (map (five_without [c0; c1; c2; c3; c4; c5; c6]) skipped_pairs) 0)
      as [Hzero|(five & Hin & Heq)].
    + exfalso.
      pose proof (fold_keep_best_upper evaluate_five
                    (map (five_without [c0; c1; c2; c3; c4; c5; c6]) skipped_pairs) 0
                    (five_without [c0; c1; c2; c3; c4; c5; c6] (0%nat, 1%nat))) as Hup.
      pose proof (evaluate_five_positive
                    (five_without [c0; c1; c2; c3; c4; c5; c6] (0%nat, 1%nat))) as Hpos.
      rewrite Hzero in Hup.
      assert (0 < 2 ^ 28) by lia.
      enough (evaluate_five (five_without [c0; c1; c2; c3; c4; c5; c6] (0%nat, 1%nat)) <= 0)
        by lia.
      apply Hup. apply in_map. cbv. tauto.
    + exists five. split; [|done]. by apply five_without_combinations.
  - reflexivity.
Qed.

Lemma evaluate_seven_is_max_of_subsets_witness :
  (forall five, length five = 5%nat -> five ⊆+ [0; 5; 10; 15; 20; 48; 51] ->
                evaluate_five five <= evaluate_seven [0; 5; 10; 15; 20; 48; 51])
  /\ (exists five, In five (combinations 5 [0; 5; 10; 15; 20; 48; 51])
                   /\ evaluate_five five = evaluate_seven [0; 5; 10; 15; 20; 48; 51])
  /\ length (combinations 5 [0; 5; 10; 15; 20; 48; 51]) = 21%nat.
Proof.
  apply (evaluate_seven_is_max_of_subsets [0; 5; 10; 15; 20; 48; 51]).
  - reflexivity.
  - repeat constructor; lia.
  - compute_done.
Defined.

(** ** The wheel *)

Lemma card_rank_make_card r s :
  0 <= r <= 12 -> 0 <= s < 4 -> card_rank (make_card r s) = r.
Proof.
  intros Hr Hs. unfold card_rank, make_card, u8.
  rewrite Z.mod_small by lia.
  rewrite Z.quot_div_nonneg by lia.
  symmetry. apply Z.div_unique with s; lia.
Qed.

Lemma card_suit_make_card r s :
  0 <= r <= 12 -> 0 <= s < 4 -> card_suit (make_card r s) = s.
Proof.
  intros Hr Hs. unfold card_suit, make_card, u8.
  rewrite Z.mod_small by lia.
  rewrite Z.rem_mod_nonneg by lia.
  symmetry. apply Z.mod_unique with r; lia.
Qed.

Lemma evaluate_five_unfold a b c d e :
  evaluate_five [a; b; c; d; e]
  = classify (sort_desc (map card_rank [a; b; c; d; e]))
             (all_same_suit (map card_suit [a; b; c; d; e])).
Proof. reflexivity. Qed.

Lemma evaluate_five_of_ranks r0 r1 r2 r3 r4 s0 s1 s2 s3 s4 :
  Forall (fun r => 0 <= r <= 12) [r0; r1; r2; r3; r4] ->
  Forall (fun s => 0 <= s < 4) [s0; s1; s2; s3; s4] ->
  evaluate_five [make_card r0 s0; make_card r1 s1; make_card r2 s2;
                 make_card r3 s3; make_card r4 s4]
  = classify (sort_desc [r0; r1; r2; r3; r4]) (all_same_suit [s0; s1; s2; s3; s4]).
Proof.
  rewrite !Forall_cons, !Forall_nil. intros Hr Hs.
  rewrite evaluate_five_unfold. cbn [map].
  rewrite !card_rank_make_card, !card_suit_make_card by tauto.
  reflexivity.
Qed.

(** C7.  The wheel A-2-3-4-5, not all of one suit and in any order, is
    classified as a straight whose first tiebreaker is the rank of the 5
    (rank index 3), and ranks strictly below 2-3-4-5-6 whatever the suits of
    the latter. *)
Theorem wheel_is_five_high_straight
    (s0 s1 s2 s3 s4 t0 t1 t2 t3 t4 : Z) (wheel six : list Z) :
  Forall (fun s => 0 <= s < 4) [s0; s1; s2; s3; s4] ->
  Forall (fun s => 0 <= s < 4) [t0; t1; t2; t3; t4] ->
  ~ (s0 = s1 /\ s1 = s2 /\ s2 = s3 /\ s3 = s4) ->
  wheel ≡ₚ [make_card 12 s0; make_card 0 s1; make_card 1 s2;
            make_card 2 s3; make_card 3 s4] ->
  six ≡ₚ [make_card 0 t0; make_card 1 t1; make_card 2 t2;
          make_card 3 t3; make_card 4 t4] ->
  get_rank_type (evaluate_five wheel) = RANK_STRAIGHT
  /\ first_tiebreak (evaluate_five wheel) = card_rank (make_card 3 s4)
  /\ evaluate_five wheel = make_hand_rank RANK_STRAIGHT 3 0 0 0 0
  /\ evaluate_five wheel < evaluate_five six.
Proof.
  intros Hs Ht Hmixed Hwheel Hsix.
  assert (length wheel = 5%nat) as Hlw by (by rewrite Hwheel).
  assert (length six = 5%nat) as Hls by (by rewrite Hsix).
  rewrite (evaluate_five_permutation_invariant _ _ Hlw Hwheel).
  rewrite (evaluate_five_permutation_invariant _ _ Hls Hsix).
  rewrite !evaluate_five_of_ranks by (done || (repeat constructor; lia)).
  assert (all_same_suit [s0; s1; s2; s3; s4] = false) as ->.
  { apply not_true_is_false. intros Hall. apply Hmixed.
    unfold all_same_suit, at_ in Hall; simpl in Hall.
    rewrite !andb_true_iff, !Z.eqb_eq in Hall. tauto. }
  rewrite card_rank_make_card
    by (lia || (rewrite !Forall_cons in Hs; tauto)).
  destruct (all_same_suit [t0; t1; t2; t3; t4]); vm_compute; intuition congruence.
Qed.

Lemma wheel_is_five_high_straight_witness :
  get_rank_type (evaluate_five [13; 50; 2; 7; 8]) = RANK_STRAIGHT
  /\ first_tiebreak (evaluate_five [13; 50; 2; 7; 8]) = card_rank (make_card 3 1)
  /\ evaluate_five [13; 50; 2; 7; 8] = make_hand_rank RANK_STRAIGHT 3 0 0 0 0
  /\ evaluate_five [13; 50; 2; 7; 8] < evaluate_five [19; 1; 4; 12; 8].
Proof.
  apply (wheel_is_five_high_straight 2 2 3 0 1 1 0 0 0 3).
  - repeat constructor; lia.
  - repeat constructor; lia.
  - lia.
  - compute_done.
  - compute_done.
Defined.

(** ** Too few cards *)

(** C9.  With fewer than three board cards (fewer than five cards in all),
    [evaluate] returns the rank 0: its category is 0 and it lies below the
    rank [evaluate_five] gives to any five cards. *)
Theorem evaluate_too_few_cards (hole board : list Z) (board_size : Z) :
  board_size < 3 ->
  evaluate hole board board_size = 0
  /\ get_rank_type (evaluate hole board board_size) = 0
  /\ forall cards, evaluate hole board board_size < evaluate_five cards.
Proof.
  intros Hsize.
  assert (evaluate hole board board_size = 0) as ->.
  { unfold evaluate. destruct (Z.ltb_spec (2 + board_size) 5); [done|lia]. }
  split; [done|]. split; [done|].
  intros cards. pose proof (evaluate_five_positive cards).
  assert (0 < 2 ^ 28) by lia. lia.
Qed.

Lemma evaluate_too_few_cards_witness :
  evaluate [48; 49] [0; 5; 255; 255; 255] 2 = 0
  /\ get_rank_type (evaluate [48; 49] [0; 5; 255; 255; 255] 2) = 0
  /\ forall cards, evaluate [48; 49] [0; 5; 255; 255; 255] 2 < evaluate_five cards.
Proof. apply (evaluate_too_few_cards [48; 49] [0; 5; 255; 255; 255] 2). lia. Defined.

(** ** The arena: indexed access *)

(** The claim of C4 read on the code: an indexed access beyond the logical
    end would have to fail.  It does not: with one element stored in a
    buffer of capacity 4, [buf[2]] returns slot 2 without a diagnostic and
    moves the logical end to 3, the const accessor returns slot 2 as well,
    and [buf[9]], beyond the capacity, prints its line and returns slot 0. *)
Lemma index_beyond_end_yields_a_value :
  let buf := MmapBuffer.Build "tmp/child_ids.bin" [7] 1 4 in
  MmapBuffer.size buf <= 2
  /\ MmapBuffer.read 2 buf = Ok (0, MmapBuffer.with_count buf 3, [])
  /\ MmapBuffer.index_const 2 buf = Ok (2, buf, [])
  /\ MmapBuffer.read 9 buf = Ok (7, buf, [FatalOutOfBounds 9 4]).
Proof. vm_compute. repeat split; congruence. Qed.

(** C4, as the code has it.  The bound an indexed access checks is the
    capacity, not the logical end, and no indexed access throws.  At an
    index at or beyond the logical end and below the capacity the access is
    no error and prints nothing: the reference designates that slot, and the
    mutable accessor moves the logical end to [index + 1].  At or beyond the
    capacity the access prints the out-of-bounds line, the reference
    designates slot 0, and the buffer is left as it was.  [push_back] throws
    exactly when the logical end has reached the capacity. *)
Theorem index_beyond_logical_end {T} `{Zeroed T} (buf : MmapBuffer.t T) (i : Z)
    (v : T) :
  MmapBuffer.size buf <= i ->
  (i < MmapBuffer.max_elements_ buf ->
     MmapBuffer.index i buf = Ok (i, MmapBuffer.with_count buf (i + 1), [])
     /\ MmapBuffer.index_const i buf = Ok (i, buf, [])
     /\ MmapBuffer.read i buf
        = Ok (MmapBuffer.data_at buf i, MmapBuffer.with_count buf (i + 1), []))
  /\ (MmapBuffer.max_elements_ buf <= i ->
     MmapBuffer.index i buf
     = Ok (0, buf, [FatalOutOfBounds i (MmapBuffer.max_elements_ buf)])
     /\ MmapBuffer.index_const i buf
        = Ok (0, buf, [FatalConstOutOfBounds i (MmapBuffer.max_elements_ buf)])
     /\ MmapBuffer.read i buf
        = Ok (MmapBuffer.data_at buf 0, buf,
              [FatalOutOfBounds i (MmapBuffer.max_elements_ buf)])
     /\ printed (MmapBuffer.index i buf)
        = [FatalOutOfBounds i (MmapBuffer.max_elements_ buf)]
     /\ printed (MmapBuffer.index_const i buf)
        = [FatalConstOutOfBounds i (MmapBuffer.max_elements_ buf)])
  /\ (forall j w, MmapBuffer.index j buf <> Throw w
                  /\ MmapBuffer.index_const j buf <> Throw w
                  /\ MmapBuffer.read j buf <> Throw w
                  /\ MmapBuffer.write j v buf <> Throw w)
  /\ (MmapBuffer.max_elements_ buf <= MmapBuffer.size buf ->
      MmapBuffer.push_back v buf = Throw (MmapBuffer.overflow_what buf))
  /\ (MmapBuffer.size buf < MmapBuffer.max_elements_ buf ->
      forall w, MmapBuffer.push_back v buf <> Throw w).
Proof.
  unfold MmapBuffer.size. intros Hend.
  split; [|split; [|split; [|split]]].
  - intros Hcap.
    unfold MmapBuffer.read, MmapBuffer.index, MmapBuffer.index_const, mbind,
      Prog_bind, get, put, mret, Prog_ret, print.
    destruct (Z.leb_spec (MmapBuffer.max_elements_ buf) i); [lia|].
    destruct (Z.leb_spec (MmapBuffer.count_ buf) i); [done|lia].
  - intros Hcap.
    unfold MmapBuffer.read, MmapBuffer.index, MmapBuffer.index_const, mbind,
      Prog_bind, get, put, mret, Prog_ret, print, printed.
    destruct (Z.leb_spec (MmapBuffer.max_elements_ buf) i); [done|lia].
  - intros j w.
    unfold MmapBuffer.read, MmapBuffer.write, MmapBuffer.index,
      MmapBuffer.index_const, mbind, Prog_bind, get, put, mret, Prog_ret, print.
    destruct (MmapBuffer.max_elements_ buf <=? j); [done|].
    by destruct (MmapBuffer.count_ buf <=? j).
  - intros Hfull. unfold MmapBuffer.push_back, mbind, Prog_bind, get, throw.
    by destruct (Z.leb_spec (MmapBuffer.max_elements_ buf) (MmapBuffer.count_ buf));
      [|lia].
  - intros Hroom w. unfold MmapBuffer.push_back, mbind, Prog_bind, get, put.
    by destruct (Z.leb_spec (MmapBuffer.max_elements_ buf) (MmapBuffer.count_ buf));
      [lia|].
Qed.

Lemma index_beyond_logical_end_witness :
  let buf := MmapBuffer.Build "tmp/child_ids.bin" [7] 1 4 in
  let full := MmapBuffer.Build "tmp/child_ids.bin" [7; 8] 2 2 in
  MmapBuffer.index 2 buf = Ok (2, MmapBuffer.with_count buf 3, [])
  /\ MmapBuffer.index_const 2 buf = Ok (2, buf, [])
  /\ MmapBuffer.read 2 buf = Ok (0, MmapBuffer.with_count buf 3, [])
  /\ MmapBuffer.index 9 buf = Ok (0, buf, [FatalOutOfBounds 9 4])
  /\ MmapBuffer.index_const 9 buf = Ok (0, buf, [FatalConstOutOfBounds 9 4])
  /\ MmapBuffer.read 9 buf = Ok (7, buf, [FatalOutOfBounds 9 4])
  /\ MmapBuffer.push_back 9 full
     = Throw "MmapBuffer overflow in file: tmp/child_ids.bin (Limit: 2)".
Proof.
  intros buf full.
  destruct (index_beyond_logical_end buf 2 0 ltac:(simpl; lia))
    as (Hbelow & _).
  destruct (index_beyond_logical_end buf 9 0 ltac:(simpl; lia))
    as (_ & Hbeyond & _).
  destruct (index_beyond_logical_end full 2 9 ltac:(simpl; lia))
    as (_ & _ & _ & Hpush & _).
  destruct (Hbelow ltac:(simpl; lia)) as (Hi & Hc & Hr).
  destruct (Hbeyond ltac:(simpl; lia)) as (Hi9 & Hc9 & Hr9 & _).
  exact (conj Hi (conj Hc (conj Hr (conj Hi9 (conj Hc9 (conj Hr9
           (Hpush ltac:(simpl; lia)))))))).
Defined.

(** ** Node queries *)

Lemma size_t_small z : 0 <= z < 2 ^ 31 -> size_t z = z.
Proof. intros Hz. unfold size_t. apply Z.mod_small. lia. Qed.

(** C10.  For a node id that is negative, or at or beyond the number of
    nodes in the pool, [get_node_data] returns normally with the empty map
    and leaves the engine as it was; it prints one error line. *)
Theorem get_node_data_invalid_id {F} `{FloatOps F}
    (e : CppCFREngine.t F) (node_id : Z) :
  - 2 ^ 31 <= node_id < 2 ^ 31 ->
  node_id < 0 \/ nodes_in_pool e <= node_id ->
  CppCFREngine.get_node_data node_id e = Ok (∅, e, [ErrorInvalidNodeId node_id]).
Proof.
  intros Hint Hbad.
  unfold CppCFREngine.get_node_data, nodes_in_pool in *.
  unfold mbind, Prog_bind, get. cbn beta iota.
  destruct (CppCFREngine.pool_ e) as [p|]; [|reflexivity].
  destruct (Z.ltb_spec node_id 0) as [Hneg|Hpos]; [reflexivity|].
  destruct Hbad as [Hn|Hge]; [lia|].
  rewrite size_t_small by lia.
  cbn [orb].
  destruct (Z.leb_spec (MmapBuffer.size (nodes p)) node_id); [reflexivity|lia].
Qed.

Lemma get_node_data_invalid_id_witness :
  CppCFREngine.get_node_data 4 Sample.engine
  = Ok (∅, Sample.engine, [ErrorInvalidNodeId 4]).
Proof.
  apply (get_node_data_invalid_id Sample.engine 4).
  - lia.
  - right. vm_compute. discriminate.
Defined.

(** ** Running computations *)

Lemma bind_ok_silent {S A B} (c : Prog S A) (k : A -> Prog S B) s a s1 :
  c s = Ok (a, s1, []) -> (c ≫= k) s = k a s1.
Proof.
  intros Hc. unfold mbind, Prog_bind. rewrite Hc.
  destruct (k a s1) as [[[b s2] d2]| | |]; reflexivity.
Qed.

Lemma bind_ok_inv {S A B} (c : Prog S A) (k : A -> Prog S B) s b s2 d :
  (c ≫= k) s = Ok (b, s2, d) ->
  exists a s1 d1 d2,
    c s = Ok (a, s1, d1) /\ k a s1 = Ok (b, s2, d2) /\ d = d1 ++ d2.
Proof.
  unfold mbind, Prog_bind.
  destruct (c s) as [[[a s1] d1]| | |]; try discriminate.
  destruct (k a s1) as [[[b' s2'] d2]| | |] eqn:Hk; try discriminate.
  intros [= <- <- <-]. eauto 10.
Qed.

Lemma vec_at_ok {S A} (v : list A) (i : nat) (x : A) (s : S) :
  v !! i = Some x -> vec_at v (Z.of_nat i) s = Ok (x, s, []).
Proof.
  intros Hx. unfold vec_at.
  destruct (Z.ltb_spec (Z.of_nat i) 0); [lia|].
  rewrite Nat2Z.id, Hx. reflexivity.
Qed.

Lemma vec_at_ok_Z {S A} (v : list A) (i : Z) (x : A) (s : S) :
  0 <= i -> v !! Z.to_nat i = Some x -> vec_at v i s = Ok (x, s, []).
Proof.
  intros Hi Hx. rewrite <- (Z2Nat.id i) by lia. by apply vec_at_ok.
Qed.

(** ** The engine reads its nodes without changing anything *)

Lemma node_at_stored {F} `{FloatOps F} (e : CppCFREngine.t F) i n :
  stored_node e i = Some n -> CppCFREngine.node_at i e = Ok (n, e, []).
Proof.
  unfold stored_node, CppCFREngine.node_at, CppCFREngine.on_pool.
  destruct e as [cfg [p|] root oop ip ib ibm nr ir mi ss orr irr rp]; cbn;
    [|discriminate].
  destruct p as [nodes acts cids ccs]; cbn.
  destruct (Z.leb_spec 0 i); [|discriminate].
  destruct (Z.ltb_spec i (MmapBuffer.count_ nodes)); [|discriminate].
  destruct (Z.ltb_spec i (MmapBuffer.max_elements_ nodes)); [|discriminate].
  destruct (Z.ltb_spec i (2 ^ 31)); [|discriminate].
  cbn. intros [= <-].
  rewrite size_t_small by lia.
  unfold on_nodes, zoom, MmapBuffer.read, MmapBuffer.index, mbind, Prog_bind,
    get, put, mret, Prog_ret, print; cbn.
  destruct (Z.leb_spec (MmapBuffer.max_elements_ nodes) i); [lia|].
  destruct (Z.leb_spec (MmapBuffer.count_ nodes) i); [lia|].
  cbn. destruct nodes; reflexivity.
Qed.

(** ** Regret matching *)

Lemma positive_parts_from {F} `{FloatOps F} (r : list F) (n m : nat)
    (acc : list F) (sum : F) (e : CppCFREngine.t F) :
  (n + m <= length r)%nat ->
  for_each (map Z.of_nat (seq n m))
    (fun a '(strategy, sum) =>
       ra ← vec_at r a;
       let sa := fmax (fint 0) ra in
       mret (strategy ++ [sa], fadd sum sa))
    (acc, sum) e
  = Ok ((acc ++ map (fmax (fint 0)) (take m (drop n r)),
         fold_left fadd (map (fmax (fint 0)) (take m (drop n r))) sum), e, []).
Proof.
  revert n acc sum. induction m as [|m IH]; intros n acc sum Hlen.
  - cbn. rewrite app_nil_r. reflexivity.
  - destruct (lookup_lt_is_Some_2 r n) as [x Hx]; [lia|].
    cbn [seq map for_each].
    erewrite bind_ok_silent.
    2:{ erewrite bind_ok_silent; [|by apply vec_at_ok]. reflexivity. }
    rewrite IH by lia.
    rewrite (drop_S r x n Hx). cbn [take map fold_left].
    rewrite <- app_assoc. reflexivity.
Qed.

Lemma positive_parts_all {F} `{FloatOps F} (r : list F) (k : Z)
    (e : CppCFREngine.t F) :
  length r = Z.to_nat k ->
  CppCFREngine.positive_parts r k e
  = Ok ((map (fmax (fint 0)) r, fold_left fadd (map (fmax (fint 0)) r) (fint 0)),
        e, []).
Proof.
  intros Hlen. unfold CppCFREngine.positive_parts.
  rewrite positive_parts_from by (simpl; lia).
  rewrite drop_0, <- Hlen, firstn_all. reflexivity.
Qed.

(** C6.  At a node with [k] actions whose (node, combo) pair holds the
    cumulative regrets [r], the current strategy gives each action the
    positive part [max(0, r[a])] divided by the sum of the positive parts
    when that sum is positive, and [1/k] otherwise.  For the regrets
    (3, -1, 2) over three actions it is (0.6, 0.0, 0.4): the binary32 values
    nearest to these in the arithmetic of the code, the numbers themselves
    in exact arithmetic. *)
Theorem current_strategy_is_regret_matching {F} `{FloatOps F}
    (e : CppCFREngine.t F) (node_id player combo_idx iteration : Z)
    (node : CppNode F) (r : list F) :
  stored_node e node_id = Some node ->
  stored_regrets e node_id combo_idx = Some r ->
  length r = Z.to_nat (action_count node) ->
  let k := action_count node in
  let positive := map (fmax (fint 0)) r in
  let sum := fold_left fadd positive (fint 0) in
  CppCFREngine.get_current_strategy node_id player combo_idx iteration e
  = Ok (if flt (fint 0) sum then map (fun x => fdiv x sum) positive
        else replicate (Z.to_nat k) (fdiv (fint 1) (fint k)),
        e, [])
  /\ returned (CppCFREngine.get_current_strategy 0 0 0 1
                 (Sample.three_actions (F := spec_float)))
     = Some [F32.lit 6 10; F32.of_Z 0; F32.lit 4 10]
  /\ returned (CppCFREngine.get_current_strategy 0 0 0 1
                 (Sample.three_actions (F := Qc)))
     = Some [Q2Qc (6 # 10); Q2Qc 0; Q2Qc (4 # 10)].
Proof.
  intros Hnode Hreg Hlen k positive sum. split; [|split].
  - unfold CppCFREngine.get_current_strategy.
    rewrite (bind_ok_silent _ _ _ _ _ (node_at_stored _ _ _ Hnode)).
    unfold stored_regrets in Hreg.
    destruct (Z.leb_spec 0 node_id) as [Hpos|]; [|discriminate].
    destruct (Z.ltb_spec (Z.of_nat (length (CppCFREngine.node_regrets_ e))) (2 ^ 31))
      as [Hfit|]; [|discriminate].
    cbn [andb] in Hreg.
    destruct (CppCFREngine.node_regrets_ e !! Z.to_nat node_id) as [nr|] eqn:Hnr;
      [|discriminate].
    cbn in Hreg.
    pose proof (lookup_lt_Some _ _ _ Hnr) as Hlt.
    erewrite bind_ok_silent; [|reflexivity]. cbn beta.
    assert (i32 (Z.of_nat (length (CppCFREngine.node_regrets_ e)))
            = Z.of_nat (length (CppCFREngine.node_regrets_ e))) as ->.
    { unfold i32. rewrite Z.mod_small by lia. lia. }
    destruct (Z.ltb_spec node_id (Z.of_nat (length (CppCFREngine.node_regrets_ e))));
      [|lia].
    erewrite bind_ok_silent.
    2:{ erewrite bind_ok_silent; [|by apply vec_at_ok_Z].
        rewrite Hreg. by apply positive_parts_all. }
    cbn beta iota. fold positive. fold sum.
    destruct (flt (fint 0) sum); reflexivity.
  - vm_compute. reflexivity.
  - vm_compute. apply (f_equal Some).
    repeat (apply (f_equal2 cons); [apply Qc_is_canon; reflexivity|]).
    reflexivity.
Qed.

Lemma current_strategy_is_regret_matching_witness :
  CppCFREngine.get_current_strategy 0 0 0 1 (Sample.three_actions (F := spec_float))
  = Ok ([F32.lit 6 10; F32.of_Z 0; F32.lit 4 10], Sample.three_actions, []).
Proof.
  refine (proj1 (current_strategy_is_regret_matching
                   (Sample.three_actions (F := spec_float)) 0 0 0 1
                   (mkNode 0 (-1) PLAYER 0 RIVER (fint 10) (fint 10, fint 10) (fint 0)
                      0 3 0 0 0 0 Sample.river 5)
                   [fint 3; fint (-1); fint 2] _ _ _)).
  - vm_compute. reflexivity.
  - vm_compute. reflexivity.
  - vm_compute. reflexivity.
Defined.

(** ** Terminal values at a river showdown *)





(** ** Discounting *)

Lemma bind_ok {S A B} (c : Prog S A) (k : A -> Prog S B) s a s1 d1 b s2 d2 :
  c s = Ok (a, s1, d1) -> k a s1 = Ok (b, s2, d2) ->
  (c ≫= k) s = Ok (b, s2, d1 ++ d2).
Proof. intros Hc Hk. unfold mbind, Prog_bind. rewrite Hc, Hk. reflexivity. Qed.

Lemma rem_2_even t : (Z.rem t 2 =? 0) = Z.even t.
Proof.
  pose proof (Z.quot_rem' t 2) as Hqr.
  destruct (Z.eqb_spec (Z.rem t 2) 0) as [Hr|Hr].
  - symmetry. apply Z.even_spec. exists (Z.quot t 2). lia.
  - symmetry. apply not_true_is_false. intros He.
    apply Z.even_spec in He as [k ->].
    apply Hr. rewrite Z.mul_comm. apply Z.rem_mul. lia.
Qed.

(** A positive binary32 value does not pass the test [val < 0]. *)
Lemma positive_not_negative (val : spec_float) :
  F32.ltb (F32.of_Z 0) val = true -> F32.ltb val (F32.of_Z 0) = false.
Proof. destruct val as [[]|[]| |[] m e]; cbn; congruence. Qed.

Lemma discount_regret_positive (d val : spec_float) :
  F32.ltb (F32.of_Z 0) val = true ->
  CppCFREngine.discount_regret d val = F32.mul val d.
Proof.
  intros Hsign. unfold CppCFREngine.discount_regret.
  change (flt val (fint 0)) with (F32.ltb val (F32.of_Z 0)).
  rewrite (positive_not_negative val Hsign). reflexivity.
Qed.

Lemma discount_regret_negative (d val : spec_float) :
  F32.ltb val (F32.of_Z 0) = true ->
  CppCFREngine.discount_regret d val = F32.mul val (F32.lit 1 2).
Proof.
  intros Hsign. unfold CppCFREngine.discount_regret.
  change (flt val (fint 0)) with (F32.ltb val (F32.of_Z 0)).
  rewrite Hsign. reflexivity.
Qed.

(** ** The passes of [solve] *)

Section SolveLoop.
Context {F : Type} `{FloatOps F}.
Variable fpow : F -> F -> F.
Variable run_iteration : Z -> Prog (CppCFREngine.t F) unit.
Hypothesis run_keeps_flag :
  forall t e e' d, run_iteration t e = Ok (tt, e', d) ->
                   CppCFREngine.should_stop_ e' = CppCFREngine.should_stop_ e.

Lemma run_and_discount_keeps_flag t e e' d :
  CppCFREngine.run_and_discount fpow run_iteration t e = Ok (tt, e', d) ->
  CppCFREngine.should_stop_ e' = CppCFREngine.should_stop_ e.
Proof.
  unfold CppCFREngine.run_and_discount. intros Hrun.
  apply bind_ok_inv in Hrun as ([] & e1 & d1 & d2 & Hit & Hdisc & ->).
  apply run_keeps_flag in Hit. rewrite <- Hit.
  destruct (Z.rem t 2 =? 0).
  - unfold CppCFREngine.apply_discount, mbind, Prog_bind, get, put in Hdisc.
    injection Hdisc as <- <-. reflexivity.
  - by injection Hdisc as <- <-.
Qed.

Lemma solve_loop_unrolled (m : nat) :
  forall (t iterations : Z) (e : CppCFREngine.t F),
  CppCFREngine.should_stop_ e = false ->
  t + Z.of_nat m = iterations + 1 ->
  CppCFREngine.solve_loop fpow run_iteration None m t iterations e
  = for_each (map (fun i => t + Z.of_nat i) (seq 0 m))
      (fun t _ => CppCFREngine.run_and_discount fpow run_iteration t) tt e.
Proof.
  induction m as [|m IH]; intros t iterations e Hflag Hlast; [reflexivity|].
  cbn [CppCFREngine.solve_loop seq map for_each].
  unfold mbind at 1. unfold Prog_bind at 1. unfold get at 1.
  rewrite Hflag. destruct (Z.leb_spec t iterations); [|lia]. cbn [andb negb].
  unfold CppCFREngine.solve_iteration.
  replace (t + Z.of_nat 0) with t by lia.
  unfold mbind, Prog_bind.
  destruct (CppCFREngine.run_and_discount fpow run_iteration t e)
    as [[[[] e1] d1]| | |] eqn:Hrun; try reflexivity.
  cbn [mret Prog_ret]. rewrite app_nil_r.
  pose proof (run_and_discount_keeps_flag _ _ _ _ Hrun) as Hflag1.
  rewrite (IH (t + 1) iterations e1) by (congruence || lia).
  assert (map (fun i => t + Z.of_nat i) (seq 1 m)
          = map (fun i => t + 1 + Z.of_nat i) (seq 0 m)) as ->.
  { rewrite <- seq_shift, map_map. apply map_ext. intros i. lia. }
  destruct (for_each _ _ tt e1) as [[[[] e2] d2]| | |]; reflexivity.
Qed.
End SolveLoop.

Section SolvePasses.
Context {F : Type} `{FloatOps F}.
Variable fpow : F -> F -> F.
Variable run_iteration : Z -> Prog (CppCFREngine.t F) unit.
Variable callback : option (Z -> Z -> Prog (CppCFREngine.t F) unit).
Hypothesis run_keeps_flag :
  forall t e e' d, run_iteration t e = Ok (tt, e', d) ->
                   CppCFREngine.should_stop_ e' = CppCFREngine.should_stop_ e.
Hypothesis callback_keeps_flag :
  forall cb t n e e' d, callback = Some cb -> cb t n e = Ok (tt, e', d) ->
                        CppCFREngine.should_stop_ e' = CppCFREngine.should_stop_ e.

Lemma solve_iteration_keeps_flag t n e e' d :
  CppCFREngine.solve_iteration fpow run_iteration callback t n e = Ok (tt, e', d) ->
  CppCFREngine.should_stop_ e' = CppCFREngine.should_stop_ e.
Proof.
  unfold CppCFREngine.solve_iteration. intros Hrun.
  apply bind_ok_inv in Hrun as ([] & e1 & d1 & d2 & Hpass & Hcb & ->).
  apply (run_and_discount_keeps_flag fpow run_iteration run_keeps_flag) in Hpass.
  rewrite <- Hpass.
  destruct callback as [cb|] eqn:Hsome.
  - destruct (_ || _).
    + by apply (callback_keeps_flag cb t n e1 e' d2).
    + by injection Hcb as <- <-.
  - by injection Hcb as <- <-.
Qed.

Lemma solve_loop_passes (m : nat) :
  forall (t iterations : Z) (e : CppCFREngine.t F),
  CppCFREngine.should_stop_ e = false ->
  t + Z.of_nat m = iterations + 1 ->
  CppCFREngine.solve_loop fpow run_iteration callback m t iterations e
  = for_each (map (fun i => t + Z.of_nat i) (seq 0 m))
      (fun t _ => CppCFREngine.solve_iteration fpow run_iteration callback t
                    iterations) tt e.
Proof.
  induction m as [|m IH]; intros t iterations e Hflag Hlast; [reflexivity|].
  cbn [CppCFREngine.solve_loop seq map for_each].
  unfold mbind at 1. unfold Prog_bind at 1. unfold get at 1.
  rewrite Hflag. destruct (Z.leb_spec t iterations); [|lia]. cbn [andb negb].
  replace (t + Z.of_nat 0) with t by lia.
  unfold mbind, Prog_bind.
  destruct (CppCFREngine.solve_iteration fpow run_iteration callback t iterations e)
    as [[[[] e1] d1]| | |] eqn:Hrun; try reflexivity.
  pose proof (solve_iteration_keeps_flag _ _ _ _ _ Hrun) as Hflag1.
  rewrite (IH (t + 1) iterations e1) by (congruence || lia).
  assert (map (fun i => t + Z.of_nat i) (seq 1 m)
          = map (fun i => t + 1 + Z.of_nat i) (seq 0 m)) as ->.
  { rewrite <- seq_shift, map_map. apply map_ext. intros i. lia. }
  destruct (for_each _ _ tt e1) as [[[[] e2] d2]| | |]; reflexivity.
Qed.

Lemma solve_passes (iterations : Z) (e : CppCFREngine.t F) :
  0 <= iterations ->
  CppCFREngine.solve fpow run_iteration callback iterations e
  = (_ ← CppCFREngine.precompute_river_ranks;
     for_each (map Z.of_nat (seq 1 (Z.to_nat iterations)))
       (fun t _ => CppCFREngine.solve_iteration fpow run_iteration callback t
                     iterations) tt)
      (solve_start iterations e).
Proof.
  intros Hn. unfold CppCFREngine.solve.
  unfold mbind at 1. unfold Prog_bind at 1. unfold get at 1.
  unfold mbind at 1. unfold Prog_bind at 1. unfold put at 1.
  fold (solve_start iterations e).
  assert (exists e1, CppCFREngine.precompute_river_ranks (solve_start iterations e)
                     = Ok (tt, e1, [])
                     /\ CppCFREngine.should_stop_ e1 = false) as (e1 & Hpre & Hflag).
  { unfold CppCFREngine.precompute_river_ranks, mbind, Prog_bind, get, put.
    destruct (_ || _); eexists; split; reflexivity. }
  unfold mbind, Prog_bind. rewrite Hpre.
  rewrite (solve_loop_passes (Z.to_nat iterations) 1 iterations e1 Hflag) by lia.
  assert (map (fun i => 1 + Z.of_nat i) (seq 0 (Z.to_nat iterations))
          = map Z.of_nat (seq 1 (Z.to_nat iterations))) as ->.
  { rewrite <- seq_shift, map_map. apply map_ext. intros i. lia. }
  destruct (for_each _ _ tt e1) as [[[[] e2] d2]| | |]; reflexivity.
Qed.
End SolvePasses.

(** C5.  [solve] runs the iterations 1, 2, ..., [iterations] in this order,
    and after iteration [t] the discount is applied exactly when [t] is
    even.  Applied with iteration number [t] it multiplies every positive
    cumulative regret by [pow(t, alpha) / (pow(t, alpha) + 1)], every
    negative one by 0.5, and every cumulative-strategy entry by
    [pow(t, gamma) / (pow(t, gamma) + 1)]; [alpha] is 1.5 and [gamma] is 2.0
    in the default configuration.  ([t = 2] gives the factors after
    iteration 2.)  The loop of [solve] is taken with iterations and a
    progress callback that leave the stop flag alone. *)
Theorem discount_every_second_iteration
    (fpow : spec_float -> spec_float -> spec_float)
    (run_iteration : Z -> Prog (CppCFREngine.t spec_float) unit)
    (t : Z) (e e1 : CppCFREngine.t spec_float) (printed1 : list Diag)
    (i : nat) (nr : NodeRegrets spec_float) (combo : Z) (r c : list spec_float) :
  run_iteration t e = Ok (tt, e1, printed1) ->
  CppCFREngine.node_regrets_ e1 !! i = Some nr ->
  regrets nr !! combo = Some r ->
  cumulative_strategy nr !! combo = Some c ->
  let cfg := CppCFREngine.config_ e1 in
  let d := F32.div (fpow (F32.of_Z t) (alpha cfg))
                   (F32.add (fpow (F32.of_Z t) (alpha cfg)) (F32.of_Z 1)) in
  let dc := F32.div (fpow (F32.of_Z t) (gamma cfg))
                    (F32.add (fpow (F32.of_Z t) (gamma cfg)) (F32.of_Z 1)) in
  (exists e2,
    CppCFREngine.run_and_discount fpow run_iteration t e = Ok (tt, e2, printed1)
    /\ (Z.even t = false -> e2 = e1)
    /\ (Z.even t = true ->
        exists nr' r' c',
          CppCFREngine.node_regrets_ e2 !! i = Some nr'
          /\ regrets nr' !! combo = Some r'
          /\ cumulative_strategy nr' !! combo = Some c'
          /\ (forall a val, r !! a = Some val ->
                (F32.ltb (F32.of_Z 0) val = true ->
                   r' !! a = Some (F32.mul val d))
                /\ (F32.ltb val (F32.of_Z 0) = true ->
                   r' !! a = Some (F32.mul val (F32.lit 1 2))))
          /\ (forall a val, c !! a = Some val ->
                c' !! a = Some (F32.mul val dc)))
    /\ alpha (default_config (F := spec_float)) = F32.lit 15 10
    /\ gamma (default_config (F := spec_float)) = F32.of_Z 2)
  /\ forall (callback : option (Z -> Z -> Prog (CppCFREngine.t spec_float) unit))
            (iterations : Z) (e0 : CppCFREngine.t spec_float),
       (forall k s s' out, run_iteration k s = Ok (tt, s', out) ->
          CppCFREngine.should_stop_ s' = CppCFREngine.should_stop_ s) ->
       (forall cb k n s s' out,
          callback = Some cb -> cb k n s = Ok (tt, s', out) ->
          CppCFREngine.should_stop_ s' = CppCFREngine.should_stop_ s) ->
       0 <= iterations ->
       CppCFREngine.solve fpow run_iteration callback iterations e0
       = (_ ← CppCFREngine.precompute_river_ranks;
          for_each (map Z.of_nat (seq 1 (Z.to_nat iterations)))
            (fun k _ =>
               _ ← CppCFREngine.run_and_discount fpow run_iteration k;
               match callback with
               | Some cb =>
                   if (Z.rem k 10 =? 0) || (k =? iterations) then cb k iterations
                   else mret tt
               | None => mret tt
               end) tt)
           (solve_start iterations e0).
Proof.
  intros Hrun Hnr Hr Hc cfg d dc. split.
  2:{ intros callback iterations e0 Hkeep Hcb Hn.
      exact (solve_passes fpow run_iteration callback Hkeep Hcb iterations e0 Hn). }
  unfold CppCFREngine.run_and_discount. rewrite rem_2_even.
  destruct (Z.even t) eqn:Heven.
  - exists (CppCFREngine.set_regrets
              (CppCFREngine.discount_entry d dc <$> CppCFREngine.node_regrets_ e1) e1).
    split; [|split; [discriminate|split; [|done]]].
    + rewrite <- (app_nil_r printed1).
      eapply bind_ok; [exact Hrun|]. reflexivity.
    + intros _.
      exists (CppCFREngine.discount_entry d dc nr),
             (CppCFREngine.discount_regret d <$> r),
             ((fun val => F32.mul val dc) <$> c).
      split; [|split; [|split; [|split]]].
      * destruct e1; cbn in *. rewrite list_lookup_fmap, Hnr. reflexivity.
      * cbn. rewrite lookup_fmap, Hr. reflexivity.
      * cbn. rewrite lookup_fmap, Hc. reflexivity.
      * intros a val Ha. rewrite list_lookup_fmap, Ha.
        split; intros Hsign; cbn [fmap option_fmap option_map]; f_equal.
        -- by apply discount_regret_positive.
        -- by apply discount_regret_negative.
      * intros a val Ha. rewrite list_lookup_fmap, Ha. reflexivity.
  - exists e1. split; [|split; [done|split; [discriminate|done]]].
    rewrite <- (app_nil_r printed1).
    eapply bind_ok; [exact Hrun|]. reflexivity.
Qed.

Lemma discount_every_second_iteration_witness :
  (exists e2,
    CppCFREngine.run_and_discount Sample.pow Sample.idle_iteration 2
      Sample.three_actions = Ok (tt, e2, [])
    /\ exists nr' r' c',
         CppCFREngine.node_regrets_ e2 !! 0%nat = Some nr'
         /\ regrets nr' !! 0 = Some r'
         /\ cumulative_strategy nr' !! 0 = Some c'
         /\ r' !! 0%nat
            = Some (F32.mul (F32.of_Z 3)
                      (F32.div (Sample.pow (F32.of_Z 2) (F32.lit 15 10))
                         (F32.add (Sample.pow (F32.of_Z 2) (F32.lit 15 10))
                            (F32.of_Z 1))))
         /\ r' !! 1%nat = Some (F32.mul (F32.of_Z (-1)) (F32.lit 1 2))
         /\ c' !! 0%nat
            = Some (F32.mul (F32.of_Z 1)
                      (F32.div (Sample.pow (F32.of_Z 2) (F32.of_Z 2))
                         (F32.add (Sample.pow (F32.of_Z 2) (F32.of_Z 2))
                            (F32.of_Z 1)))))
  /\ CppCFREngine.solve Sample.pow Sample.idle_iteration None 4 Sample.three_actions
     = (_ ← CppCFREngine.precompute_river_ranks;
        for_each [1; 2; 3; 4]
          (fun t _ =>
             _ ← CppCFREngine.run_and_discount Sample.pow Sample.idle_iteration t;
             mret tt) tt)
         (solve_start 4 Sample.three_actions).
Proof.
  destruct (discount_every_second_iteration Sample.pow Sample.idle_iteration 2
              Sample.three_actions Sample.three_actions [] 0%nat
              (mkRegrets {[ 0 := [fint 3; fint (-1); fint 2] ]}
                         {[ 0 := [fint 1; fint 1; fint 1] ]})
              0 [fint 3; fint (-1); fint 2] [fint 1; fint 1; fint 1]
              eq_refl eq_refl eq_refl eq_refl)
    as ((e2 & Hrun & _ & Heven & _) & Hsolve).
  split.
  - exists e2. split; [exact Hrun|].
    destruct (Heven eq_refl) as (nr' & r' & c' & Hnr & Hr & Hc & Hreg & Hcum).
    exists nr', r', c'. split; [exact Hnr|]. split; [exact Hr|]. split; [exact Hc|].
    split; [|split].
    + exact (proj1 (Hreg 0%nat (F32.of_Z 3) eq_refl) eq_refl).
    + exact (proj2 (Hreg 1%nat (F32.of_Z (-1)) eq_refl) eq_refl).
    + exact (Hcum 0%nat (F32.of_Z 1) eq_refl).
  - refine (Hsolve None 4 Sample.three_actions _ _ _).
    + intros t e e' d Hrun'. by injection Hrun' as <- <-.
    + intros cb t n e e' d Hcb. discriminate Hcb.
    + lia.
Defined.

(** ** The arena: appending *)

Lemma push_back_appends {T} `{Zeroed T} (buf buf' : MmapBuffer.t T) v d :
  buffer_wf buf ->
  MmapBuffer.push_back v buf = Ok (tt, buf', d) ->
  MmapBuffer.slots buf' = MmapBuffer.slots buf ++ [v]
  /\ buffer_wf buf' /\ d = []
  /\ MmapBuffer.max_elements_ buf' = MmapBuffer.max_elements_ buf.
Proof.
  intros (Hcount & Hcap & Hint).
  unfold MmapBuffer.push_back, mbind, Prog_bind, get, put, throw.
  destruct (Z.leb_spec (MmapBuffer.max_elements_ buf) (MmapBuffer.count_ buf));
    [discriminate|].
  intros [= <- <-].
  assert (MmapBuffer.slots (MmapBuffer.data_set buf (MmapBuffer.count_ buf) v)
          = MmapBuffer.slots buf ++ [v]) as Hslots.
  { unfold MmapBuffer.data_set; cbn. rewrite Hcount, Nat2Z.id.
    replace (S (length (MmapBuffer.slots buf)) - length (MmapBuffer.slots buf))%nat
      with 1%nat by lia.
    cbn. rewrite insert_app_r_alt by lia. by rewrite Nat.sub_diag. }
  split; [exact Hslots|]. split; [|done].
  unfold buffer_wf. cbn [MmapBuffer.with_count MmapBuffer.count_
    MmapBuffer.slots MmapBuffer.max_elements_].
  rewrite Hslots, length_app. cbn. lia.
Qed.

Lemma push_all_appends {T} `{Zeroed T} (l : list T) (buf buf' : MmapBuffer.t T) d :
  buffer_wf buf ->
  for_each l (fun v _ => MmapBuffer.push_back v) tt buf = Ok (tt, buf', d) ->
  MmapBuffer.slots buf' = MmapBuffer.slots buf ++ l
  /\ buffer_wf buf' /\ d = []
  /\ MmapBuffer.max_elements_ buf' = MmapBuffer.max_elements_ buf.
Proof.
  revert buf d. induction l as [|v l IH]; intros buf d Hwf; cbn [for_each].
  - intros [= <- <-]. by rewrite app_nil_r.
  - intros Hrun. apply bind_ok_inv in Hrun as ([] & buf1 & d1 & d2 & Hpush & Hrest & ->).
    destruct (push_back_appends _ _ _ _ Hwf Hpush) as (Hs1 & Hwf1 & -> & Hm1).
    destruct (IH _ _ Hwf1 Hrest) as (Hs2 & Hwf2 & -> & Hm2).
    rewrite Hs2, Hs1, <- app_assoc. split; [done|]. split; [done|].
    split; [done|congruence].
Qed.

(** ** Writing a node *)

Lemma zoom_inv {S T A} (proj : S -> T) (upd : T -> S -> S) (c : Prog T A) s a s' d :
  zoom proj upd c s = Ok (a, s', d) ->
  exists t', c (proj s) = Ok (a, t', d) /\ s' = upd t' s.
Proof.
  unfold zoom. destruct (c (proj s)) as [[[a' t'] d']| | |]; try discriminate.
  intros [= <- <- <-]. eauto.
Qed.

Lemma i32_small z : 0 <= z < 2 ^ 31 -> i32 z = z.
Proof. intros Hz. unfold i32. rewrite Z.mod_small by lia. lia. Qed.

Lemma u32_small z : 0 <= z < 2 ^ 31 -> u32 z = z.
Proof. intros Hz. unfold u32. apply Z.mod_small. lia. Qed.

Lemma buffer_wf_count_range {T} (buf : MmapBuffer.t T) :
  buffer_wf buf -> 0 <= MmapBuffer.count_ buf < 2 ^ 31.
Proof. intros (Hc & Hcap & Hint). lia. Qed.

(** What [write_node_to_pool] leaves in a well-formed pool: the actions and
    the child ids appended to their arenas, then the node, whose [to_call]
    is [max(0, to_call)], appended under the id that is returned. *)
Lemma write_node_to_pool_spec (stale : CppNode spec_float) (key : string)
    (player street : Z) (pot oop_stack ip_stack to_call : spec_float)
    (la : list (Action spec_float)) (lc : list Z) (board : list Z)
    (s s' : GameTreeBuilder.t) (id : Z) (d : list Diag) :
  pool_wf (GameTreeBuilder.pool_ s) ->
  GameTreeBuilder.write_node_to_pool stale key player street pot oop_stack ip_stack
    to_call la lc board s = Ok (id, s', d) ->
  let p := GameTreeBuilder.pool_ s in
  let p' := GameTreeBuilder.pool_ s' in
  let node :=
    mkNode id (-1) (match la with [] => TERMINAL | _ => PLAYER end)
      (i8 player) (u8 street) pot (oop_stack, ip_stack)
      (F32.max GameTreeBuilder.f0 to_call)
      (MmapBuffer.count_ (actions p)) (u8 (Z.of_nat (length la)))
      (MmapBuffer.count_ (child_ids p)) 0 0 0
      (GameTreeBuilder.store_board (CfrTypes.board stale) board)
      (u8 (Z.of_nat (length board))) in
  id = MmapBuffer.count_ (nodes p)
  /\ MmapBuffer.slots (nodes p') = MmapBuffer.slots (nodes p) ++ [node]
  /\ MmapBuffer.slots (actions p') = MmapBuffer.slots (actions p) ++ la
  /\ MmapBuffer.slots (child_ids p') = MmapBuffer.slots (child_ids p) ++ lc
  /\ chance_cards p' = chance_cards p
  /\ pool_wf p'
  /\ GameTreeBuilder.config_ s' = GameTreeBuilder.config_ s
  /\ GameTreeBuilder.transposition_table_ s'
     = <[key := id]> (GameTreeBuilder.transposition_table_ s)
  /\ d = [].
Proof.
  intros (Hwn & Hwa & Hwc & Hwcc) Hrun.
  unfold GameTreeBuilder.write_node_to_pool in Hrun.
  apply bind_ok_inv in Hrun as (s0 & s0' & d0 & d0' & Hget & Hrun & ->).
  injection Hget as <- <- <-.
  apply bind_ok_inv in Hrun as ([] & s1 & d1 & d1' & Hacts & Hrun & ->).
  apply zoom_inv in Hacts as (p1 & Hacts & ->).
  apply zoom_inv in Hacts as (ba & Hacts & ->).
  destruct (push_all_appends _ _ _ _ Hwa Hacts) as (Hsa & Hwa' & -> & _).
  apply bind_ok_inv in Hrun as ([] & s2 & d2 & d2' & Hcids & Hrun & ->).
  apply zoom_inv in Hcids as (p2 & Hcids & ->).
  apply zoom_inv in Hcids as (bc & Hcids & ->).
  cbn in Hcids.
  destruct (push_all_appends _ _ _ _ Hwc Hcids) as (Hsc & Hwc' & -> & _).
  apply bind_ok_inv in Hrun as ([] & s3 & d3 & d3' & Hnode & Hrun & ->).
  apply zoom_inv in Hnode as (p3 & Hnode & ->).
  apply zoom_inv in Hnode as (bn & Hnode & ->).
  cbn in Hnode.
  destruct (push_back_appends _ _ _ _ Hwn Hnode) as (Hsn & Hwn' & -> & _).
  apply bind_ok_inv in Hrun as ([] & s4 & d4 & d4' & Htab & Hrun & ->).
  injection Htab as <- <-. injection Hrun as <- <- <-.
  pose proof (buffer_wf_count_range _ Hwn) as Hrn.
  pose proof (buffer_wf_count_range _ Hwa) as Hra.
  pose proof (buffer_wf_count_range _ Hwc) as Hrc.
  unfold MmapBuffer.size in *.
  rewrite (i32_small _ Hrn), (u32_small _ Hra), (u32_small _ Hrc) in *.
  cbn. unfold pool_wf. cbn. intuition.
Qed.

(** ** The builder keeps its pool well formed *)

Lemma preserves_ret {S A} (P : S -> Prop) (a : A) : preserves P (mret a).
Proof. intros s a' s' d HP [= <- <- <-]. exact HP. Qed.

Lemma preserves_get {S} (P : S -> Prop) : preserves P get.
Proof. intros s a' s' d HP [= <- <- <-]. exact HP. Qed.

Lemma preserves_bind {S A B} (P : S -> Prop) (c : Prog S A) (k : A -> Prog S B) :
  preserves P c -> (forall a, preserves P (k a)) -> preserves P (c ≫= k).
Proof.
  intros Hc Hk s b s' d HP Hrun.
  apply bind_ok_inv in Hrun as (a & s1 & d1 & d2 & Hc' & Hk' & ->).
  eapply Hk; [|exact Hk']. eapply Hc; [exact HP|exact Hc'].
Qed.

Lemma preserves_for_each {S A L} (P : S -> Prop) (l : list A)
    (body : A -> L -> Prog S L) (acc : L) :
  (forall x acc, preserves P (body x acc)) -> preserves P (for_each l body acc).
Proof.
  intros Hbody. revert acc. induction l as [|x l IH]; intros acc; cbn [for_each].
  - apply preserves_ret.
  - apply preserves_bind; [apply Hbody|intros acc'; apply IH].
Qed.

Lemma preserves_push_actions (l : list (Action spec_float)) :
  preserves builder_wf
    (GameTreeBuilder.on_pool
       (on_actions (for_each l (fun a _ => MmapBuffer.push_back a) tt))).
Proof.
  intros s a s' d (Hn & Ha & Hc & Hcc) Hrun.
  apply zoom_inv in Hrun as (p1 & Hrun & ->).
  apply zoom_inv in Hrun as (buf & Hrun & ->).
  destruct a. destruct (push_all_appends _ _ _ _ Ha Hrun) as (_ & Hwf & _).
  unfold builder_wf, pool_wf. cbn. tauto.
Qed.

Lemma preserves_push_child_ids (l : list Z) :
  preserves builder_wf
    (GameTreeBuilder.on_pool
       (on_child_ids (for_each l (fun a _ => MmapBuffer.push_back a) tt))).
Proof.
  intros s a s' d (Hn & Ha & Hc & Hcc) Hrun.
  apply zoom_inv in Hrun as (p1 & Hrun & ->).
  apply zoom_inv in Hrun as (buf & Hrun & ->).
  destruct a. destruct (push_all_appends _ _ _ _ Hc Hrun) as (_ & Hwf & _).
  unfold builder_wf, pool_wf. cbn. tauto.
Qed.

Lemma preserves_push_chance_cards (l : list Z) :
  preserves builder_wf
    (GameTreeBuilder.on_pool
       (on_chance_cards (for_each l (fun a _ => MmapBuffer.push_back a) tt))).
Proof.
  intros s a s' d (Hn & Ha & Hc & Hcc) Hrun.
  apply zoom_inv in Hrun as (p1 & Hrun & ->).
  apply zoom_inv in Hrun as (buf & Hrun & ->).
  destruct a. destruct (push_all_appends _ _ _ _ Hcc Hrun) as (_ & Hwf & _).
  unfold builder_wf, pool_wf. cbn. tauto.
Qed.

Lemma preserves_push_node (n : CppNode spec_float) :
  preserves builder_wf
    (GameTreeBuilder.on_pool (on_nodes (MmapBuffer.push_back n))).
Proof.
  intros s a s' d (Hn & Ha & Hc & Hcc) Hrun.
  apply zoom_inv in Hrun as (p1 & Hrun & ->).
  apply zoom_inv in Hrun as (buf & Hrun & ->).
  destruct a. destruct (push_back_appends _ _ _ _ Hn Hrun) as (_ & Hwf & _).
  unfold builder_wf, pool_wf. cbn. tauto.
Qed.

Lemma preserves_write_node (stale : CppNode spec_float) key player street
    pot oop_stack ip_stack to_call la lc board :
  preserves builder_wf
    (GameTreeBuilder.write_node_to_pool stale key player street pot oop_stack
       ip_stack to_call la lc board).
Proof.
  intros s a s' d Hwf Hrun.
  apply (write_node_to_pool_spec _ _ _ _ _ _ _ _ _ _ _ _ _ _ _ Hwf Hrun).
Qed.

(** Decompose a goal [preserves builder_wf c] along the structure of [c]. *)
Ltac preserves_step :=
  first
    [ apply preserves_ret
    | apply preserves_get
    | apply preserves_write_node
    | apply preserves_push_actions
    | apply preserves_push_child_ids
    | apply preserves_push_chance_cards
    | apply preserves_push_node
    | assumption
    | match goal with H : forall _, _ |- _ => apply H end
    | apply preserves_for_each; intros ? ?
    | apply preserves_bind; [|intros ?]
    | match goal with
      | |- preserves _ (if ?c then _ else _) => destruct c
      | |- preserves _ (match ?x with _ => _ end) => destruct x
      | |- preserves _ (let '(_, _) := ?x in _) => destruct x
      end ].

Section BuilderInvariant.
Variable stale : CppNode spec_float.

Lemma preserves_add_chance
    (rec : spec_float -> spec_float -> spec_float -> Z -> Z -> list Z -> Z ->
           spec_float -> spec_float -> bool -> Prog GameTreeBuilder.t Z)
    oop_s ip_s pot next_street board :
  (forall a b c d e f g h i j, preserves builder_wf (rec a b c d e f g h i j)) ->
  preserves builder_wf
    (GameTreeBuilder.add_chance_node_recursive stale rec oop_s ip_s pot
       next_street board).
Proof.
  intros Hrec. unfold GameTreeBuilder.add_chance_node_recursive.
  apply preserves_bind.
  - apply preserves_for_each. intros r [cs ids].
    destruct (GameTreeBuilder.representative _ r); [|apply preserves_ret].
    apply preserves_bind; [apply Hrec|intros child_id; apply preserves_ret].
  - intros [cs ids].
    apply preserves_bind; [apply preserves_get|intros b].
    apply preserves_bind; [apply preserves_push_chance_cards|intros _].
    apply preserves_bind; [apply preserves_push_child_ids|intros _].
    apply preserves_bind; [apply preserves_push_node|intros _].
    apply preserves_ret.
Qed.

Lemma preserves_enumerate_fold oop_stack ip_stack player street board to_call :
  preserves builder_wf
    (GameTreeBuilder.enumerate_fold stale oop_stack ip_stack player street board
       to_call).
Proof. unfold GameTreeBuilder.enumerate_fold. repeat preserves_step. Qed.

Section Steps.
Variable rec : spec_float -> spec_float -> spec_float -> Z -> Z -> list Z -> Z ->
               spec_float -> spec_float -> bool -> Prog GameTreeBuilder.t Z.
Hypothesis Hrec :
  forall a b c d e f g h i j, preserves builder_wf (rec a b c d e f g h i j).

Lemma preserves_enumerate_check_call oop_stack ip_stack pot player street board
    to_call actor_stack la lc :
  preserves builder_wf
    (GameTreeBuilder.enumerate_check_call stale rec oop_stack ip_stack pot player
       street board to_call actor_stack la lc).
Proof.
  pose proof (fun a b c d e => preserves_add_chance rec a b c d e Hrec) as Hch.
  unfold GameTreeBuilder.enumerate_check_call. repeat preserves_step.
Qed.

Lemma preserves_enumerate_size oop_stack ip_stack pot player street board
    raise_count current_bet to_call actor_stack is_bet s local :
  preserves builder_wf
    (GameTreeBuilder.enumerate_size rec oop_stack ip_stack pot player street board
       raise_count current_bet to_call actor_stack is_bet s local).
Proof. unfold GameTreeBuilder.enumerate_size. repeat preserves_step. Qed.

Lemma preserves_enumerate_allin oop_stack ip_stack pot player street board
    raise_count current_bet to_call actor_stack la lc :
  preserves builder_wf
    (GameTreeBuilder.enumerate_allin rec oop_stack ip_stack pot player street board
       raise_count current_bet to_call actor_stack la lc).
Proof. unfold GameTreeBuilder.enumerate_allin. repeat preserves_step. Qed.

Lemma preserves_enumerate_bet_raise cfg oop_stack ip_stack pot player street board
    raise_count current_bet to_call actor_stack la lc :
  preserves builder_wf
    (GameTreeBuilder.enumerate_bet_raise rec cfg oop_stack ip_stack pot player
       street board raise_count current_bet to_call actor_stack la lc).
Proof.
  unfold GameTreeBuilder.enumerate_bet_raise.
  destruct (_ && _); [|apply preserves_ret].
  apply preserves_bind.
  - apply preserves_for_each. intros s local. apply preserves_enumerate_size.
  - intros [la' lc']. apply preserves_enumerate_allin.
Qed.

Lemma preserves_decide_actions key oop_stack ip_stack pot player street board
    raise_count current_bet to_call :
  preserves builder_wf
    (GameTreeBuilder.decide_actions stale rec key oop_stack ip_stack pot player
       street board raise_count current_bet to_call).
Proof.
  unfold GameTreeBuilder.decide_actions.
  apply preserves_bind; [apply preserves_get|intros b].
  apply preserves_bind; [apply preserves_enumerate_fold|intros [la lc]].
  apply preserves_bind; [apply preserves_enumerate_check_call|intros [la1 lc1]].
  apply preserves_bind; [apply preserves_enumerate_bet_raise|intros [la2 lc2]].
  apply preserves_write_node.
Qed.

Lemma preserves_build_recursive_body oop_stack ip_stack pot player street board
    raise_count current_bet actor_invested is_all_in :
  preserves builder_wf
    (GameTreeBuilder.build_recursive_body stale rec oop_stack ip_stack pot player
       street board raise_count current_bet actor_invested is_all_in).
Proof.
  pose proof (fun a b c d e => preserves_add_chance rec a b c d e Hrec) as Hch.
  unfold GameTreeBuilder.build_recursive_body.
  destruct (RIVER <? street); [apply preserves_ret|].
  apply preserves_bind; [apply preserves_get|intros b].
  destruct (_ !! _); [apply preserves_ret|].
  destruct (_ && _).
  - destruct (street =? RIVER); [apply preserves_write_node|].
    apply preserves_bind; [apply Hch|intros id]. apply preserves_write_node.
  - apply preserves_decide_actions.
Qed.
End Steps.

Lemma preserves_build_recursive fuel oop_stack ip_stack pot player street board
    raise_count current_bet actor_invested is_all_in :
  preserves builder_wf
    (GameTreeBuilder.build_recursive stale fuel oop_stack ip_stack pot player street
       board raise_count current_bet actor_invested is_all_in).
Proof.
  revert oop_stack ip_stack pot player street board raise_count current_bet
    actor_invested is_all_in.
  induction fuel as [|fuel IH]; intros; cbn [GameTreeBuilder.build_recursive].
  - intros s a s' d _ Hrun. discriminate.
  - apply preserves_build_recursive_body. exact IH.
Qed.
End BuilderInvariant.

(** ** What each step of the enumeration adds *)

Section Enumeration.
Variable stale : CppNode spec_float.
Variable rec : spec_float -> spec_float -> spec_float -> Z -> Z -> list Z -> Z ->
               spec_float -> spec_float -> bool -> Prog GameTreeBuilder.t Z.





End Enumeration.

(** ** The all-in at a decision state *)



Section DecisionState.
Variable stale : CppNode spec_float.
Variable rec : spec_float -> spec_float -> spec_float -> Z -> Z -> list Z -> Z ->
               spec_float -> spec_float -> bool -> Prog GameTreeBuilder.t Z.
Hypothesis Hrec :
  forall a b c d e f g h i j, preserves builder_wf (rec a b c d e f g h i j).

End DecisionState.

(** The claim of C3 read on the code: on the checks-only river tree no raise
    is allowed ([max_raises = 0]); at the root the actor's stack, 100,
    exceeds [to_call + 1 = 1], and the root offers the check alone. *)
Lemma allin_missing_at_raise_cap :
  (p ← returned (GameTreeBuilder.build_tree Sample.stale Sample.files 8 Sample.river
                   (GameTreeBuilder.create Sample.checks_only));
   root ← pool_node p 0;
   Some (F32.ltb (F32.add (F32.sub GameTreeBuilder.f0 GameTreeBuilder.f0) (F32.of_Z 1))
                 (oop_stack Sample.checks_only),
         type root, to_call root, map a_type (node_actions p root)))
  = Some (true, PLAYER, GameTreeBuilder.f0, [CHECK]).
Proof. vm_compute. reflexivity. Qed.



(** ** Hand ranks as integers *)

Lemma lor_disjoint_add a b n :
  0 <= n -> a mod 2 ^ n = 0 -> 0 <= b < 2 ^ n -> Z.lor a b = a + b.
Proof.
  intros Hn Ha Hb.
  assert (Z.land a b = 0) as Hdisj.
  { rewrite <- (Z.mod_small b (2 ^ n)) by lia.
    rewrite <- Z.land_ones by lia.
    rewrite (Z.land_comm b), Z.land_assoc, Z.land_ones by lia.
    rewrite Ha. apply Z.land_0_l. }
  rewrite <- Z.lxor_lor by exact Hdisj.
  symmetry. apply Z.add_nocarry_lxor. exact Hdisj.
Qed.

Lemma make_hand_rank_sum t a1 a2 a3 a4 a5 :
  0 <= t < 16 ->
  make_hand_rank t a1 a2 a3 a4 a5
  = t * 2 ^ 28 + Z.land a1 15 * 2 ^ 20 + Z.land a2 15 * 2 ^ 16
    + Z.land a3 15 * 2 ^ 12 + Z.land a4 15 * 2 ^ 8 + Z.land a5 15 * 2 ^ 4.
Proof.
  intros Ht. unfold make_hand_rank.
  rewrite !tb_field_eq by lia.
  pose proof (land_15_range a1). pose proof (land_15_range a2).
  pose proof (land_15_range a3). pose proof (land_15_range a4).
  pose proof (land_15_range a5).
  assert (u32 (Z.shiftl (u32 t) 28) = t * 2 ^ 28) as ->.
  { unfold u32. rewrite (Z.mod_small t) by lia.
    rewrite Z.shiftl_mul_pow2 by lia. apply Z.mod_small. lia. }
  rewrite (lor_disjoint_add (Z.land a4 15 * 2 ^ 8) _ 8);
    [|lia|apply Z.mod_mul; lia|lia].
  rewrite (lor_disjoint_add (Z.land a3 15 * 2 ^ 12) _ 12);
    [|lia|apply Z.mod_mul; lia|lia].
  rewrite (lor_disjoint_add (Z.land a2 15 * 2 ^ 16) _ 16);
    [|lia|apply Z.mod_mul; lia|lia].
  rewrite (lor_disjoint_add (Z.land a1 15 * 2 ^ 20) _ 20);
    [|lia|apply Z.mod_mul; lia|lia].
  rewrite (lor_disjoint_add (t * 2 ^ 28) _ 28);
    [|lia|apply Z.mod_mul; lia|lia].
  lia.
Qed.

Lemma land_15_small a : 0 <= a < 16 -> Z.land a 15 = a.
Proof.
  intros Ha. change 15 with (Z.ones 4). rewrite Z.land_ones by lia.
  apply Z.mod_small. lia.
Qed.

(** X1.  Integer comparison of two hand ranks is the lexicographic comparison of
    (category, tiebreaker 1, ..., tiebreaker 5). *)
Theorem hand_rank_order_is_lexicographic
    (t a1 a2 a3 a4 a5 t' b1 b2 b3 b4 b5 : Z) :
  Forall (fun x => 0 <= x < 16) [t; a1; a2; a3; a4; a5; t'; b1; b2; b3; b4; b5] ->
  make_hand_rank t a1 a2 a3 a4 a5 < make_hand_rank t' b1 b2 b3 b4 b5
  <-> t < t'
      \/ t = t' /\ (a1 < b1
      \/ a1 = b1 /\ (a2 < b2
      \/ a2 = b2 /\ (a3 < b3
      \/ a3 = b3 /\ (a4 < b4
      \/ a4 = b4 /\ a5 < b5)))).
Proof.
  rewrite !Forall_cons, Forall_nil. intros Hr.
  rewrite !make_hand_rank_sum by lia.
  rewrite !land_15_small by lia.
  lia.
Qed.

Lemma hand_rank_order_is_lexicographic_witness :
  make_hand_rank 7 3 12 0 0 0 < make_hand_rank 7 4 0 0 0 0
  <-> 7 < 7
      \/ 7 = 7 /\ (3 < 4
      \/ 3 = 4 /\ (12 < 0
      \/ 12 = 0 /\ (0 < 0
      \/ 0 = 0 /\ (0 < 0
      \/ 0 = 0 /\ 0 < 0)))).
Proof.
  apply (hand_rank_order_is_lexicographic 7 3 12 0 0 0 7 4 0 0 0 0).
  repeat constructor; lia.
Defined.

(** ** Cards *)

(** X2.  A card is its rank and its suit: [make_card] undoes [card_rank] and
    [card_suit], and they undo it. *)
Theorem card_rank_suit_round_trip (r s c : Z) :
  0 <= r <= 12 -> 0 <= s < 4 -> 0 <= c < 256 ->
  card_rank (make_card r s) = r
  /\ card_suit (make_card r s) = s
  /\ make_card (card_rank c) (card_suit c) = c
  /\ (c < 52 -> 0 <= card_rank c <= 12 /\ 0 <= card_suit c < 4).
Proof.
  intros Hr Hs Hc.
  split; [by apply card_rank_make_card|].
  split; [by apply card_suit_make_card|].
  unfold make_card, card_rank, card_suit, u8.
  rewrite Z.quot_div_nonneg, Z.rem_mod_nonneg by lia.
  pose proof (Z.div_mod c 4 ltac:(lia)) as Hd.
  pose proof (Z.mod_pos_bound c 4 ltac:(lia)) as Hm.
  split.
  - rewrite Z.mod_small by lia. lia.
  - intros Hdeck. split; [|lia].
    split; [apply Z.div_pos; lia|].
    apply Z.lt_succ_r. apply Z.div_lt_upper_bound; lia.
Qed.

Lemma card_rank_suit_round_trip_witness :
  card_rank (make_card 12 3) = 12
  /\ card_suit (make_card 12 3) = 3
  /\ make_card (card_rank 51) (card_suit 51) = 51
  /\ (51 < 52 -> 0 <= card_rank 51 <= 12 /\ 0 <= card_suit 51 < 4).
Proof. apply (card_rank_suit_round_trip 12 3 51); lia. Defined.

(** ** Card masks *)

Lemma mask_has_card_testbit mask c :
  0 <= c < 64 -> mask_has_card mask c = Z.testbit mask c.
Proof.
  intros Hc. unfold mask_has_card, u64.
  rewrite Z.shiftl_1_l.
  rewrite Z.mod_small
    by (split; [apply Z.pow_nonneg; lia|apply Z.pow_lt_mono_r; lia]).
  destruct (Z.testbit mask c) eqn:Hbit.
  - apply negb_true_iff, Z.eqb_neq. intros Hzero.
    assert (Z.testbit (Z.land mask (2 ^ c)) c = true) as Hone.
    { rewrite Z.land_spec, Hbit, Z.pow2_bits_true by lia. reflexivity. }
    rewrite Hzero, Z.bits_0 in Hone. discriminate.
  - apply negb_false_iff, Z.eqb_eq. apply Z.bits_inj'. intros k Hk.
    rewrite Z.land_spec, Z.bits_0, Z.pow2_bits_eqb by lia.
    destruct (Z.eqb_spec c k) as [<-|]; [by rewrite Hbit|apply andb_false_r].
Qed.

Lemma add_card_to_mask_testbit (mask c k : Z) :
  0 <= c < 64 -> 0 <= k ->
  Z.testbit (add_card_to_mask mask c) k = (c =? k) || Z.testbit mask k.
Proof.
  intros Hc Hk. unfold add_card_to_mask, u64. rewrite Z.shiftl_1_l.
  rewrite Z.mod_small
    by (split; [apply Z.pow_nonneg; lia|apply Z.pow_lt_mono_r; lia]).
  rewrite Z.lor_spec, Z.pow2_bits_eqb by lia. apply orb_comm.
Qed.

(** X3.  Adding a card to a mask makes that card present and changes nothing for
    any other card. *)
Theorem mask_add_then_has (mask c c' : Z) :
  0 <= c < 64 -> 0 <= c' < 64 ->
  mask_has_card (add_card_to_mask mask c) c' = (c =? c') || mask_has_card mask c'.
Proof.
  intros Hc Hc'. rewrite !mask_has_card_testbit by lia.
  apply add_card_to_mask_testbit; lia.
Qed.

Lemma mask_add_then_has_witness :
  mask_has_card (add_card_to_mask 5 51) 51 = (51 =? 51) || mask_has_card 5 51.
Proof. apply (mask_add_then_has 5 51 51); lia. Defined.

(** The mask built from a board holds exactly the cards of the board. *)
Lemma board_mask_has (board : list Z) (mask c : Z) :
  Forall (fun x => 0 <= x < 64) board -> 0 <= c < 64 ->
  mask_has_card (fold_left add_card_to_mask board mask) c = true
  <-> In c board \/ mask_has_card mask c = true.
Proof.
  intros Hb Hc. revert mask. induction Hb as [|x board Hx Hb IH]; intros mask.
  - cbn. tauto.
  - cbn [fold_left In].
    rewrite IH, !mask_has_card_testbit, add_card_to_mask_testbit by lia.
    rewrite orb_true_iff, Z.eqb_eq. tauto.
Qed.

(** ** The evaluator on five, six and seven cards *)

(** X4.  Whatever five cards it is given, [evaluate_five] returns a rank whose
    category is between 1 (high card) and 9 (straight flush) and which fits
    32 bits. *)
Theorem evaluate_five_category_range (cards : list Z) :
  1 <= get_rank_type (evaluate_five cards) <= 9
  /\ 0 < evaluate_five cards < 2 ^ 32.
Proof.
  unfold evaluate_five, evaluate_five_internal.
  match goal with |- context [classify ?r ?f] =>
    pose proof (classify_rank_type r f) as Ht;
    pose proof (classify_nonneg r f) as Hn;
    generalize dependent (classify r f)
  end.
  intros rank Ht Hn. split; [exact Ht|].
  unfold get_rank_type in Ht. rewrite Z.shiftr_div_pow2 in Ht by lia.
  pose proof (Z.div_mod rank (2 ^ 28) ltac:(lia)) as Hd.
  pose proof (Z.mod_pos_bound rank (2 ^ 28) ltac:(lia)) as Hm.
  lia.
Qed.

Lemma evaluate_seven_upper (cards five : list Z) :
  length cards = 7%nat -> length five = 5%nat -> five ⊆+ cards ->
  evaluate_five five <= evaluate_seven cards.
Proof.
  intros Hlen Hfive Hsub.
  destruct cards as [|c0 [|c1 [|c2 [|c3 [|c4 [|c5 [|c6 [|]]]]]]]]; try discriminate.
  rewrite evaluate_seven_fold.
  apply submseteq_sublist_r in Hsub as (l2 & Hperm & Hsub).
  rewrite (evaluate_five_permutation_invariant five l2) by done.
  apply fold_keep_best_upper with (f := evaluate_five).
  apply five_without_combinations, combinations_sublist.
  split; [done|]. by rewrite <- Hperm.
Qed.

Lemma evaluate_seven_attained (cards : list Z) :
  length cards = 7%nat ->
  exists five, length five = 5%nat /\ five `sublist_of` cards
               /\ evaluate_five five = evaluate_seven cards.
Proof.
  intros Hlen.
  destruct cards as [|c0 [|c1 [|c2 [|c3 [|c4 [|c5 [|c6 [|]]]]]]]]; try discriminate.
  rewrite evaluate_seven_fold.
  destruct (fold_keep_best_attained evaluate_five
              (map (five_without [c0; c1; c2; c3; c4; c5; c6]) skipped_pairs) 0)
    as [Hzero|(five & Hin & Heq)].
  - exfalso.
    pose proof (fold_keep_best_upper evaluate_five
                  (map (five_without [c0; c1; c2; c3; c4; c5; c6]) skipped_pairs) 0
                  (five_without [c0; c1; c2; c3; c4; c5; c6] (0%nat, 1%nat))) as Hup.
    pose proof (evaluate_five_positive
                  (five_without [c0; c1; c2; c3; c4; c5; c6] (0%nat, 1%nat))) as Hpos.
    rewrite Hzero in Hup. assert (0 < 2 ^ 28) by lia.
    enough (evaluate_five (five_without [c0; c1; c2; c3; c4; c5; c6] (0%nat, 1%nat)) <= 0)
      by lia.
    apply Hup. apply in_map. cbv. tauto.
  - exists five. rewrite Heq.
    apply five_without_combinations, combinations_sublist in Hin as [Hsub Hl].
    done.
Qed.

Lemma evaluate_seven_perm_le (cards cards' : list Z) :
  length cards = 7%nat -> cards ≡ₚ cards' ->
  evaluate_seven cards <= evaluate_seven cards'.
Proof.
  intros Hlen Hperm.
  assert (length cards' = 7%nat) as Hlen' by (by rewrite <- Hperm).
  destruct (evaluate_seven_attained cards Hlen) as (five & Hl & Hs & <-).
  apply evaluate_seven_upper; [done|done|].
  rewrite <- Hperm. by apply sublist_submseteq.
Qed.

(** X5.  The best hand of seven cards does not depend on their order: which two
    are the hole cards and how the board is laid out make no difference. *)
Theorem evaluate_seven_order_independent (cards cards' : list Z) :
  length cards = 7%nat -> cards ≡ₚ cards' ->
  evaluate_seven cards = evaluate_seven cards'.
Proof.
  intros Hlen Hperm.
  assert (length cards' = 7%nat) as Hlen' by (by rewrite <- Hperm).
  apply Z.le_antisymm; apply evaluate_seven_perm_le; done.
Qed.

Lemma evaluate_seven_order_independent_witness :
  evaluate_seven [0; 5; 10; 15; 48; 49; 50]
  = evaluate_seven [50; 49; 48; 15; 10; 5; 0].
Proof.
  apply (evaluate_seven_order_independent [0; 5; 10; 15; 48; 49; 50]
           [50; 49; 48; 15; 10; 5; 0]).
  - reflexivity.
  - compute_done.
Defined.

(** ** [evaluate] on a turn and on a river board *)

Lemma evaluate_six_fold (hole board : list Z) :
  evaluate hole board 4
  = fold_left (fun best five => keep_best best (evaluate_five five))
      (rev (combinations 5
              [at_ hole 0; at_ hole 1; at_ board 0; at_ board 1; at_ board 2;
               at_ board 3])) 0.
Proof. reflexivity. Qed.

Lemma evaluate_seven_cards (hole board : list Z) (board_size : Z) :
  5 <= board_size ->
  evaluate hole board board_size
  = evaluate_seven
      [at_ hole 0; at_ hole 1; at_ board 0; at_ board 1; at_ board 2;
       at_ board 3; at_ board 4].
Proof.
  intros Hsize. unfold evaluate.
  destruct (Z.ltb_spec (2 + board_size) 5); [lia|].
  destruct (Z.eqb_spec (2 + board_size) 5); [lia|].
  destruct (Z.eqb_spec (2 + board_size) 6); [lia|].
  by replace (Z.min board_size 5) with 5 by lia.
Qed.

(** X6.  With four board cards [evaluate] returns the best five-card rank among
    the six cards: no five of them rank higher, and five of them (in the
    order given) have exactly that rank. *)
Theorem evaluate_turn_is_max_of_subsets (h0 h1 b0 b1 b2 b3 : Z) (rest : list Z) :
  let six := [h0; h1; b0; b1; b2; b3] in
  let best := evaluate [h0; h1] (b0 :: b1 :: b2 :: b3 :: rest) 4 in
  (forall five, length five = 5%nat -> five ⊆+ six -> evaluate_five five <= best)
  /\ exists five, length five = 5%nat /\ five `sublist_of` six
                  /\ evaluate_five five = best.
Proof.
  intros six best. subst best. rewrite evaluate_six_fold.
  change [at_ [h0; h1] 0; at_ [h0; h1] 1; at_ (b0 :: b1 :: b2 :: b3 :: rest) 0;
          at_ (b0 :: b1 :: b2 :: b3 :: rest) 1; at_ (b0 :: b1 :: b2 :: b3 :: rest) 2;
          at_ (b0 :: b1 :: b2 :: b3 :: rest) 3] with six.
  split.
  - intros five Hlen Hsub.
    apply submseteq_sublist_r in Hsub as (l2 & Hperm & Hsub).
    rewrite (evaluate_five_permutation_invariant five l2) by done.
    apply fold_keep_best_upper with (f := evaluate_five).
    apply in_rev. rewrite rev_involutive. apply combinations_sublist.
    split; [done|]. by rewrite <- Hperm.
  - destruct (fold_keep_best_attained evaluate_five (rev (combinations 5 six)) 0)
      as [Hzero|(five & Hin & Heq)].
    + exfalso.
      pose proof (fold_keep_best_upper evaluate_five (rev (combinations 5 six)) 0
                    [h0; h1; b0; b1; b2]) as Hup.
      pose proof (evaluate_five_positive [h0; h1; b0; b1; b2]) as Hpos.
      rewrite Hzero in Hup. assert (0 < 2 ^ 28) by lia.
      enough (evaluate_five [h0; h1; b0; b1; b2] <= 0) by lia.
      apply Hup. cbv. tauto.
    + exists five. rewrite Heq.
      apply in_rev, combinations_sublist in Hin as [Hsub Hl]. done.
Qed.

(** X7.  With a complete board the rank does not depend on the order of the two
    hole cards nor on the order of the five board cards. *)
Theorem evaluate_river_order_independent (hole hole' board board' : list Z) :
  length hole = 2%nat -> length board = 5%nat ->
  hole ≡ₚ hole' -> board ≡ₚ board' ->
  evaluate hole board 5 = evaluate hole' board' 5.
Proof.
  intros Hh Hb Hph Hpb.
  assert (length hole' = 2%nat) as Hh' by (by rewrite <- Hph).
  assert (length board' = 5%nat) as Hb' by (by rewrite <- Hpb).
  rewrite !evaluate_seven_cards by lia.
  destruct hole as [|h0 [|h1 [|]]]; try discriminate.
  destruct hole' as [|h0' [|h1' [|]]]; try discriminate.
  destruct board as [|b0 [|b1 [|b2 [|b3 [|b4 [|]]]]]]; try discriminate.
  destruct board' as [|b0' [|b1' [|b2' [|b3' [|b4' [|]]]]]]; try discriminate.
  cbn [at_ nth].
  assert ([h0; h1] ++ [b0; b1; b2; b3; b4] ≡ₚ [h0'; h1'] ++ [b0'; b1'; b2'; b3'; b4'])
    as Hall by (by rewrite Hph, Hpb).
  apply Z.le_antisymm; apply evaluate_seven_perm_le; done.
Qed.

Lemma evaluate_river_order_independent_witness :
  evaluate [0; 5] [10; 15; 48; 49; 50] 5 = evaluate [5; 0] [50; 10; 49; 15; 48] 5.
Proof.
  apply (evaluate_river_order_independent [0; 5] [5; 0] [10; 15; 48; 49; 50]
           [50; 10; 49; 15; 48]).
  - reflexivity.
  - reflexivity.
  - compute_done.
  - compute_done.
Defined.

(** X8.  A further board card never lowers a hand: the rank on the flop is at
    most the rank on the turn, which is at most the rank on the river. *)
Theorem evaluate_monotone_in_board (hole board : list Z) :
  evaluate hole board 3 <= evaluate hole board 4
  /\ evaluate hole board 4 <= evaluate hole board 5.
Proof.
  split.
  - rewrite evaluate_six_fold.
    change (evaluate hole board 3)
      with (evaluate_five [at_ hole 0; at_ hole 1; at_ board 0; at_ board 1;
                           at_ board 2]).
    apply fold_keep_best_upper with (f := evaluate_five).
    cbv [combinations map app rev In]. tauto.
  - rewrite (evaluate_seven_cards hole board 5) by lia. rewrite evaluate_six_fold.
    set (six := [at_ hole 0; at_ hole 1; at_ board 0; at_ board 1; at_ board 2;
                 at_ board 3]).
    destruct (fold_keep_best_attained evaluate_five (rev (combinations 5 six)) 0)
      as [->|(five & Hin & ->)].
    + rewrite evaluate_seven_fold.
      etransitivity; [|apply fold_keep_best_ge]. done.
    + apply in_rev, combinations_sublist in Hin as [Hsub Hl].
      apply evaluate_seven_upper; [done|done|].
      apply sublist_submseteq. etransitivity; [exact Hsub|].
      subst six. repeat apply sublist_skip. apply sublist_nil_l.
Qed.

(** ** Categories *)

Lemma in_all_ranks r : 0 <= r <= 12 -> In r all_ranks.
Proof.
  intros Hr. unfold all_ranks.
  assert (r = 0 \/ r = 1 \/ r = 2 \/ r = 3 \/ r = 4 \/ r = 5 \/ r = 6 \/ r = 7
          \/ r = 8 \/ r = 9 \/ r = 10 \/ r = 11 \/ r = 12) as Hc by lia.
  cbn [In]. intuition.
Qed.

(** X10.  Four cards of one rank and a fifth of another, in any order and of any
    suits, are four of a kind, with the rank of the four as first tiebreaker
    and the fifth card's rank as kicker. *)
Theorem four_of_a_kind_classified (q k s0 s1 s2 s3 s4 : Z) (cards : list Z) :
  0 <= q <= 12 -> 0 <= k <= 12 -> q <> k ->
  Forall (fun s => 0 <= s < 4) [s0; s1; s2; s3; s4] ->
  cards ≡ₚ [make_card q s0; make_card q s1; make_card q s2; make_card q s3;
            make_card k s4] ->
  evaluate_five cards = make_hand_rank RANK_FOUR_OF_A_KIND q k 0 0 0
  /\ get_rank_type (evaluate_five cards) = RANK_FOUR_OF_A_KIND.
Proof.
  intros Hq Hk Hne Hs Hperm.
  assert (evaluate_five cards = make_hand_rank RANK_FOUR_OF_A_KIND q k 0 0 0) as ->.
  { assert (length cards = 5%nat) as Hlen by (by rewrite Hperm).
    rewrite (evaluate_five_permutation_invariant cards _ Hlen Hperm).
    rewrite evaluate_five_of_ranks by (done || (repeat constructor; lia)).
    assert (quads_checked = true) as Hall by (vm_compute; reflexivity).
    unfold quads_checked in Hall. rewrite forallb_forall in Hall.
    specialize (Hall q (in_all_ranks q Hq)). rewrite forallb_forall in Hall.
    specialize (Hall k (in_all_ranks k Hk)).
    apply orb_true_iff in Hall as [Heq|Hall]; [lia|].
    rewrite forallb_forall in Hall.
    apply Z.eqb_eq, Hall. destruct (all_same_suit _); cbn; tauto. }
  split; [done|].
  apply get_rank_type_make_hand_rank. done.
Qed.

Lemma four_of_a_kind_classified_witness :
  evaluate_five [make_card 7 0; make_card 2 1; make_card 7 3; make_card 7 1;
                 make_card 7 2]
  = make_hand_rank RANK_FOUR_OF_A_KIND 7 2 0 0 0.
Proof.
  apply (four_of_a_kind_classified 7 2 0 3 1 2 1
           [make_card 7 0; make_card 2 1; make_card 7 3; make_card 7 1;
            make_card 7 2]).
  - lia.
  - lia.
  - lia.
  - repeat constructor; lia.
  - compute_done.
Defined.

(** X9.  Three cards of one rank and two of another, in any order and of any
    suits, are a full house, with the rank of the three as first tiebreaker
    and the rank of the pair as second; such a hand ranks below every four
    of a kind, whatever the ranks. *)
Theorem full_house_below_four_of_a_kind (t p q k s0 s1 s2 s3 s4 u0 u1 u2 u3 u4 : Z)
    (house quads : list Z) :
  0 <= t <= 12 -> 0 <= p <= 12 -> t <> p ->
  0 <= q <= 12 -> 0 <= k <= 12 -> q <> k ->
  Forall (fun s => 0 <= s < 4) [s0; s1; s2; s3; s4] ->
  Forall (fun s => 0 <= s < 4) [u0; u1; u2; u3; u4] ->
  house ≡ₚ [make_card t s0; make_card t s1; make_card t s2; make_card p s3;
            make_card p s4] ->
  quads ≡ₚ [make_card q u0; make_card q u1; make_card q u2; make_card q u3;
            make_card k u4] ->
  evaluate_five house = make_hand_rank RANK_FULL_HOUSE t p 0 0 0
  /\ get_rank_type (evaluate_five house) = RANK_FULL_HOUSE
  /\ evaluate_five house < evaluate_five quads.
Proof.
  intros Ht Hp Htp Hq Hk Hqk Hs Hu Hhouse Hquads.
  assert (evaluate_five house = make_hand_rank RANK_FULL_HOUSE t p 0 0 0) as ->.
  { assert (length house = 5%nat) as Hlen by (by rewrite Hhouse).
    rewrite (evaluate_five_permutation_invariant house _ Hlen Hhouse).
    rewrite evaluate_five_of_ranks by (done || (repeat constructor; lia)).
    assert (full_houses_checked = true) as Hall by (vm_compute; reflexivity).
    unfold full_houses_checked in Hall. rewrite forallb_forall in Hall.
    specialize (Hall t (in_all_ranks t Ht)). rewrite forallb_forall in Hall.
    specialize (Hall p (in_all_ranks p Hp)).
    apply orb_true_iff in Hall as [Heq|Hall]; [lia|].
    rewrite forallb_forall in Hall.
    apply Z.eqb_eq, Hall. destruct (all_same_suit _); cbn; tauto. }
  assert (evaluate_five quads = make_hand_rank RANK_FOUR_OF_A_KIND q k 0 0 0) as ->.
  { assert (length quads = 5%nat) as Hlen by (by rewrite Hquads).
    rewrite (evaluate_five_permutation_invariant quads _ Hlen Hquads).
    rewrite evaluate_five_of_ranks by (done || (repeat constructor; lia)).
    assert (quads_checked = true) as Hall by (vm_compute; reflexivity).
    unfold quads_checked in Hall. rewrite forallb_forall in Hall.
    specialize (Hall q (in_all_ranks q Hq)). rewrite forallb_forall in Hall.
    specialize (Hall k (in_all_ranks k Hk)).
    apply orb_true_iff in Hall as [Heq|Hall]; [lia|].
    rewrite forallb_forall in Hall.
    apply Z.eqb_eq, Hall. destruct (all_same_suit _); cbn; tauto. }
  split; [done|].
  split; [apply get_rank_type_make_hand_rank; done|].
  rewrite !make_hand_rank_sum by done.
  pose proof (land_15_range t). pose proof (land_15_range p).
  pose proof (land_15_range q). pose proof (land_15_range k).
  change (Z.land 0 15) with 0. unfold RANK_FULL_HOUSE, RANK_FOUR_OF_A_KIND. lia.
Qed.

Lemma full_house_below_four_of_a_kind_witness :
  evaluate_five [make_card 12 0; make_card 11 1; make_card 12 3; make_card 11 0;
                 make_card 12 2]
  = make_hand_rank RANK_FULL_HOUSE 12 11 0 0 0
  /\ evaluate_five [make_card 12 0; make_card 11 1; make_card 12 3; make_card 11 0;
                    make_card 12 2]
     < evaluate_five [make_card 0 0; make_card 1 1; make_card 0 3; make_card 0 1;
                      make_card 0 2].
Proof.
  destruct (full_house_below_four_of_a_kind 12 11 0 1 0 3 2 1 0 0 3 1 2 1
              [make_card 12 0; make_card 11 1; make_card 12 3; make_card 11 0;
               make_card 12 2]
              [make_card 0 0; make_card 1 1; make_card 0 3; make_card 0 1;
               make_card 0 2])
    as (Hrank & _ & Hlt).
  - lia.
  - lia.
  - lia.
  - lia.
  - lia.
  - lia.
  - repeat constructor; lia.
  - repeat constructor; lia.
  - compute_done.
  - compute_done.
  - split; [exact Hrank|exact Hlt].
Defined.

(** ** The arena: push_back, operator[] and clear *)

Lemma data_set_end {T} `{Zeroed T} (b : MmapBuffer.t T) (v : T) :
  MmapBuffer.slots (MmapBuffer.data_set b (Z.of_nat (length (MmapBuffer.slots b))) v)
  = MmapBuffer.slots b ++ [v].
Proof.
  unfold MmapBuffer.data_set; cbn. rewrite Nat2Z.id.
  replace (S (length (MmapBuffer.slots b)) - length (MmapBuffer.slots b))%nat
    with 1%nat by lia.
  cbn. rewrite insert_app_r_alt by lia.
  by replace (length (MmapBuffer.slots b) - length (MmapBuffer.slots b))%nat
    with 0%nat by lia.
Qed.

Lemma push_all_from {T} `{Zeroed T} (vs : list T) (name : string)
    (slots : list T) (cap : Z) :
  Z.of_nat (length slots) <= cap ->
  for_each vs (fun v _ => MmapBuffer.push_back v) tt
    (MmapBuffer.Build name slots (Z.of_nat (length slots)) cap)
  = if Z.of_nat (length slots + length vs) <=? cap
    then Ok (tt, MmapBuffer.Build name (slots ++ vs)
                   (Z.of_nat (length slots + length vs)) cap, [])
    else Throw (MmapBuffer.overflow_what (MmapBuffer.Build (T:=T) name [] 0 cap)).
Proof.
  revert slots. induction vs as [|v vs IH]; intros slots Hle; cbn [for_each length].
  - rewrite Nat.add_0_r, app_nil_r.
    destruct (Z.leb_spec (Z.of_nat (length slots)) cap); [reflexivity|lia].
  - unfold mbind at 1. unfold Prog_bind.
    unfold MmapBuffer.push_back at 1. unfold mbind at 1, Prog_bind, get. cbn.
    destruct (Z.leb_spec cap (Z.of_nat (length slots))) as [Hfull|Hroom].
    + cbn. destruct (Z.leb_spec (Z.of_nat (length slots + S (length vs))) cap);
        [lia|reflexivity].
    + cbn.
      pose proof (data_set_end (MmapBuffer.Build name slots (Z.of_nat (length slots)) cap) v)
        as Hset.
      cbn in Hset. unfold MmapBuffer.with_count, MmapBuffer.data_set in *. cbn in *.
      rewrite Hset.
      replace (Z.of_nat (length slots) + 1) with (Z.of_nat (length (slots ++ [v])))
        by (rewrite length_app; cbn; lia).
      rewrite IH by (rewrite length_app; cbn; lia).
      rewrite length_app, <- app_assoc. cbn.
      replace (length slots + 1 + length vs)%nat with (length slots + S (length vs))%nat
        by lia.
      destruct (Z.leb_spec (Z.of_nat (length slots + S (length vs))) cap); reflexivity.
Qed.

(** ** The constructors of the arena *)

Lemma construct_returns {T} `{Zeroed T} os (name : string) (cap : Z)
    (b : MmapBuffer.t T) :
  MmapBuffer.construct os name cap = Ok b ->
  os = MmapBuffer.Mapped /\ cap <> 0 /\ b = MmapBuffer.create name cap.
Proof.
  unfold MmapBuffer.construct. destruct os; try discriminate.
  destruct (Z.eqb_spec cap 0); [discriminate|]. by intros [= <-].
Qed.

Lemma TreeDataPool_construct_cases {F} (files : string -> MmapBuffer.Mapping) :
  TreeDataPool_construct (F := F) files = Ok TreeDataPool_new
  \/ exists w, TreeDataPool_construct (F := F) files = Throw w.
Proof.
  unfold TreeDataPool_construct, MmapBuffer.construct.
  destruct (files "tmp/nodes.bin"); eauto.
  destruct (files "tmp/actions.bin"); eauto.
  destruct (files "tmp/child_ids.bin"); eauto.
  destruct (files "tmp/chance_cards.bin"); eauto.
Qed.

Lemma make_pool_returns {F S} files (p : TreeDataPool F) (s : S) :
  TreeDataPool_construct files = Ok p -> make_pool files s = Ok (p, s, []).
Proof. unfold make_pool. by intros ->. Qed.

Lemma make_pool_throws {F S A} files w (s : S) (k : TreeDataPool F -> Prog S A) :
  TreeDataPool_construct (F := F) files = Throw w ->
  (make_pool files ≫= k) s = Throw w.
Proof. unfold mbind, Prog_bind, make_pool. by intros ->. Qed.

(** X11.  The constructor of a buffer returns only when the file was opened,
    resized and mapped, and then the buffer has room for at least one
    element.  A buffer constructed with room for [cap] elements takes exactly
    [cap] of them: pushing a list no longer than that stores the list, in
    order, and leaves the size at its length; pushing a longer one throws
    the overflow error that names the file and the limit. *)
Theorem push_back_fills_to_capacity {T} `{Zeroed T} (os : MmapBuffer.Mapping)
    (name : string) (cap : Z) (vs : list T) (b : MmapBuffer.t T) :
  0 <= cap ->
  MmapBuffer.construct os name cap = Ok b ->
  os = MmapBuffer.Mapped
  /\ 0 < cap
  /\ for_each vs (fun v _ => MmapBuffer.push_back v) tt b
     = if Z.of_nat (length vs) <=? cap
       then Ok (tt, MmapBuffer.Build name vs (Z.of_nat (length vs)) cap, [])
       else Throw (String.append "MmapBuffer overflow in file: "
                     (String.append name
                        (String.append " (Limit: "
                           (String.append (pretty cap) ")")))).
Proof.
  intros Hcap Hb. apply construct_returns in Hb as (-> & Hne & ->).
  split; [done|]. split; [lia|].
  exact (push_all_from vs name [] cap Hcap).
Qed.

Lemma push_back_fills_to_capacity_witness :
  MmapBuffer.construct MmapBuffer.Mapped "a" 2 = Ok (MmapBuffer.create (T := Z) "a" 2)
  /\ for_each [7; 8] (fun v _ => MmapBuffer.push_back v) tt (MmapBuffer.create "a" 2)
     = Ok (tt, MmapBuffer.Build "a" [7; 8] 2 2, [])
  /\ for_each [7; 8; 9] (fun v _ => MmapBuffer.push_back v) tt
       (MmapBuffer.create "a" 2)
     = Throw "MmapBuffer overflow in file: a (Limit: 2)".
Proof.
  split; [reflexivity|]. split.
  - apply (push_back_fills_to_capacity MmapBuffer.Mapped "a" 2 [7; 8]
             (MmapBuffer.create "a" 2)); [lia|reflexivity].
  - apply (push_back_fills_to_capacity MmapBuffer.Mapped "a" 2 [7; 8; 9]
             (MmapBuffer.create "a" 2)); [lia|reflexivity].
Defined.

Lemma read_in_range {T} `{Zeroed T} (b : MmapBuffer.t T) (i : Z) :
  0 <= i < MmapBuffer.count_ b -> MmapBuffer.count_ b <= MmapBuffer.max_elements_ b ->
  MmapBuffer.read i b = Ok (MmapBuffer.data_at b i, b, []).
Proof.
  intros Hi Hcap.
  unfold MmapBuffer.read, MmapBuffer.index, mbind, Prog_bind, get, put, mret, Prog_ret.
  destruct (Z.leb_spec (MmapBuffer.max_elements_ b) i); [lia|].
  destruct (Z.leb_spec (MmapBuffer.count_ b) i); [lia|]. reflexivity.
Qed.

(** X12.  An element pushed onto a buffer with room is read back under the index
    that was the size before the push; the size grows by one, and the
    elements stored before keep their indices and values.  None of this
    prints a diagnostic. *)
Theorem push_back_read_round_trip {T} `{Zeroed T} (b : MmapBuffer.t T) (v : T) :
  buffer_wf b -> MmapBuffer.size b < MmapBuffer.max_elements_ b ->
  exists b',
    MmapBuffer.push_back v b = Ok (tt, b', [])
    /\ MmapBuffer.size b' = MmapBuffer.size b + 1
    /\ MmapBuffer.read (MmapBuffer.size b) b' = Ok (v, b', [])
    /\ forall i, 0 <= i < MmapBuffer.size b ->
         MmapBuffer.read i b' = Ok (MmapBuffer.data_at b i, b', []).
Proof.
  intros (Hcount & Hcap & Hint) Hroom. unfold MmapBuffer.size in *.
  eexists. split.
  { unfold MmapBuffer.push_back, mbind, Prog_bind, get, put.
    destruct (Z.leb_spec (MmapBuffer.max_elements_ b) (MmapBuffer.count_ b)); [lia|].
    reflexivity. }
  pose proof (data_set_end b v) as Hset. rewrite <- Hcount in Hset.
  split; [reflexivity|].
  split.
  - rewrite read_in_range by (cbn; lia). do 3 f_equal.
    unfold MmapBuffer.data_at. cbn [MmapBuffer.slots MmapBuffer.with_count].
    rewrite Hset, Hcount, Nat2Z.id. by rewrite nth_middle.
  - intros i Hi. rewrite read_in_range by (cbn; lia). do 3 f_equal.
    unfold MmapBuffer.data_at. cbn [MmapBuffer.slots MmapBuffer.with_count].
    rewrite Hset. apply app_nth1. lia.
Qed.

Lemma push_back_read_round_trip_witness :
  exists b',
    MmapBuffer.push_back 9 (MmapBuffer.Build "a" [7; 8] 2 4) = Ok (tt, b', [])
    /\ MmapBuffer.size b' = 3
    /\ MmapBuffer.read 2 b' = Ok (9, b', []).
Proof.
  destruct (push_back_read_round_trip (MmapBuffer.Build "a" [7; 8] 2 4) 9)
    as (b' & Hpush & Hsize & Hread & _).
  - repeat split; cbn; lia.
  - cbn. lia.
  - exists b'. split; [exact Hpush|]. split; [exact Hsize|]. exact Hread.
Defined.

(** X13.  [clear] resets the size only.  The elements stay in the mapping, and
    indexing one of them afterwards returns the old value and moves the size
    back up to just past that index. *)
Theorem clear_keeps_the_elements {T} `{Zeroed T} (b : MmapBuffer.t T) (i : Z) :
  buffer_wf b -> 0 <= i < MmapBuffer.size b ->
  exists b0 b1,
    MmapBuffer.clear b = Ok (tt, b0, [])
    /\ MmapBuffer.size b0 = 0
    /\ MmapBuffer.read i b0 = Ok (MmapBuffer.data_at b i, b1, [])
    /\ MmapBuffer.size b1 = i + 1.
Proof.
  intros (Hcount & Hcap & Hint) Hi. unfold MmapBuffer.size in *.
  exists (MmapBuffer.with_count b 0), (MmapBuffer.with_count b (i + 1)).
  split; [reflexivity|]. split; [reflexivity|]. split; [|reflexivity].
  unfold MmapBuffer.read, MmapBuffer.index, mbind, Prog_bind, get, put, mret, Prog_ret.
  cbn [MmapBuffer.max_elements_ MmapBuffer.count_ MmapBuffer.with_count].
  destruct (Z.leb_spec (MmapBuffer.max_elements_ b) i); [lia|].
  destruct (Z.leb_spec 0 i); [|lia]. reflexivity.
Qed.

Lemma clear_keeps_the_elements_witness :
  exists b0 b1,
    MmapBuffer.clear (MmapBuffer.Build "a" [7; 8] 2 4) = Ok (tt, b0, [])
    /\ MmapBuffer.size b0 = 0
    /\ MmapBuffer.read 1 b0 = Ok (8, b1, [])
    /\ MmapBuffer.size b1 = 2.
Proof.
  apply (clear_keeps_the_elements (MmapBuffer.Build "a" [7; 8] 2 4) 1).
  - repeat split; cbn; lia.
  - cbn. lia.
Defined.

(** X14.  An assignment through an index at or beyond the capacity prints the
    out-of-bounds line and then lands in slot 0: the first element is
    overwritten, the size stays as it was. *)
Theorem write_beyond_capacity_overwrites_first {T} `{Zeroed T}
    (b : MmapBuffer.t T) (i : Z) (v : T) :
  buffer_wf b -> 0 < MmapBuffer.size b -> MmapBuffer.max_elements_ b <= i ->
  exists b',
    MmapBuffer.write i v b
    = Ok (tt, b', [FatalOutOfBounds i (MmapBuffer.max_elements_ b)])
    /\ MmapBuffer.size b' = MmapBuffer.size b
    /\ MmapBuffer.read 0 b' = Ok (v, b', []).
Proof.
  intros (Hcount & Hcap & Hint) Hpos Hi. unfold MmapBuffer.size in *.
  exists (MmapBuffer.data_set b 0 v). split.
  { unfold MmapBuffer.write, MmapBuffer.index, mbind, Prog_bind, get, put, print,
      mret, Prog_ret.
    destruct (Z.leb_spec (MmapBuffer.max_elements_ b) i); [|lia]. reflexivity. }
  split; [reflexivity|].
  rewrite read_in_range by (cbn; lia). do 3 f_equal.
  unfold MmapBuffer.data_at, MmapBuffer.data_set. cbn.
  destruct (MmapBuffer.slots b) as [|x l]; [cbn in Hcount; lia|].
  cbn. replace (length l - length l)%nat with 0%nat by lia. reflexivity.
Qed.

Lemma write_beyond_capacity_overwrites_first_witness :
  exists b',
    MmapBuffer.write 4 9 (MmapBuffer.Build "a" [7; 8] 2 4)
    = Ok (tt, b', [FatalOutOfBounds 4 4])
    /\ MmapBuffer.size b' = 2
    /\ MmapBuffer.read 0 b' = Ok (9, b', []).
Proof.
  apply (write_beyond_capacity_overwrites_first (MmapBuffer.Build "a" [7; 8] 2 4) 4 9).
  - repeat split; cbn; lia.
  - cbn. lia.
  - cbn. lia.
Defined.

(** ** What the builder writes *)






(** ** The shape of a decision node *)

Section DecisionShape.
Variable stale : CppNode spec_float.
Variable rec : spec_float -> spec_float -> spec_float -> Z -> Z -> list Z -> Z ->
               spec_float -> spec_float -> bool -> Prog GameTreeBuilder.t Z.
Hypothesis Hrec :
  forall a b c d e f g h i j, preserves builder_wf (rec a b c d e f g h i j).







End DecisionShape.



(** ** The transposition table *)



(** ** The cards a chance node deals *)

Lemma make_card_small r s : 0 <= r <= 12 -> 0 <= s < 4 -> make_card r s = r * 4 + s.
Proof. intros Hr Hs. unfold make_card, u8. apply Z.mod_small. lia. Qed.

(** X18.  For every rank the builder deals one card only, the lowest suit of that
    rank that is not on the board: the card has the rank, is not on the
    board, and every lower suit of the rank is on the board.  A rank is
    skipped exactly when all four of its cards are on the board. *)
Theorem representative_is_lowest_free_suit (board : list Z) (r : Z) :
  Forall (fun c => 0 <= c < 64) board -> 0 <= r <= 12 ->
  match GameTreeBuilder.representative (fold_left add_card_to_mask board 0) r with
  | Some c =>
      card_rank c = r /\ 0 <= card_suit c < 4 /\ ~ In c board
      /\ forall s, 0 <= s < card_suit c -> In (make_card r s) board
  | None => forall s, 0 <= s < 4 -> In (make_card r s) board
  end.
Proof.
  intros Hb Hr.
  assert (forall s, 0 <= s < 4 ->
            mask_has_card (fold_left add_card_to_mask board 0) (make_card r s) = true
            <-> In (make_card r s) board) as Hmask.
  { intros s Hs. rewrite board_mask_has by (rewrite ?make_card_small; lia || done).
    split; [intros [?|Hz]; [done|]|tauto].
    unfold mask_has_card in Hz. rewrite Z.land_0_l in Hz. discriminate. }
  assert (forall s, 0 <= s < 4 ->
            mask_has_card (fold_left add_card_to_mask board 0) (make_card r s) = false
            -> ~ In (make_card r s) board) as Hfree.
  { intros s Hs Hf Hin. apply Hmask in Hin; [congruence|done]. }
  assert (forall s, 0 <= s < 4 ->
            mask_has_card (fold_left add_card_to_mask board 0) (make_card r s) = true
            -> In (make_card r s) board) as Hheld.
  { intros s Hs Ht. by apply Hmask. }
  unfold GameTreeBuilder.representative. cbn [map filter list_filter].
  generalize dependent (fold_left add_card_to_mask board 0). intros mask _ Hfree Hheld.
  pose proof (Hfree 0 ltac:(lia)) as Hf0. pose proof (Hheld 0 ltac:(lia)) as Hh0.
  pose proof (Hfree 1 ltac:(lia)) as Hf1. pose proof (Hheld 1 ltac:(lia)) as Hh1.
  pose proof (Hfree 2 ltac:(lia)) as Hf2. pose proof (Hheld 2 ltac:(lia)) as Hh2.
  pose proof (Hfree 3 ltac:(lia)) as Hf3. pose proof (Hheld 3 ltac:(lia)) as Hh3.
  repeat case_decide; cbn [head];
    repeat match goal with
           | H : mask_has_card _ _ <> false |- _ => apply not_false_is_true in H
           end;
    rewrite ?card_rank_make_card, ?card_suit_make_card by lia.
  all: try (split; [done|]; split; [lia|]; split; [by auto|];
            intros s Hs;
            assert (s = 0 \/ s = 1 \/ s = 2) as [->|[->| ->]] by lia;
            first [lia | by auto]).
  intros s Hs. assert (s = 0 \/ s = 1 \/ s = 2 \/ s = 3) as [->|[->|[->| ->]]] by lia;
    by auto.
Qed.

Lemma representative_is_lowest_free_suit_witness :
  GameTreeBuilder.representative (fold_left add_card_to_mask Sample.river 0) 0
  = Some (make_card 0 3)
  /\ ~ In (make_card 0 3) Sample.river.
Proof.
  pose proof (representative_is_lowest_free_suit Sample.river 0) as Hrep.
  assert (GameTreeBuilder.representative (fold_left add_card_to_mask Sample.river 0) 0
          = Some (make_card 0 3)) as Heq by (vm_compute; reflexivity).
  rewrite Heq in Hrep. split; [reflexivity|].
  apply Hrep.
  - unfold Sample.river. repeat constructor; vm_compute; congruence.
  - lia.
Defined.


Lemma omap_length_le {A B} (f : A -> option B) (l : list A) :
  (length (omap f l) <= length l)%nat.
Proof.
  induction l as [|x l IH]; cbn; [lia|]. destruct (f x); cbn; lia.
Qed.

Section ChanceNode.
Variable stale : CppNode spec_float.
Variable rec : spec_float -> spec_float -> spec_float -> Z -> Z -> list Z -> Z ->
               spec_float -> spec_float -> bool -> Prog GameTreeBuilder.t Z.
Hypothesis Hrec :
  forall a b c d e f g h i j, preserves builder_wf (rec a b c d e f g h i j).

Lemma deal_loop_collects oop_s ip_s pot next_street board mask ranks cs0 ids0
    s cs ids s' d :
  builder_wf s ->
  for_each ranks
    (fun r '(cs, ids) =>
       match GameTreeBuilder.representative mask r with
       | Some representative_card =>
           let next_b := board ++ [representative_card] in
           child_id ← rec oop_s ip_s pot 0 next_street next_b 0
                         GameTreeBuilder.f0 GameTreeBuilder.f0
                         (F32.ltb oop_s (F32.lit 1 100)
                          || F32.ltb ip_s (F32.lit 1 100));
           mret (cs ++ [representative_card], ids ++ [child_id])
       | None => mret (cs, ids)
       end)
    (cs0, ids0) s = Ok ((cs, ids), s', d) ->
  cs = cs0 ++ omap (GameTreeBuilder.representative mask) ranks
  /\ length ids = (length ids0
                   + length (omap (GameTreeBuilder.representative mask) ranks))%nat
  /\ builder_wf s'.
Proof.
  revert cs0 ids0 s d.
  induction ranks as [|r ranks IH]; intros cs0 ids0 s d Hwf; cbn [for_each omap list_omap].
  - intros [= <- <- <- <-]. rewrite app_nil_r. cbn. split; [done|]. split; [lia|done].
  - intros Hrun.
    apply bind_ok_inv in Hrun as ([cs1 ids1] & s1 & d1 & d2 & Hone & Hrest & ->).
    destruct (GameTreeBuilder.representative mask r) as [c|].
    + apply bind_ok_inv in Hone as (cid & s2 & d3 & d4 & Hchild & Hone & ->).
      injection Hone as <- <- <- <-.
      pose proof (Hrec _ _ _ _ _ _ _ _ _ _ _ _ _ _ Hwf Hchild) as Hwf1.
      destruct (IH _ _ _ _ Hwf1 Hrest) as (-> & Hlen & Hwf').
      rewrite <- app_assoc. split; [done|]. split; [|done].
      rewrite Hlen, length_app. cbn. lia.
    + injection Hone as <- <- <- <-.
      destruct (IH _ _ _ _ Hwf Hrest) as (-> & Hlen & Hwf'). done.
Qed.

Lemma add_chance_stored oop_s ip_s pot next_street board s id s' d :
  builder_wf s ->
  GameTreeBuilder.add_chance_node_recursive stale rec oop_s ip_s pot next_street
    board s = Ok (id, s', d) ->
  exists node,
    pool_node (GameTreeBuilder.pool_ s') id = Some node
    /\ node_id node = id
    /\ type node = CHANCE
    /\ CfrTypes.pot node = pot /\ stacks node = (oop_s, ip_s)
    /\ street node = u8 next_street
    /\ action_count node = 0
    /\ node_chance_cards (GameTreeBuilder.pool_ s') node = dealt_cards board
    /\ length (node_chance_children (GameTreeBuilder.pool_ s') node)
       = length (dealt_cards board)
    /\ CfrTypes.to_call node = CfrTypes.to_call stale
    /\ player node = player stale
    /\ bucket_id node = bucket_id stale.
Proof.
  intros Hwf Hrun.
  unfold GameTreeBuilder.add_chance_node_recursive in Hrun.
  apply bind_ok_inv in Hrun as ([cs ids] & s1 & d1 & d1' & Hloop & Hrun & ->).
  apply deal_loop_collects in Hloop as (Hcs & Hids & Hwf1); [|exact Hwf].
  rewrite app_nil_l in Hcs. change (length []) with 0%nat in Hids.
  rewrite Nat.add_0_l in Hids.
  change (omap _ _) with (dealt_cards board) in Hcs, Hids. subst cs.
  remember (dealt_cards board) as cards eqn:Hdealt.
  assert (length cards <= 13)%nat as Hmax.
  { subst cards. unfold dealt_cards. etransitivity; [apply omap_length_le|].
    cbn. lia. }
  apply bind_ok_inv in Hrun as (s0 & s0' & d0 & d0' & Hget & Hrun & ->).
  injection Hget as <- <- <-.
  pose proof Hwf1 as (Hwn & Hwa & Hwc & Hwcc).
  apply bind_ok_inv in Hrun as ([] & s2 & d2 & d2' & Hcards & Hrun & ->).
  apply zoom_inv in Hcards as (p1 & Hcards & ->).
  apply zoom_inv in Hcards as (bcc & Hcards & ->).
  destruct (push_all_appends _ _ _ _ Hwcc Hcards) as (Hscc & Hwcc' & -> & _).
  apply bind_ok_inv in Hrun as ([] & s3 & d3 & d3' & Hcids & Hrun & ->).
  apply zoom_inv in Hcids as (p2 & Hcids & ->).
  apply zoom_inv in Hcids as (bc & Hcids & ->).
  cbn in Hcids.
  destruct (push_all_appends _ _ _ _ Hwc Hcids) as (Hsc & Hwc' & -> & _).
  apply bind_ok_inv in Hrun as ([] & s4 & d4 & d4' & Hnode & Hrun & ->).
  apply zoom_inv in Hnode as (p3 & Hnode & ->).
  apply zoom_inv in Hnode as (bn & Hnode & ->).
  cbn in Hnode.
  destruct (push_back_appends _ _ _ _ Hwn Hnode) as (Hsn & Hwn' & -> & _).
  injection Hrun as <- <- <-.
  pose proof (buffer_wf_count_range _ Hwn) as Hrn.
  pose proof (buffer_wf_count_range _ Hwc) as Hrc.
  pose proof (buffer_wf_count_range _ Hwcc) as Hrcc.
  destruct Hwn as (Hcn & _). destruct Hwc as (Hcc & _). destruct Hwcc as (Hccc & _).
  unfold MmapBuffer.size in *.
  rewrite (i32_small _ Hrn), (u32_small _ Hrc), (u32_small _ Hrcc) in *.
  match type of Hsn with _ = _ ++ [?n] => exists n end.
  cbn [node_id type CfrTypes.pot stacks street action_count CfrTypes.to_call player
       bucket_id].
  split; [|repeat split].
  - unfold pool_node. cbn [GameTreeBuilder.pool_ nodes].
    destruct (Z.leb_spec 0 (MmapBuffer.count_ (nodes (GameTreeBuilder.pool_ s1))));
      [|lia].
    rewrite Hsn.
    replace (Z.to_nat (MmapBuffer.count_ (nodes (GameTreeBuilder.pool_ s1))))
      with (length (MmapBuffer.slots (nodes (GameTreeBuilder.pool_ s1)))) by lia.
    apply list_lookup_middle. reflexivity.
  - unfold node_chance_cards.
    cbn [GameTreeBuilder.pool_ chance_cards chance_count chance_card_start].
    rewrite Hscc, Hccc, Nat2Z.id, drop_app_length.
    unfold u16. rewrite Z.mod_small by lia. rewrite Nat2Z.id. apply firstn_all.
  - unfold node_chance_children.
    cbn [GameTreeBuilder.pool_ child_ids chance_count chance_child_start].
    rewrite Hsc, Hcc, Nat2Z.id, drop_app_length.
    unfold u16. rewrite Z.mod_small by lia. rewrite Nat2Z.id.
    rewrite length_take. lia.
Qed.
End ChanceNode.

(** X19.  On a board of card codes below 64 (the codes for which the shift
    that builds the board mask is defined), a chance node is written after
    its subtrees, under the id that is returned.  It deals one card per rank
    that has a card left (at most 13, in rank order, each the lowest free
    suit), has one child per dealt card and no actions.  The code never
    assigns its [to_call], [player] and [bucket_id]: they hold whatever the
    uninitialised local held. *)
Theorem chance_node_deals_one_card_per_rank (stale : CppNode spec_float)
    (fuel : nat) (oop_s ip_s pot : spec_float) (next_street : Z) (board : list Z)
    (b b' : GameTreeBuilder.t) (id : Z) (d : list Diag) :
  Forall (fun c => 0 <= c < 64) board ->
  builder_wf b ->
  GameTreeBuilder.add_chance_node_recursive stale
    (GameTreeBuilder.build_recursive stale fuel) oop_s ip_s pot next_street board b
  = Ok (id, b', d) ->
  exists node,
    pool_node (GameTreeBuilder.pool_ b') id = Some node
    /\ type node = CHANCE
    /\ action_count node = 0
    /\ node_chance_cards (GameTreeBuilder.pool_ b') node = dealt_cards board
    /\ length (node_chance_children (GameTreeBuilder.pool_ b') node)
       = length (dealt_cards board)
    /\ (length (dealt_cards board) <= 13)%nat
    /\ CfrTypes.to_call node = CfrTypes.to_call stale
    /\ player node = player stale
    /\ bucket_id node = bucket_id stale.
Proof.
  intros _ Hwf Hrun.
  destruct (add_chance_stored stale (GameTreeBuilder.build_recursive stale fuel)
              (fun a b c d e f g h i j =>
                 preserves_build_recursive stale fuel a b c d e f g h i j)
              _ _ _ _ _ _ _ _ _ Hwf Hrun)
    as (node & Hnode & _ & Htype & _ & _ & _ & Hacts & Hcards & Hkids & Htc & Hpl & Hbk).
  exists node. repeat split; try done.
  unfold dealt_cards. etransitivity; [apply omap_length_le|]. cbn. lia.
Qed.

Lemma chance_node_deals_one_card_per_rank_witness :
  exists id b' d node,
    GameTreeBuilder.add_chance_node_recursive Sample.stale
      (GameTreeBuilder.build_recursive Sample.stale 8) (F32.of_Z 100) (F32.of_Z 100)
      (F32.of_Z 100) RIVER Sample.turn (Sample.start Sample.checks_only)
    = Ok (id, b', d)
    /\ pool_node (GameTreeBuilder.pool_ b') id = Some node
    /\ type node = CHANCE
    /\ node_chance_cards (GameTreeBuilder.pool_ b') node = dealt_cards Sample.turn
    /\ CfrTypes.to_call node = F32.of_Z (-1).
Proof.
  assert (exists id b' d,
            GameTreeBuilder.add_chance_node_recursive Sample.stale
              (GameTreeBuilder.build_recursive Sample.stale 8) (F32.of_Z 100)
              (F32.of_Z 100) (F32.of_Z 100) RIVER Sample.turn
              (Sample.start Sample.checks_only) = Ok (id, b', d))
    as (id & b' & d & Hrun).
  { eexists _, _, _. vm_compute. reflexivity. }
  destruct (chance_node_deals_one_card_per_rank Sample.stale 8 (F32.of_Z 100)
              (F32.of_Z 100) (F32.of_Z 100) RIVER Sample.turn
              (Sample.start Sample.checks_only) b' id d)
    as (node & Hnode & Htype & _ & Hcards & _ & _ & Htc & _).
  - unfold Sample.turn. repeat constructor; vm_compute; congruence.
  - vm_compute. repeat split; first [reflexivity | intro; discriminate].
  - exact Hrun.
  - exists id, b', d, node. auto.
Defined.

(** ** The tree that [build_tree] hands back *)






(** ** The engine: strategies and terminal values *)

Lemma current_strategy_unseen {F} `{FloatOps F}
    (e : CppCFREngine.t F) (node_id player combo_idx iteration : Z)
    (node : CppNode F) :
  stored_node e node_id = Some node ->
  Z.of_nat (length (CppCFREngine.node_regrets_ e)) < 2 ^ 31 ->
  stored_regrets e node_id combo_idx = None ->
  let k := action_count node in
  CppCFREngine.get_current_strategy node_id player combo_idx iteration e
  = Ok (if flt (fint 0) (fint 0)
        then map (fun x => fdiv x (fint 0)) (replicate (Z.to_nat k) (fint 0))
        else replicate (Z.to_nat k) (fdiv (fint 1) (fint k)),
        e, []).
Proof.
  intros Hnode Hfit Hreg k.
  assert (0 <= node_id) as Hpos.
  { unfold stored_node in Hnode. destruct (CppCFREngine.pool_ e); [|discriminate].
    destruct (Z.leb_spec 0 node_id); [done|discriminate]. }
  unfold CppCFREngine.get_current_strategy.
  rewrite (bind_ok_silent _ _ _ _ _ (node_at_stored _ _ _ Hnode)).
  erewrite bind_ok_silent; [|reflexivity]. cbn beta.
  assert (i32 (Z.of_nat (length (CppCFREngine.node_regrets_ e)))
          = Z.of_nat (length (CppCFREngine.node_regrets_ e))) as ->.
  { unfold i32. rewrite Z.mod_small by lia. lia. }
  unfold stored_regrets in Hreg.
  destruct (Z.leb_spec 0 node_id); [|lia].
  destruct (Z.ltb_spec (Z.of_nat (length (CppCFREngine.node_regrets_ e))) (2 ^ 31));
    [|lia].
  cbn [andb] in Hreg.
  destruct (Z.ltb_spec node_id (Z.of_nat (length (CppCFREngine.node_regrets_ e))))
    as [Hin|Hout].
  - destruct (CppCFREngine.node_regrets_ e !! Z.to_nat node_id) as [nr|] eqn:Hnr.
    2:{ apply lookup_ge_None in Hnr. lia. }
    cbn in Hreg.
    erewrite bind_ok_silent.
    2:{ erewrite bind_ok_silent; [|by apply vec_at_ok_Z].
        rewrite Hreg. reflexivity. }
    cbn beta iota. fold k. destruct (flt (fint 0) (fint 0)); reflexivity.
  - erewrite bind_ok_silent; [|reflexivity].
    cbn beta iota. fold k. destruct (flt (fint 0) (fint 0)); reflexivity.
Qed.

(** X21.  A (node, combo) pair for which no regrets are stored yet (the node is
    beyond the regret store, or the store has no entry for the combo) plays
    every action with the same probability [1 / action_count]; the engine is
    left as it was. *)
Theorem strategy_uniform_without_regrets
    (e : CppCFREngine.t spec_float) (node_id player combo_idx iteration : Z)
    (node : CppNode spec_float) :
  stored_node e node_id = Some node ->
  Z.of_nat (length (CppCFREngine.node_regrets_ e)) < 2 ^ 31 ->
  stored_regrets e node_id combo_idx = None ->
  CppCFREngine.get_current_strategy node_id player combo_idx iteration e
  = Ok (replicate (Z.to_nat (action_count node))
          (F32.div (F32.of_Z 1) (F32.of_Z (action_count node))), e, []).
Proof.
  intros Hnode Hfit Hreg.
  rewrite (current_strategy_unseen e node_id player combo_idx iteration node)
    by done.
  reflexivity.
Qed.

Lemma strategy_uniform_without_regrets_witness :
  CppCFREngine.get_current_strategy 0 0 7 1 (Sample.three_actions (F := spec_float))
  = Ok (replicate 3 (F32.div (F32.of_Z 1) (F32.of_Z 3)), Sample.three_actions, []).
Proof.
  apply (strategy_uniform_without_regrets (Sample.three_actions (F := spec_float))
           0 0 7 1
           (mkNode 0 (-1) PLAYER 0 RIVER (fint 10) (fint 10, fint 10) (fint 0)
              0 3 0 0 0 0 Sample.river 5)).
  - vm_compute. reflexivity.
  - vm_compute. reflexivity.
  - vm_compute. reflexivity.
Defined.

(** X22.  At a terminal node whose pot is below 0.01 (the nodes the builder
    writes after a fold carry pot 0) the value for a player is the player's
    stack at the node minus the player's stack at the root.  The hands are
    not looked at (the combo indices need not even be in range), and the
    pot the players built does not enter the value. *)
Theorem terminal_ev_after_fold {F} `{FloatOps F}
    (calculate_equity : list Z -> list Z -> list Z -> Z -> Z -> F)
    (e : CppCFREngine.t F) (root node : CppNode F) (player my_idx opp_idx : Z) :
  stored_node e (CppCFREngine.root_id_ e) = Some root ->
  flt (pot node) (flit 1 100) = true ->
  CppCFREngine.terminal_ev calculate_equity node player my_idx opp_idx e
  = Ok (fsub (stack_of node player) (stack_of root player), e, []).
Proof.
  intros Hroot Hpot. unfold CppCFREngine.terminal_ev.
  erewrite bind_ok_silent; [|reflexivity]. cbn beta.
  rewrite (bind_ok_silent _ _ _ _ _ (node_at_stored _ _ _ Hroot)).
  rewrite Hpot. reflexivity.
Qed.

Lemma terminal_ev_after_fold_witness :
  CppCFREngine.terminal_ev Sample.no_estimate
    (mkNode 2 (-1) TERMINAL 1 RIVER (F32.of_Z 0) (F32.of_Z 50, F32.of_Z 100)
       (F32.of_Z 0) 0 0 0 0 0 0 Sample.river 5) 0 9 9
    (Sample.showdown (F := spec_float))
  = Ok (F32.sub (F32.of_Z 50) (F32.of_Z 100), Sample.showdown, []).
Proof.
  refine (terminal_ev_after_fold (F := spec_float) Sample.no_estimate
            Sample.showdown
            (mkNode 0 (-1) PLAYER 0 RIVER (fint 100) (fint 100, fint 100) (fint 0)
               0 0 0 0 0 0 Sample.river 5)
            (mkNode 2 (-1) TERMINAL 1 RIVER (F32.of_Z 0) (F32.of_Z 50, F32.of_Z 100)
               (F32.of_Z 0) 0 0 0 0 0 0 Sample.river 5) 0 9 9 _ _).
  - vm_compute. reflexivity.
  - vm_compute. reflexivity.
Defined.

(** ** Loading a tree into the engine *)

Lemma on_pool_on_nodes_push {F} `{FloatOps F} (e : CppCFREngine.t F)
    (p : TreeDataPool F) (vs : list (CppNode F)) r :
  CppCFREngine.pool_ e = Some p ->
  for_each vs (fun n _ => MmapBuffer.push_back n) tt (nodes p) = r ->
  CppCFREngine.on_pool
    (on_nodes (for_each vs (fun n _ => MmapBuffer.push_back n) tt)) e
  = match r with
    | Ok (a, b, d) =>
        Ok (a, CppCFREngine.set_pool
                 (Some (mkPool b (actions p) (child_ids p) (chance_cards p))) e, d)
    | Throw w => Throw w
    | Undefined => Undefined
    | OutOfFuel => OutOfFuel
    end.
Proof.
  intros Hp <-. unfold CppCFREngine.on_pool, on_nodes, zoom. rewrite Hp.
  destruct (for_each vs _ tt (nodes p)) as [[[a b] d]| | |]; reflexivity.
Qed.

(** X23.  [set_tree] first constructs a fresh pool: when a constructor of the
    pool throws, [set_tree] throws the same error.  Otherwise it replaces
    the pool by the fresh one holding the given nodes in order: afterwards
    the engine finds each of them under its index, the node count is the
    number of nodes given, the root id is the one given, and the regret
    store has one empty entry per node.  A list longer than the capacity of
    the node arena makes it throw the overflow error.  The constructor of
    the pool either throws or leaves the empty pool. *)
Theorem set_tree_loads_the_nodes {F} `{FloatOps F}
    (files : string -> MmapBuffer.Mapping) (e : CppCFREngine.t F)
    (tree : list (CppNode F)) (root_id : Z) :
  (forall w, TreeDataPool_construct (F := F) files = Throw w ->
     CppCFREngine.set_tree files tree root_id e = Throw w)
  /\ (TreeDataPool_construct (F := F) files = Ok TreeDataPool_new ->
      if Z.of_nat (length tree) <=? 50000000 then
        exists e',
          CppCFREngine.set_tree files tree root_id e = Ok (tt, e', [])
          /\ CppCFREngine.root_id_ e' = root_id
          /\ CppCFREngine.get_node_count e' = Z.of_nat (length tree)
          /\ CppCFREngine.node_regrets_ e' = replicate (length tree) (mkRegrets ∅ ∅)
          /\ (forall i n, tree !! i = Some n -> stored_node e' (Z.of_nat i) = Some n)
          /\ (forall i, Z.of_nat (length tree) <= i -> stored_node e' i = None)
      else
        CppCFREngine.set_tree files tree root_id e
        = Throw "MmapBuffer overflow in file: tmp/nodes.bin (Limit: 50000000)")
  /\ (TreeDataPool_construct (F := F) files = Ok TreeDataPool_new
      \/ exists w, TreeDataPool_construct (F := F) files = Throw w)
  /\ (files "tmp/nodes.bin" = MmapBuffer.OpenFails ->
      CppCFREngine.set_tree files tree root_id e
      = Throw "Failed to open mmap file: tmp/nodes.bin").
Proof.
  split; [|split; [|split; [apply TreeDataPool_construct_cases|]]].
  - intros w Hthrow. unfold CppCFREngine.set_tree. by apply make_pool_throws.
  - intros Hfresh.
    pose proof (push_all_from tree "tmp/nodes.bin" [] 50000000 ltac:(cbn; lia))
      as Hpush.
    cbn [length Nat.add app] in Hpush. change (Z.of_nat 0) with 0 in Hpush.
    unfold CppCFREngine.set_tree.
    rewrite (bind_ok_silent _ _ _ _ _ (make_pool_returns files _ e Hfresh)).
    erewrite bind_ok_silent; [|reflexivity]. cbn beta.
    erewrite bind_ok_silent; [|reflexivity].
    rewrite (bind_ok_silent _ _ _ tt
               (CppCFREngine.set_pool (Some TreeDataPool_new) e)) by reflexivity.
    set (e1 := CppCFREngine.set_pool (Some TreeDataPool_new) e).
    pose proof (on_pool_on_nodes_push e1 TreeDataPool_new tree _ eq_refl Hpush)
      as Hload.
    destruct (Z.leb_spec (Z.of_nat (length tree)) 50000000) as [Hfits|Hover].
    + rewrite (bind_ok_silent _ _ _ _ _ Hload).
      erewrite bind_ok_silent; [|reflexivity]. cbn beta.
      erewrite bind_ok_silent; [|reflexivity]. cbn beta.
      eexists. split; [reflexivity|].
      cbn [CppCFREngine.root_id_ CppCFREngine.node_regrets_ CppCFREngine.get_node_count
           CppCFREngine.pool_ CppCFREngine.set_pool nodes MmapBuffer.size
           MmapBuffer.count_].
      split; [reflexivity|]. split; [apply i32_small; lia|].
      split; [by rewrite Nat2Z.id|].
      unfold stored_node.
      cbn [CppCFREngine.pool_ CppCFREngine.set_pool nodes MmapBuffer.count_
           MmapBuffer.max_elements_ MmapBuffer.data_at MmapBuffer.slots].
      split.
      * intros i n Hn. pose proof (lookup_lt_Some _ _ _ Hn) as Hlt.
        destruct (Z.leb_spec 0 (Z.of_nat i)); [|lia].
        destruct (Z.ltb_spec (Z.of_nat i) (Z.of_nat (length tree))); [|lia].
        destruct (Z.ltb_spec (Z.of_nat i) 50000000); [|lia].
        destruct (Z.ltb_spec (Z.of_nat i) (2 ^ 31)); [|lia].
        cbn [andb]. f_equal. unfold MmapBuffer.data_at. cbn [MmapBuffer.slots].
        rewrite Nat2Z.id. by apply nth_lookup_Some.
      * intros i Hi.
        destruct (Z.ltb_spec i (Z.of_nat (length tree))); [lia|].
        by rewrite andb_false_r.
    + unfold mbind at 1. unfold Prog_bind. rewrite Hload. reflexivity.
  - intros Hopen. unfold CppCFREngine.set_tree. apply make_pool_throws.
    unfold TreeDataPool_construct, MmapBuffer.construct. by rewrite Hopen.
Qed.

Lemma set_tree_loads_the_nodes_witness :
  CppCFREngine.set_tree (F := spec_float) Sample.no_tmp [] 0
    (CppCFREngine.create default_config)
  = Throw "Failed to open mmap file: tmp/nodes.bin"
  /\ exists e',
       CppCFREngine.set_tree (F := spec_float) Sample.files
         [mkNode 0 (-1) PLAYER 0 RIVER (fint 10) (fint 10, fint 10) (fint 0)
            0 3 0 0 0 0 Sample.river 5] 0 (CppCFREngine.create default_config)
       = Ok (tt, e', [])
       /\ CppCFREngine.get_node_count e' = 1.
Proof.
  split.
  - apply (set_tree_loads_the_nodes (F := spec_float) Sample.no_tmp
             (CppCFREngine.create default_config) [] 0). reflexivity.
  - destruct (proj1 (proj2 (set_tree_loads_the_nodes (F := spec_float) Sample.files
                (CppCFREngine.create default_config)
                [mkNode 0 (-1) PLAYER 0 RIVER (fint 10) (fint 10, fint 10) (fint 0)
                   0 3 0 0 0 0 Sample.river 5] 0)) eq_refl)
      as (e' & Hrun & _ & Hcount & _).
    exists e'. split; [exact Hrun|exact Hcount].
Defined.

(** ** The signs of the strategy *)

Lemma current_strategy_seen {F} `{FloatOps F}
    (e : CppCFREngine.t F) (node_id player combo_idx iteration : Z)
    (node : CppNode F) (r : list F) :
  stored_node e node_id = Some node ->
  stored_regrets e node_id combo_idx = Some r ->
  length r = Z.to_nat (action_count node) ->
  let k := action_count node in
  let positive := map (fmax (fint 0)) r in
  let sum := fold_left fadd positive (fint 0) in
  CppCFREngine.get_current_strategy node_id player combo_idx iteration e
  = Ok (if flt (fint 0) sum then map (fun x => fdiv x sum) positive
        else replicate (Z.to_nat k) (fdiv (fint 1) (fint k)),
        e, []).
Proof.
  intros Hnode Hreg Hlen k positive sum.
  unfold CppCFREngine.get_current_strategy.
  rewrite (bind_ok_silent _ _ _ _ _ (node_at_stored _ _ _ Hnode)).
  unfold stored_regrets in Hreg.
  destruct (Z.leb_spec 0 node_id) as [Hpos|]; [|discriminate].
  destruct (Z.ltb_spec (Z.of_nat (length (CppCFREngine.node_regrets_ e))) (2 ^ 31))
    as [Hfit|]; [|discriminate].
  cbn [andb] in Hreg.
  destruct (CppCFREngine.node_regrets_ e !! Z.to_nat node_id) as [nr|] eqn:Hnr;
    [|discriminate].
  cbn in Hreg.
  pose proof (lookup_lt_Some _ _ _ Hnr) as Hlt.
  erewrite bind_ok_silent; [|reflexivity]. cbn beta.
  assert (i32 (Z.of_nat (length (CppCFREngine.node_regrets_ e)))
          = Z.of_nat (length (CppCFREngine.node_regrets_ e))) as ->.
  { unfold i32. rewrite Z.mod_small by lia. lia. }
  destruct (Z.ltb_spec node_id (Z.of_nat (length (CppCFREngine.node_regrets_ e))));
    [|lia].
  erewrite bind_ok_silent.
  2:{ erewrite bind_ok_silent; [|by apply vec_at_ok_Z].
      rewrite Hreg. by apply positive_parts_all. }
  cbn beta iota. fold positive. fold sum.
  destruct (flt (fint 0) sum); reflexivity.
Qed.

Lemma round_aux_sign_clear prec emax m e l :
  sign_clear (binary_round_aux prec emax false m e l).
Proof.
  unfold binary_round_aux.
  destruct (shr_fexp prec emax m e l) as [mrs' e'].
  destruct (shr_fexp prec emax _ e' loc_Exact) as [mrs'' e''].
  destruct (shr_m mrs''); [done| |done].
  by destruct (_ <=? _).
Qed.

Lemma of_Z_sign_clear k : 0 <= k -> sign_clear (F32.of_Z k).
Proof.
  intros Hk. unfold F32.of_Z, binary_normalize.
  destruct k as [|m|m]; [done| |lia].
  unfold binary_round. destruct (shl_align _ _ _). apply round_aux_sign_clear.
Qed.

Lemma div_sign_clear x y :
  sign_clear x -> sign_clear y -> sign_clear (F32.div x y).
Proof.
  unfold F32.div, SFdiv.
  destruct x as [sx|sx| |sx mx ex], y as [sy|sy| |sy my ey]; cbn [sign_clear];
    intros Hx Hy; subst; try done.
  destruct (SFdiv_core_binary _ _ _ _ _ _) as [[mz ez] lz].
  apply round_aux_sign_clear.
Qed.

Lemma above_zero_sign_clear x :
  F32.ltb (F32.of_Z 0) x = true -> sign_clear x.
Proof. destruct x as [[]|[]| |[] m e]; cbn; congruence. Qed.

Lemma sign_clear_not_below_zero x :
  sign_clear x -> F32.ltb x (F32.of_Z 0) = false.
Proof. destruct x as [[]|[]| |[] m e]; cbn; intros Hs; congruence. Qed.

Lemma fmax_zero_sign_clear (x : spec_float) : sign_clear (fmax (fint 0) x).
Proof.
  unfold fmax. change (flt (fint 0) x) with (F32.ltb (F32.of_Z 0) x).
  destruct (F32.ltb (F32.of_Z 0) x) eqn:Hx; [by apply above_zero_sign_clear|done].
Qed.

(** X24.  In the [float] arithmetic of the code the strategy of regret
    matching has one entry per action and no entry is below zero, whether
    regrets are stored for the pair or not; the call prints nothing and
    leaves the engine as it was. *)
Theorem strategy_never_below_zero (e : CppCFREngine.t spec_float)
    (node_id player combo_idx iteration : Z) (node : CppNode spec_float) :
  stored_node e node_id = Some node ->
  0 < action_count node ->
  Z.of_nat (length (CppCFREngine.node_regrets_ e)) < 2 ^ 31 ->
  (forall r, stored_regrets e node_id combo_idx = Some r ->
             length r = Z.to_nat (action_count node)) ->
  exists s,
    CppCFREngine.get_current_strategy node_id player combo_idx iteration e
    = Ok (s, e, [])
    /\ length s = Z.to_nat (action_count node)
    /\ Forall (fun x => F32.ltb x (F32.of_Z 0) = false) s.
Proof.
  intros Hnode Hk Hfit Hlen.
  set (k := action_count node) in *.
  assert (Forall (fun x => F32.ltb x (F32.of_Z 0) = false)
            (replicate (Z.to_nat k) (F32.div (F32.of_Z 1) (F32.of_Z k))))
    as Huniform.
  { apply Forall_replicate, sign_clear_not_below_zero, div_sign_clear;
      apply of_Z_sign_clear; lia. }
  destruct (stored_regrets e node_id combo_idx) as [r|] eqn:Hreg.
  - specialize (Hlen r eq_refl).
    rewrite (current_strategy_seen e node_id player combo_idx iteration node r)
      by done.
    cbn zeta. fold k.
    set (positive := map (fmax (fint 0)) r).
    set (sum := fold_left fadd positive (fint 0)).
    change (flt (fint 0) sum) with (F32.ltb (F32.of_Z 0) sum).
    destruct (F32.ltb (F32.of_Z 0) sum) eqn:Hsum.
    + eexists. split; [reflexivity|]. split.
      * subst positive. by rewrite !length_map.
      * subst positive. rewrite !Forall_map. apply Forall_forall.
        intros x _. cbn beta.
        apply sign_clear_not_below_zero, div_sign_clear;
          [apply fmax_zero_sign_clear|by apply above_zero_sign_clear].
    + eexists. split; [reflexivity|]. split; [apply length_replicate|done].
  - rewrite (current_strategy_unseen e node_id player combo_idx iteration node)
      by done.
    cbn zeta. fold k.
    change (flt (fint 0) (fint 0)) with false.
    eexists. split; [reflexivity|]. split; [apply length_replicate|done].
Qed.

Lemma strategy_never_below_zero_witness :
  exists s,
    CppCFREngine.get_current_strategy 0 0 0 1 Sample.three_actions
    = Ok (s, Sample.three_actions, [])
    /\ length s = 3%nat
    /\ Forall (fun x => F32.ltb x (F32.of_Z 0) = false) s.
Proof.
  apply (strategy_never_below_zero Sample.three_actions 0 0 0 1
           (mkNode 0 (-1) PLAYER 0 RIVER (fint 10) (fint 10, fint 10) (fint 0)
              0 3 0 0 0 0 Sample.river 5)).
  - vm_compute. reflexivity.
  - reflexivity.
  - vm_compute. reflexivity.
  - intros r Hr. vm_compute in Hr. by injection Hr as <-.
Defined.

(** The entries need not add up to 1.  With positive regrets whose sum
    overflows to infinity, 1e38, 3e38 and 3e38, every entry is a finite
    value divided by infinity: the strategy is (0, 0, 0). *)
Lemma strategy_can_vanish :
  returned
    (CppCFREngine.get_current_strategy 0 0 0 1
       (CppCFREngine.set_regrets
          [mkRegrets {[ 0 := [F32.of_Z (10 ^ 38); F32.of_Z (3 * 10 ^ 38);
                              F32.of_Z (3 * 10 ^ 38)] ]} ∅]
          Sample.three_actions))
  = Some [F32.of_Z 0; F32.of_Z 0; F32.of_Z 0].
Proof. vm_compute. reflexivity. Qed.

(** ** The equity calculator *)

Lemma mask_testbit_board (l : list Z) (i : Z) :
  Forall (fun c => 0 <= c < 64) l -> 0 <= i < 64 ->
  Z.testbit (fold_left add_card_to_mask l 0) i = true <-> i ∈ l.
Proof.
  intros Hl Hi. rewrite <- mask_has_card_testbit by done.
  rewrite board_mask_has by done. rewrite list_elem_of_In.
  split; [intros [?|Hz]; [done|]|tauto].
  unfold mask_has_card in Hz. rewrite Z.land_0_l in Hz. discriminate.
Qed.

Lemma popcount_counts_distinct (l : list Z) :
  Forall (fun c => 0 <= c < 64) l ->
  popcountll (fold_left add_card_to_mask l 0) = Z.of_nat (length l) <-> NoDup l.
Proof.
  intros Hl. unfold popcountll.
  set (held := filter (fun i => Z.testbit (fold_left add_card_to_mask l 0) i = true)
                 (map Z.of_nat (seq 0 64))).
  assert (NoDup held) as Hnd.
  { apply NoDup_filter. apply (NoDup_fmap_2 Z.of_nat), NoDup_seq. }
  assert (forall x, x ∈ held <-> x ∈ l) as Hsame.
  { intros x. unfold held. rewrite list_elem_of_filter.
    split.
    - intros [Hbit Hin]. apply list_elem_of_In, in_map_iff in Hin as (n & <- & Hn).
      apply in_seq in Hn. apply mask_testbit_board in Hbit; [done|done|lia].
    - intros Hx. rewrite Forall_forall in Hl. pose proof (Hl x Hx) as Hr.
      split; [by apply mask_testbit_board; [apply Forall_forall|..]|].
      apply list_elem_of_In, in_map_iff. exists (Z.to_nat x).
      split; [lia|]. apply in_seq. lia. }
  split.
  - intros Hlen.
    assert (held ⊆+ l) as Hsub by (apply NoDup_submseteq; [done|]; intros x; apply Hsame).
    assert (held ≡ₚ l) as Hperm by (apply submseteq_length_Permutation; [done|lia]).
    by rewrite <- Hperm.
  - intros Hndl. f_equal. apply Permutation_length.
    apply NoDup_Permutation; done.
Qed.

Lemma dead_cards_length hero villain board board_size :
  0 <= board_size ->
  Z.of_nat (length (EquityCalculator.dead_cards hero villain board board_size))
  = 4 + board_size.
Proof.
  intros Hb. unfold EquityCalculator.dead_cards.
  rewrite length_app, List.length_map, length_seq. cbn [length]. lia.
Qed.

Lemma calculate_equity_checks_distinct draw hero villain board board_size n :
  0 <= board_size <= 5 ->
  Forall (fun c => 0 <= c < 64)
    (EquityCalculator.dead_cards hero villain board board_size) ->
  EquityCalculator.calculate_equity draw hero villain board board_size n
  = if decide (NoDup (EquityCalculator.dead_cards hero villain board board_size))
    then
      if 5 <=? board_size then
        Ok (EquityCalculator.compare_ranks (evaluate hero board board_size)
              (evaluate villain board board_size))
      else
        let '(_, wins, ties) :=
          fold_left
            (EquityCalculator.simulate draw hero villain board board_size
               (Z.to_nat (5 - board_size)))
            (map Z.of_nat (seq 0 (Z.to_nat n)))
            (EquityCalculator.make_deck
               (fold_left add_card_to_mask
                  (EquityCalculator.dead_cards hero villain board board_size) 0),
             0, 0) in
        Ok (F64.div (F64.add (F64.of_Z wins) (F64.mul (F64.of_Z ties) (F64.lit 1 2)))
                    (F64.of_Z n))
    else Ok (F64.lit 1 2).
Proof.
  intros Hb Hrange. unfold EquityCalculator.calculate_equity.
  destruct (Z.ltb_spec 5 board_size); [lia|].
  pose proof (popcount_counts_distinct _ Hrange) as Hpop.
  rewrite dead_cards_length in Hpop by lia.
  destruct (decide (NoDup _)) as [Hnd|Hdup].
  - rewrite (proj2 Hpop Hnd), Z.eqb_refl. cbn [negb].
    destruct (Z.leb_spec (5 - board_size) 0), (Z.leb_spec 5 board_size); try lia;
      [reflexivity|].
    destruct (Z.ltb_spec board_size 0); [lia|]. reflexivity.
  - destruct (Z.eqb_spec (popcountll (fold_left add_card_to_mask
                (EquityCalculator.dead_cards hero villain board board_size) 0))
                (4 + board_size)) as [Heq|Hne]; [|reflexivity].
    by apply Hpop in Heq.
Qed.

(** X25.  When a card appears twice among the two hole-card pairs and the board
    cards in play, [calculate_equity] does not evaluate anything: it returns
    0.5, whatever the number of simulations. *)
Theorem calculate_equity_conflict_is_half (draw : Z -> nat -> nat)
    (hero villain board : list Z) (board_size num_simulations : Z) :
  0 <= board_size <= 5 ->
  Forall (fun c => 0 <= c < 64)
    (EquityCalculator.dead_cards hero villain board board_size) ->
  ~ NoDup (EquityCalculator.dead_cards hero villain board board_size) ->
  EquityCalculator.calculate_equity draw hero villain board board_size
    num_simulations = Ok (F64.lit 1 2).
Proof.
  intros Hb Hrange Hdup. rewrite calculate_equity_checks_distinct by done.
  by destruct (decide (NoDup _)).
Qed.

Lemma calculate_equity_conflict_is_half_witness :
  EquityCalculator.calculate_equity (fun _ i => i) [48; 49] [48; 44] Sample.river 5 100
  = Ok (F64.lit 1 2).
Proof.
  apply (calculate_equity_conflict_is_half (fun _ i => i) [48; 49] [48; 44]
           Sample.river 5 100).
  - lia.
  - vm_compute. repeat constructor; intro; discriminate.
  - intros Hnd. apply NoDup_cons in Hnd as [Hnot _]. apply Hnot. vm_compute.
    right. left.
Defined.

Lemma dead_cards_swap hero villain board board_size :
  EquityCalculator.dead_cards hero villain board board_size
  ≡ₚ EquityCalculator.dead_cards villain hero board board_size.
Proof.
  unfold EquityCalculator.dead_cards.
  apply (Permutation_app_tail _
           (l := [at_ hero 0; at_ hero 1; at_ villain 0; at_ villain 1])
           (l' := [at_ villain 0; at_ villain 1; at_ hero 0; at_ hero 1])).
  change ([at_ hero 0; at_ hero 1] ++ [at_ villain 0; at_ villain 1]
          ≡ₚ [at_ villain 0; at_ villain 1] ++ [at_ hero 0; at_ hero 1]).
  apply Permutation_app_comm.
Qed.

Lemma compare_ranks_complement (a b : Z) :
  F64.add (EquityCalculator.compare_ranks a b) (EquityCalculator.compare_ranks b a)
  = F64.of_Z 1.
Proof.
  unfold EquityCalculator.compare_ranks.
  destruct (Z.ltb_spec b a), (Z.ltb_spec a b); try lia;
    vm_compute; reflexivity.
Qed.

(** X26.  On a complete board the equity is decided by one comparison and no
    card is drawn: hero's equity is 1, 0 or 0.5 as hero's seven-card rank is
    above, below or equal to villain's, and the equities of the two players
    add up to exactly 1 (two halves when a card appears twice). *)
Theorem calculate_equity_river_complement (draw draw' : Z -> nat -> nat)
    (hero villain board : list Z) (n n' : Z) :
  Forall (fun c => 0 <= c < 64) (EquityCalculator.dead_cards hero villain board 5) ->
  exists a b,
    EquityCalculator.calculate_equity draw hero villain board 5 n = Ok a
    /\ EquityCalculator.calculate_equity draw' villain hero board 5 n' = Ok b
    /\ F64.add a b = F64.of_Z 1
    /\ (NoDup (EquityCalculator.dead_cards hero villain board 5) ->
        a = (if evaluate villain board 5 <? evaluate hero board 5 then F64.of_Z 1
             else if evaluate hero board 5 <? evaluate villain board 5 then F64.of_Z 0
             else F64.lit 1 2)).
Proof.
  intros Hrange.
  assert (Forall (fun c => 0 <= c < 64)
            (EquityCalculator.dead_cards villain hero board 5)) as Hrange'
    by (by rewrite <- dead_cards_swap).
  rewrite !calculate_equity_checks_distinct by (done || lia).
  destruct (decide (NoDup (EquityCalculator.dead_cards hero villain board 5)))
    as [Hnd|Hdup];
    destruct (decide (NoDup (EquityCalculator.dead_cards villain hero board 5)))
      as [Hnd'|Hdup'].
  - cbn [Z.leb Z.compare Pos.compare Pos.compare_cont].
    eexists _, _. split; [reflexivity|]. split; [reflexivity|].
    split; [apply compare_ranks_complement|]. intros _. reflexivity.
  - exfalso. apply Hdup'. by rewrite <- dead_cards_swap.
  - exfalso. apply Hdup. by rewrite dead_cards_swap.
  - eexists _, _. split; [reflexivity|]. split; [reflexivity|].
    split; [vm_compute; reflexivity|]. intros Hnd. done.
Qed.

Lemma calculate_equity_river_complement_witness :
  exists a b,
    EquityCalculator.calculate_equity (fun _ i => i) [48; 49] [44; 45] Sample.river 5 0
    = Ok a
    /\ EquityCalculator.calculate_equity (fun _ i => i) [44; 45] [48; 49] Sample.river
         5 0 = Ok b
    /\ F64.add a b = F64.of_Z 1.
Proof.
  destruct (calculate_equity_river_complement (fun _ i => i) (fun _ i => i)
              [48; 49] [44; 45] Sample.river 0 0)
    as (a & b & Ha & Hb & Hsum & _).
  - vm_compute. repeat constructor; intro; discriminate.
  - exists a, b. auto.
Defined.

(** X27.  With cards still to come and no simulation to run, [calculate_equity]
    divides zero by zero: the result is not a number. *)
Theorem calculate_equity_without_simulations (draw : Z -> nat -> nat)
    (hero villain board : list Z) (board_size : Z) :
  0 <= board_size < 5 ->
  Forall (fun c => 0 <= c < 64)
    (EquityCalculator.dead_cards hero villain board board_size) ->
  NoDup (EquityCalculator.dead_cards hero villain board board_size) ->
  EquityCalculator.calculate_equity draw hero villain board board_size 0
  = Ok S754_nan.
Proof.
  intros Hb Hrange Hnd. rewrite calculate_equity_checks_distinct by (done || lia).
  destruct (decide (NoDup _)); [|done].
  destruct (Z.leb_spec 5 board_size); [lia|]. reflexivity.
Qed.

Lemma calculate_equity_without_simulations_witness :
  EquityCalculator.calculate_equity (fun _ i => i) [48; 49] [44; 45] Sample.turn 4 0
  = Ok S754_nan.
Proof.
  apply (calculate_equity_without_simulations (fun _ i => i) [48; 49] [44; 45]
           Sample.turn 4).
  - lia.
  - vm_compute. repeat constructor; intro; discriminate.
  - compute_done.
Defined.



Section Starved.
Variable draw : nat -> nat -> Z -> nat -> nat.
Variables (hero : list Z) (h : nat) (villain_hands : list (list Z)).
Variables (villain_weights : list spec_float) (board : list Z).
Variables (board_size num_simulations : Z).
Hypothesis Hboard : 0 <= board_size < 5.
Hypothesis Hfew : 0 <= num_simulations < Z.of_nat (length villain_hands).
Hypothesis Hint : Z.of_nat (length villain_hands) < 2 ^ 31.

End Starved.



(** ** [solve] without a progress callback *)

(** X29.  Without a progress callback, and with iterations that leave the stop
    flag alone, [solve] clears the regret history and the stop flag,
    precomputes the river ranks, and then runs the iterations 1, 2, ...,
    [iterations] in this order, each followed by the discount when its
    number is even.  Once the stop flag is set no further pass is entered. *)
Theorem solve_runs_every_iteration {F} `{FloatOps F} (fpow : F -> F -> F)
    (run_iteration : Z -> Prog (CppCFREngine.t F) unit) (iterations : Z)
    (e : CppCFREngine.t F) :
  (forall t e e' d, run_iteration t e = Ok (tt, e', d) ->
                    CppCFREngine.should_stop_ e' = CppCFREngine.should_stop_ e) ->
  0 <= iterations ->
  CppCFREngine.solve fpow run_iteration None iterations e
  = (_ ← CppCFREngine.precompute_river_ranks;
     for_each (map Z.of_nat (seq 1 (Z.to_nat iterations)))
       (fun t _ => CppCFREngine.run_and_discount fpow run_iteration t) tt)
      (solve_start iterations e)
  /\ forall m t callback e',
       CppCFREngine.should_stop_ e' = true ->
       CppCFREngine.solve_loop fpow run_iteration callback m t iterations e'
       = Ok (tt, e', []).
Proof.
  intros Hkeep Hn. split.
  - unfold CppCFREngine.solve.
    unfold mbind at 1. unfold Prog_bind at 1. unfold get at 1.
    unfold mbind at 1. unfold Prog_bind at 1. unfold put at 1.
    fold (solve_start iterations e).
    assert (exists e1, CppCFREngine.precompute_river_ranks (solve_start iterations e)
                       = Ok (tt, e1, [])
                       /\ CppCFREngine.should_stop_ e1 = false) as (e1 & Hpre & Hflag).
    { unfold CppCFREngine.precompute_river_ranks, mbind, Prog_bind, get, put.
      destruct (_ || _); eexists; split; reflexivity. }
    unfold mbind, Prog_bind. rewrite Hpre.
    rewrite (solve_loop_unrolled fpow run_iteration Hkeep (Z.to_nat iterations)
               1 iterations e1 Hflag) by lia.
    assert (map (fun i => 1 + Z.of_nat i) (seq 0 (Z.to_nat iterations))
            = map Z.of_nat (seq 1 (Z.to_nat iterations))) as ->.
    { rewrite <- seq_shift, map_map. apply map_ext. intros i. lia. }
    destruct (for_each _ _ tt e1) as [[[[] e2] d2]| | |]; reflexivity.
  - intros m t callback e' Hstop. destruct m; [reflexivity|].
    cbn [CppCFREngine.solve_loop]. unfold mbind, Prog_bind, get.
    rewrite Hstop, andb_false_r. reflexivity.
Qed.

Lemma solve_runs_every_iteration_witness :
  CppCFREngine.solve Sample.pow Sample.idle_iteration None 3 Sample.engine
  = (_ ← CppCFREngine.precompute_river_ranks;
     for_each [1; 2; 3]
       (fun t _ => CppCFREngine.run_and_discount Sample.pow Sample.idle_iteration t)
       tt)
      (solve_start 3 Sample.engine).
Proof.
  refine (proj1 (solve_runs_every_iteration Sample.pow Sample.idle_iteration 3
                   Sample.engine _ _)).
  - intros t e e' d Hrun. by injection Hrun as <- <-.
  - lia.
Defined.
